(** * LIN bus frame decoder (proto/arduino/lin_decoder.cpp)

    A shallow embedding of the bit-sampling receive state machine, of its
    ring buffer of frames and of the single-slot hand-off to the main
    program, followed by the properties proved about them.

    The file-scope variables of namespace [lin_decoder] are gathered in
    one record, [decoder].  Every [uint8] is a [Z] whose wrap-around is
    written out with [wrap8]; arrays are lists accessed with stdpp's
    lookup and insert, an access outside the array being reported as
    [Undefined].  The hardware (the RX pin and the free running clock)
    is a finite trace of instants: each read of the pin or of the clock
    observes the next instant.  Writes to the timer register TCNT2 and to
    the debug LEDs leave the variables of the decoder untouched and are
    not part of the state. *)

From Stdlib Require Import ZArith Lia Bool.
From stdpp Require Import base list.

Local Open Scope Z_scope.

(** ** Machine integers *)

Definition wrap8 (z : Z) : Z := z mod 256.
Definition wrap16 (z : Z) : Z := z mod 65536.

(** ** lin_decoder.h *)

Definition kMaxBytes : Z := 11.

Record RxFrameBuffer := mkRxFrameBuffer {
  num_bytes : Z;
  bytes : list Z
}.

(** ** Baud rate related parameters *)

Definition BAUD : Z := 9600.

(** Modelled from the spec: clock.h, which declares
    [clock::kHardwareTicksPerSecond], is not among the sources.  The
    spec fixes the inter-byte timeout to four bit periods; the comment
    next to [kClockTicksPerBit] (9600 baud gives 26, 20000 baud gives
    12) is met by 250000 ticks per second. *)
Definition kHardwareTicksPerSecond : Z := 250000.

Definition kClockTicksPerBit : Z := wrap8 (kHardwareTicksPerSecond / BAUD).

(** ** The variables of the decoder *)

Definition kMaxFrameBuffers : Z := 8.

Inductive rx_state := DETECT_BREAK | READ_DATA.

Record decoder := mkDecoder {
  request_buffer_has_data : bool;
  request_buffer : RxFrameBuffer;
  rx_frame_buffers : list RxFrameBuffer;
  head_frame_buffer : Z;
  tail_frame_buffer : Z;
  state : rx_state;
  low_bits_counter_ : Z;
  bytes_read_ : Z;
  bits_read_in_byte_ : Z;
  byte_buffer_ : Z;
  byte_buffer_bit_mask_ : Z;
  error_flag : bool
}.

Definition set_request_buffer_has_data (v : bool) (d : decoder) : decoder :=
  mkDecoder v (request_buffer d) (rx_frame_buffers d) (head_frame_buffer d)
    (tail_frame_buffer d) (state d) (low_bits_counter_ d) (bytes_read_ d)
    (bits_read_in_byte_ d) (byte_buffer_ d) (byte_buffer_bit_mask_ d)
    (error_flag d).

Definition set_request_buffer (v : RxFrameBuffer) (d : decoder) : decoder :=
  mkDecoder (request_buffer_has_data d) v (rx_frame_buffers d)
    (head_frame_buffer d) (tail_frame_buffer d) (state d)
    (low_bits_counter_ d) (bytes_read_ d) (bits_read_in_byte_ d)
    (byte_buffer_ d) (byte_buffer_bit_mask_ d) (error_flag d).

Definition set_rx_frame_buffers (v : list RxFrameBuffer) (d : decoder) : decoder :=
  mkDecoder (request_buffer_has_data d) (request_buffer d) v
    (head_frame_buffer d) (tail_frame_buffer d) (state d)
    (low_bits_counter_ d) (bytes_read_ d) (bits_read_in_byte_ d)
    (byte_buffer_ d) (byte_buffer_bit_mask_ d) (error_flag d).

Definition set_head_frame_buffer (v : Z) (d : decoder) : decoder :=
  mkDecoder (request_buffer_has_data d) (request_buffer d)
    (rx_frame_buffers d) v (tail_frame_buffer d) (state d)
    (low_bits_counter_ d) (bytes_read_ d) (bits_read_in_byte_ d)
    (byte_buffer_ d) (byte_buffer_bit_mask_ d) (error_flag d).

Definition set_tail_frame_buffer (v : Z) (d : decoder) : decoder :=
  mkDecoder (request_buffer_has_data d) (request_buffer d)
    (rx_frame_buffers d) (head_frame_buffer d) v (state d)
    (low_bits_counter_ d) (bytes_read_ d) (bits_read_in_byte_ d)
    (byte_buffer_ d) (byte_buffer_bit_mask_ d) (error_flag d).

Definition set_state (v : rx_state) (d : decoder) : decoder :=
  mkDecoder (request_buffer_has_data d) (request_buffer d)
    (rx_frame_buffers d) (head_frame_buffer d) (tail_frame_buffer d) v
    (low_bits_counter_ d) (bytes_read_ d) (bits_read_in_byte_ d)
    (byte_buffer_ d) (byte_buffer_bit_mask_ d) (error_flag d).

Definition set_low_bits_counter_ (v : Z) (d : decoder) : decoder :=
  mkDecoder (request_buffer_has_data d) (request_buffer d)
    (rx_frame_buffers d) (head_frame_buffer d) (tail_frame_buffer d)
    (state d) v (bytes_read_ d) (bits_read_in_byte_ d) (byte_buffer_ d)
    (byte_buffer_bit_mask_ d) (error_flag d).

Definition set_bytes_read_ (v : Z) (d : decoder) : decoder :=
  mkDecoder (request_buffer_has_data d) (request_buffer d)
    (rx_frame_buffers d) (head_frame_buffer d) (tail_frame_buffer d)
    (state d) (low_bits_counter_ d) v (bits_read_in_byte_ d)
    (byte_buffer_ d) (byte_buffer_bit_mask_ d) (error_flag d).

Definition set_bits_read_in_byte_ (v : Z) (d : decoder) : decoder :=
  mkDecoder (request_buffer_has_data d) (request_buffer d)
    (rx_frame_buffers d) (head_frame_buffer d) (tail_frame_buffer d)
    (state d) (low_bits_counter_ d) (bytes_read_ d) v (byte_buffer_ d)
    (byte_buffer_bit_mask_ d) (error_flag d).

Definition set_byte_buffer_ (v : Z) (d : decoder) : decoder :=
  mkDecoder (request_buffer_has_data d) (request_buffer d)
    (rx_frame_buffers d) (head_frame_buffer d) (tail_frame_buffer d)
    (state d) (low_bits_counter_ d) (bytes_read_ d) (bits_read_in_byte_ d)
    v (byte_buffer_bit_mask_ d) (error_flag d).

Definition set_byte_buffer_bit_mask_ (v : Z) (d : decoder) : decoder :=
  mkDecoder (request_buffer_has_data d) (request_buffer d)
    (rx_frame_buffers d) (head_frame_buffer d) (tail_frame_buffer d)
    (state d) (low_bits_counter_ d) (bytes_read_ d) (bits_read_in_byte_ d)
    (byte_buffer_ d) v (error_flag d).

Definition set_error_flag (v : bool) (d : decoder) : decoder :=
  mkDecoder (request_buffer_has_data d) (request_buffer d)
    (rx_frame_buffers d) (head_frame_buffer d) (tail_frame_buffer d)
    (state d) (low_bits_counter_ d) (bytes_read_ d) (bits_read_in_byte_ d)
    (byte_buffer_ d) (byte_buffer_bit_mask_ d) v.

(** ** Outcomes of code that reads the hardware or indexes an array *)

Inductive result (A : Type) : Type :=
  | Ok (a : A)
  | Undefined   (* an array was accessed outside its bounds *)
  | Starved.    (* the trace ended while the code was still reading it *)

Arguments Ok {A} a.
Arguments Undefined {A}.
Arguments Starved {A}.

Definition bind {A B : Type} (r : result A) (k : A -> result B) : result B :=
  match r with
  | Ok a => k a
  | Undefined => Undefined
  | Starved => Starved
  end.

Notation "'let*' x ':=' r 'in' k" := (bind r (fun x => k))
  (at level 10, x name, r at level 200, k at level 200).
Notation "'let*' ( x , y ) ':=' r 'in' k" :=
  (bind r (fun xy => let (x, y) := xy in k))
  (at level 10, x name, y name, r at level 200, k at level 200).

(** ** The hardware seen by the decoder *)

Record instant := mkInstant {
  rx_high : bool;   (* PIND & kRxPinMask is non zero *)
  ticks : Z         (* the free running hardware clock *)
}.

Definition trace := list instant.

Definition isRxHigh (tr : trace) : result (bool * trace) :=
  match tr with
  | [] => Starved
  | i :: tr' => Ok (rx_high i, tr')
  end.

Definition hardware_ticks_mod_16_bit (tr : trace) : result (Z * trace) :=
  match tr with
  | [] => Starved
  | i :: tr' => Ok (wrap16 (ticks i), tr')
  end.

(** ** ISR to main data transfer *)

(** [readNextFrame buffer]: the caller's [*buffer] is passed in and
    handed back next to the returned boolean. *)
Definition readNextFrame (buffer : RxFrameBuffer) (d : decoder)
  : bool * RxFrameBuffer * decoder :=
  if request_buffer_has_data d
  then (true, request_buffer d, set_request_buffer_has_data false d)
  else (false, buffer, d).

(** ** ISR RX ring buffers *)

Definition initBuffers (d : decoder) : decoder :=
  let d := set_head_frame_buffer 0 d in
  let d := set_tail_frame_buffer 0 d in
  let d := set_request_buffer_has_data false d in
  set_request_buffer (mkRxFrameBuffer 0 (bytes (request_buffer d))) d.

Definition incrementTailFrameBuffer (d : decoder) : decoder :=
  let t := wrap8 (tail_frame_buffer d + 1) in
  if kMaxFrameBuffers <=? t then set_tail_frame_buffer 0 d
  else set_tail_frame_buffer t d.

Definition incrementHeadFrameBuffer (d : decoder) : decoder :=
  let h := wrap8 (head_frame_buffer d + 1) in
  if kMaxFrameBuffers <=? h then set_head_frame_buffer 0 d
  else set_head_frame_buffer h d.

(** ** Error flag *)

Definition setErrorFlag (d : decoder) : decoder := set_error_flag true d.
Definition hasErrors (d : decoder) : bool := error_flag d.
Definition clearErrors (d : decoder) : decoder := set_error_flag false d.

(** ** ISR utility functions *)

(** The loop of [waitForRxLow]: one pin read and, while the pin is
    still high, one clock read per iteration. *)
Fixpoint waitForRxLow_loop (maxClockTicks base_clock : Z) (tr : trace)
  : result (bool * trace) :=
  match tr with
  | [] => Starved
  | i :: tr1 =>
    if negb (rx_high i) then Ok (true, tr1)
    else
      match tr1 with
      | [] => Starved
      | j :: tr2 =>
        let clock_diff := wrap16 (wrap16 (ticks j) - base_clock) in
        if maxClockTicks <=? clock_diff then Ok (false, tr2)
        else waitForRxLow_loop maxClockTicks base_clock tr2
      end
  end.

Definition waitForRxLow (maxClockTicks : Z) (tr : trace) : result (bool * trace) :=
  let* (base_clock, tr1) := hardware_ticks_mod_16_bit tr in
  waitForRxLow_loop maxClockTicks base_clock tr1.

(** Same with reversed polarity, cloned as in the source. *)
Fixpoint waitForRxHigh_loop (maxClockTicks base_clock : Z) (tr : trace)
  : result (bool * trace) :=
  match tr with
  | [] => Starved
  | i :: tr1 =>
    if rx_high i then Ok (true, tr1)
    else
      match tr1 with
      | [] => Starved
      | j :: tr2 =>
        let clock_diff := wrap16 (wrap16 (ticks j) - base_clock) in
        if maxClockTicks <=? clock_diff then Ok (false, tr2)
        else waitForRxHigh_loop maxClockTicks base_clock tr2
      end
  end.

Definition waitForRxHigh (maxClockTicks : Z) (tr : trace) : result (bool * trace) :=
  let* (base_clock, tr1) := hardware_ticks_mod_16_bit tr in
  waitForRxHigh_loop maxClockTicks base_clock tr1.

Definition maybeServiceRxRequest (d : decoder) : result decoder :=
  if negb (request_buffer_has_data d)
     && negb (tail_frame_buffer d =? head_frame_buffer d)
  then
    match rx_frame_buffers d !! Z.to_nat (tail_frame_buffer d) with
    | None => Undefined
    | Some fb =>
      let d := set_request_buffer fb d in
      let d := incrementTailFrameBuffer d in
      Ok (set_request_buffer_has_data true d)
    end
  else Ok d.

(** ** Detect-break state *)

Definition StateDetectBreak_enter (d : decoder) : decoder :=
  set_low_bits_counter_ 0 (set_state DETECT_BREAK d).

(** ** Read-data state *)

Definition StateReadData_enter (d : decoder) (tr : trace)
  : result (decoder * trace) :=
  let d := set_state READ_DATA d in
  let d := set_bytes_read_ 0 d in
  let d := set_bits_read_in_byte_ 0 d in
  let head := Z.to_nat (head_frame_buffer d) in
  match rx_frame_buffers d !! head with
  | None => Undefined
  | Some fb =>
    let d := set_rx_frame_buffers
               (<[head := mkRxFrameBuffer 0 (bytes fb)]> (rx_frame_buffers d)) d in
    (* the outcome of the wait is not looked at *)
    let* (_, tr') := waitForRxLow 255 tr in
    Ok (d, tr')
  end.

Definition StateDetectBreak_handle_isr (d : decoder) (tr : trace)
  : result (decoder * trace) :=
  let* (is_rx_high, tr) := isRxHigh tr in
  if is_rx_high then Ok (set_low_bits_counter_ 0 d, tr)
  else
    let d := set_low_bits_counter_ (wrap8 (low_bits_counter_ d + 1)) d in
    if low_bits_counter_ d <? 10 then Ok (d, tr)
    else
      (* the outcome of the wait is not looked at *)
      let* (_, tr) := waitForRxHigh 255 tr in
      StateReadData_enter d tr.

Definition StateReadData_handle_isr (d : decoder) (tr : trace)
  : result (decoder * trace) :=
  let* (is_rx_high, tr) := isRxHigh tr in
  if bits_read_in_byte_ d =? 0 then
    if is_rx_high then Ok (StateDetectBreak_enter (setErrorFlag d), tr)
    else
      let d := set_bits_read_in_byte_ (wrap8 (bits_read_in_byte_ d + 1)) d in
      let d := set_byte_buffer_ 0 d in
      let d := set_byte_buffer_bit_mask_ (Z.shiftl 1 0) d in
      Ok (d, tr)
  else if bits_read_in_byte_ d <=? 8 then
    let d := if is_rx_high
             then set_byte_buffer_
                    (Z.lor (byte_buffer_ d) (byte_buffer_bit_mask_ d)) d
             else d in
    let d := set_byte_buffer_bit_mask_
               (wrap8 (Z.shiftl (byte_buffer_bit_mask_ d) 1)) d in
    let d := set_bits_read_in_byte_ (wrap8 (bits_read_in_byte_ d + 1)) d in
    Ok (d, tr)
  else if negb is_rx_high then Ok (StateDetectBreak_enter (setErrorFlag d), tr)
  else
    let head := Z.to_nat (head_frame_buffer d) in
    match rx_frame_buffers d !! head with
    | None => Undefined
    | Some frame_buffer =>
      let n := Z.to_nat (num_bytes frame_buffer) in
      match bytes frame_buffer !! n with
      | None => Undefined
      | Some _ =>
        let frame_buffer :=
          mkRxFrameBuffer (wrap8 (num_bytes frame_buffer + 1))
            (<[n := byte_buffer_ d]> (bytes frame_buffer)) in
        let d := set_rx_frame_buffers
                   (<[head := frame_buffer]> (rx_frame_buffers d)) d in
        let d := set_bytes_read_ (wrap8 (bytes_read_ d + 1)) d in
        let d := set_bits_read_in_byte_ 0 d in
        let* (has_more_bytes, tr) := waitForRxLow (kClockTicksPerBit * 4) tr in
        if negb has_more_bytes then
          if bytes_read_ d <? 4
          then Ok (StateDetectBreak_enter (setErrorFlag d), tr)
          else
            let d := incrementHeadFrameBuffer d in
            let d := if tail_frame_buffer d =? head_frame_buffer d
                     then incrementTailFrameBuffer (setErrorFlag d)
                     else d in
            Ok (StateDetectBreak_enter d, tr)
        else if kMaxBytes <=? num_bytes frame_buffer
        then Ok (StateDetectBreak_enter (setErrorFlag d), tr)
        else Ok (d, tr)
      end
    end.

(** ** ISR handler *)

(** [state] only ever holds one of its two enumerators, so the
    [default:] arm of the switch has no counterpart. *)
Definition handle_isr (d : decoder) (tr : trace) : result (decoder * trace) :=
  match state d with
  | DETECT_BREAK => StateDetectBreak_handle_isr d tr
  | READ_DATA => StateReadData_handle_isr d tr
  end.

Definition ISR (d : decoder) (tr : trace) : result (decoder * trace) :=
  let* (d, tr) := handle_isr d tr in
  let* d := maybeServiceRxRequest d in
  Ok (d, tr).

(** ** Initialization *)

(** [init]: [initLinPins] and [initTimer] only write hardware registers. *)
Definition init (d : decoder) : decoder :=
  clearErrors (StateDetectBreak_enter (initBuffers d)).

(** Static storage is zero initialised before [main] runs. *)
Definition zero_frame : RxFrameBuffer :=
  mkRxFrameBuffer 0 (replicate (Z.to_nat kMaxBytes) 0).

Definition power_on : decoder :=
  mkDecoder false zero_frame (replicate (Z.to_nat kMaxFrameBuffers) zero_frame)
    0 0 DETECT_BREAK 0 0 0 0 0 false.

Definition initial : decoder := init power_on.

(** ** Running the decoder *)

(** [n] consecutive timer interrupts, each reading on from where the
    previous one stopped. *)
Fixpoint ISR_run (n : nat) (d : decoder) (tr : trace) : result (decoder * trace) :=
  match n with
  | O => Ok (d, tr)
  | S n' =>
    let* (d1, tr1) := ISR d tr in
    ISR_run n' d1 tr1
  end.

(** The main program polling for frames: one [readNextFrame] between
    any two interrupts.  The frames it received are collected in order. *)
Fixpoint poll_frames (n : nat) (d : decoder) (tr : trace)
  : result (list RxFrameBuffer * (decoder * trace)) :=
  match n with
  | O => Ok ([], (d, tr))
  | S n' =>
    let '(got, buffer, d1) := readNextFrame zero_frame d in
    let* (d2, tr2) := ISR d1 tr in
    let* (frames, dtr) := poll_frames n' d2 tr2 in
    Ok ((if got then [buffer] else []) ++ frames, dtr)
  end.

(** What the decoder can do between two observations of it: an
    interrupt, or one of the calls open to the main program. *)
Inductive reachable : decoder -> Prop :=
  | reachable_initial : reachable initial
  | reachable_ISR d tr d' tr' :
      reachable d -> ISR d tr = Ok (d', tr') -> reachable d'
  | reachable_readNextFrame d buffer :
      reachable d -> reachable (readNextFrame buffer d).2
  | reachable_clearErrors d :
      reachable d -> reachable (clearErrors d).

(** ** Vocabulary of the properties *)

(** The arrays have their declared sizes and the two ring indices are
    inside the ring. *)
Record wf (d : decoder) : Prop := mkWf {
  wf_slots : length (rx_frame_buffers d) = Z.to_nat kMaxFrameBuffers;
  wf_bytes : Forall (fun fb => length (bytes fb) = Z.to_nat kMaxBytes)
               (rx_frame_buffers d);
  wf_head : 0 <= head_frame_buffer d < kMaxFrameBuffers;
  wf_tail : 0 <= tail_frame_buffer d < kMaxFrameBuffers
}.

(** The slot the read-data state is filling. *)
Definition current_slot (d : decoder) : option RxFrameBuffer :=
  rx_frame_buffers d !! Z.to_nat (head_frame_buffer d).

(** What holds between any two steps: every byte count is within
    [kMaxBytes], and while a frame is being read its slot has room for
    one more byte and [bytes_read_] counts the bytes in it. *)
Record invariant (d : decoder) : Prop := mkInvariant {
  inv_wf : wf d;
  inv_counts : Forall (fun fb => 0 <= num_bytes fb <= kMaxBytes)
                 (rx_frame_buffers d);
  inv_request : 0 <= num_bytes (request_buffer d) <= kMaxBytes;
  inv_reading : state d = READ_DATA ->
                exists fb, current_slot d = Some fb
                           /\ num_bytes fb < kMaxBytes
                           /\ bytes_read_ d = num_bytes fb
}.

(** The successor of a ring index. *)
Definition ring_next (i : Z) : Z :=
  if kMaxFrameBuffers <=? wrap8 (i + 1) then 0 else wrap8 (i + 1).

(** [n] slots of the ring, from index [i] on. *)
Fixpoint ring_slice (slots : list RxFrameBuffer) (i : Z) (n : nat)
  : list RxFrameBuffer :=
  match n with
  | O => []
  | S n' =>
    match slots !! Z.to_nat i with
    | Some fb => fb :: ring_slice slots (ring_next i) n'
    | None => []
    end
  end.

(** The queued frames, oldest first: the slots from [tail] up to, and
    not including, [head]. *)
Definition queued (d : decoder) : list RxFrameBuffer :=
  ring_slice (rx_frame_buffers d) (tail_frame_buffer d)
    (Z.to_nat ((head_frame_buffer d - tail_frame_buffer d) mod kMaxFrameBuffers)).

(** The frames not yet read by the main program, oldest first. *)
Definition unread (d : decoder) : list RxFrameBuffer :=
  (if request_buffer_has_data d then [request_buffer d] else []) ++ queued d.

(** The hand-off attempt has run: frames wait in the ring only while
    the hand-off slot is taken. *)
Definition serviced (d : decoder) : Prop :=
  request_buffer_has_data d = false -> queued d = [].

(** The samples of one byte: start bit, eight data bits least
    significant first, stop bit. *)
Definition byte_samples (b : Z) : list bool :=
  false :: map (fun k => Z.testbit b (Z.of_nat k)) (seq 0 8) ++ [true].

(** A run of ten low samples somewhere in the sequence. *)
Definition has_break (samples : list bool) : Prop :=
  exists before after, samples = before ++ replicate 10 false ++ after.

(** The read-data state is about to sample a stop bit. *)
Definition at_stop_bit (d : decoder) : Prop :=
  state d = READ_DATA /\ 8 < bits_read_in_byte_ d.

(** The five anomalies, each told by the state in which an interrupt
    starts and by what it reads. *)
Inductive anomaly (d : decoder) (tr : trace) : Prop :=
  | start_bit_violation i tr' :
      state d = READ_DATA -> bits_read_in_byte_ d = 0 ->
      tr = i :: tr' -> rx_high i = true -> anomaly d tr
  | stop_bit_violation i tr' :
      at_stop_bit d -> tr = i :: tr' -> rx_high i = false -> anomaly d tr
  | frame_too_short i w tr' :
      at_stop_bit d -> tr = i :: w -> rx_high i = true ->
      waitForRxLow (kClockTicksPerBit * 4) w = Ok (false, tr') ->
      wrap8 (bytes_read_ d + 1) < 4 -> anomaly d tr
  | queue_overrun i w tr' :
      at_stop_bit d -> tr = i :: w -> rx_high i = true ->
      waitForRxLow (kClockTicksPerBit * 4) w = Ok (false, tr') ->
      4 <= wrap8 (bytes_read_ d + 1) ->
      ring_next (head_frame_buffer d) = tail_frame_buffer d -> anomaly d tr
  | capacity_overflow i w tr' fb :
      at_stop_bit d -> tr = i :: w -> rx_high i = true ->
      waitForRxLow (kClockTicksPerBit * 4) w = Ok (true, tr') ->
      current_slot d = Some fb -> kMaxBytes <= wrap8 (num_bytes fb + 1) ->
      anomaly d tr.

(** The hand-off attempt leaves the receiver proper alone. *)
Definition same_receiver (d d' : decoder) : Prop :=
  rx_frame_buffers d' = rx_frame_buffers d
  /\ head_frame_buffer d' = head_frame_buffer d
  /\ state d' = state d
  /\ low_bits_counter_ d' = low_bits_counter_ d
  /\ bytes_read_ d' = bytes_read_ d
  /\ bits_read_in_byte_ d' = bits_read_in_byte_ d
  /\ byte_buffer_ d' = byte_buffer_ d
  /\ byte_buffer_bit_mask_ d' = byte_buffer_bit_mask_ d
  /\ error_flag d' = error_flag d.

(** The stop bit branch of [StateReadData_handle_isr], cut at its wait:
    [store_byte] is what it does to the decoder before waiting for the
    next start bit, [after_wait] what it does with the outcome of the
    wait ([stored] is the byte count of the slot after the store). *)
Definition store_byte (fb : RxFrameBuffer) (d : decoder) : decoder :=
  let frame_buffer :=
    mkRxFrameBuffer (wrap8 (num_bytes fb + 1))
      (<[Z.to_nat (num_bytes fb) := byte_buffer_ d]> (bytes fb)) in
  let d := set_rx_frame_buffers
             (<[Z.to_nat (head_frame_buffer d) := frame_buffer]>
                (rx_frame_buffers d)) d in
  let d := set_bytes_read_ (wrap8 (bytes_read_ d + 1)) d in
  set_bits_read_in_byte_ 0 d.

Definition after_wait (has_more_bytes : bool) (stored : Z) (d : decoder)
  : decoder :=
  if negb has_more_bytes then
    if bytes_read_ d <? 4
    then StateDetectBreak_enter (setErrorFlag d)
    else
      let d := incrementHeadFrameBuffer d in
      let d := if tail_frame_buffer d =? head_frame_buffer d
               then incrementTailFrameBuffer (setErrorFlag d)
               else d in
      StateDetectBreak_enter d
  else if kMaxBytes <=? stored
  then StateDetectBreak_enter (setErrorFlag d)
  else d.

(** The frame in the current slot once the sampled byte is appended. *)
Definition completed_frame (fb : RxFrameBuffer) (d : decoder) : RxFrameBuffer :=
  mkRxFrameBuffer (num_bytes fb + 1)
    (<[Z.to_nat (num_bytes fb) := byte_buffer_ d]> (bytes fb)).

(** The read-data state after the start bit and [k] data bits of [b]. *)
Definition collecting (h : Z) (slots : list RxFrameBuffer) (b k : Z)
  (d : decoder) : Prop :=
  invariant d /\ state d = READ_DATA
  /\ head_frame_buffer d = h /\ rx_frame_buffers d = slots
  /\ bits_read_in_byte_ d = k + 1
  /\ byte_buffer_ d = b mod 2 ^ k
  /\ (k < 8 -> byte_buffer_bit_mask_ d = 2 ^ k).

(** Any number of interrupts and of calls made by the main program. *)
Inductive steps : decoder -> decoder -> Prop :=
  | steps_done d : steps d d
  | steps_ISR d tr d1 tr1 d' :
      ISR d tr = Ok (d1, tr1) -> steps d1 d' -> steps d d'
  | steps_readNextFrame d buffer d' :
      steps (readNextFrame buffer d).2 d' -> steps d d'
  | steps_clearErrors d d' :
      steps (clearErrors d) d' -> steps d d'.

(** A frame long enough to be handed to the main program. *)
Definition long_enough (fb : RxFrameBuffer) : Prop := 4 <= num_bytes fb.

(** Steps during which the main program does not call [clearErrors]. *)
Inductive no_clear_steps : decoder -> decoder -> Prop :=
  | no_clear_done d : no_clear_steps d d
  | no_clear_ISR d tr d1 tr1 d' :
      ISR d tr = Ok (d1, tr1) -> no_clear_steps d1 d' -> no_clear_steps d d'
  | no_clear_readNextFrame d buffer d' :
      no_clear_steps (readNextFrame buffer d).2 d' -> no_clear_steps d d'.

(** Steps during which no other frame completes ([head] stays where
    it is), with the frames that the calls of [readNextFrame] made
    during them returned, in the order of the calls. *)
Inductive returns_meanwhile
  : decoder -> list RxFrameBuffer -> decoder -> Prop :=
  | meanwhile_done d : returns_meanwhile d [] d
  | meanwhile_ISR d tr d1 tr1 out d' :
      ISR d tr = Ok (d1, tr1) ->
      head_frame_buffer d1 = head_frame_buffer d ->
      returns_meanwhile d1 out d' -> returns_meanwhile d out d'
  | meanwhile_readNextFrame d buffer out d' :
      returns_meanwhile (readNextFrame buffer d).2 out d' ->
      returns_meanwhile d
        ((if (readNextFrame buffer d).1.1
          then [(readNextFrame buffer d).1.2] else []) ++ out) d'
  | meanwhile_clearErrors d out d' :
      returns_meanwhile (clearErrors d) out d' -> returns_meanwhile d out d'.

(** The reading of "the caller branches on the outcome" for the wait
    for the line release after a break: two interrupts that detect a
    break in the same state, and whose waits for the high level leave
    the same trace behind but differ in outcome, end differently. *)
Definition post_break_outcome_branched_on : Prop :=
  forall d i wA wB rest rA rB,
    state d = DETECT_BREAK -> rx_high i = false ->
    10 <= wrap8 (low_bits_counter_ d + 1) ->
    waitForRxHigh 255 wA = Ok (true, rest) ->
    waitForRxHigh 255 wB = Ok (false, rest) ->
    ISR d (i :: wA) = Ok rA -> ISR d (i :: wB) = Ok rB ->
    rA <> rB.

(** ** Example traces and states *)

Definition low_sample : instant := mkInstant false 0.
Definition high_sample : instant := mkInstant true 0.
Definition clock_read (t : Z) : instant := mkInstant true t.

(** The instants read while a byte is sampled, the clock being of no
    interest there. *)
Definition byte_trace (b : Z) : trace :=
  map (fun level => mkInstant level 0) (byte_samples b).

(** A break: ten low samples, the line released at once (first wait),
    then the first start bit at once (second wait). *)
Definition break_trace : trace :=
  replicate 10 low_sample
  ++ [clock_read 0; high_sample] ++ [clock_read 0; low_sample].

(** After a byte: the next start bit at once, or no start bit, the
    clock showing 200 elapsed ticks at its first read. *)
Definition next_byte_trace : trace := [clock_read 0; low_sample].
Definition end_of_frame_trace : trace :=
  [clock_read 0; high_sample; clock_read 200].

(** The instants read while the frame made of the bytes [bs] is
    received, break included. *)
Fixpoint bytes_trace (bs : list Z) : trace :=
  match bs with
  | [] => []
  | [b] => byte_trace b ++ end_of_frame_trace
  | b :: bs' => byte_trace b ++ next_byte_trace ++ bytes_trace bs'
  end.

Definition frame_trace (bs : list Z) : trace := break_trace ++ bytes_trace bs.

(** The decoder after [n] interrupts from [initial] along [tr]. *)
Definition state_after (n : nat) (tr : trace) : decoder :=
  match ISR_run n initial tr with
  | Ok (d, _) => d
  | _ => initial
  end.

(** Eight frames in a row, never read, the frame starting with byte
    [k] being [k; k + 1; k + 2; k + 3]; then the decoder about to sample
    the last stop bit of a ninth. *)
Definition example_frame (k : Z) : RxFrameBuffer :=
  mkRxFrameBuffer 4 [k; k + 1; k + 2; k + 3; 0; 0; 0; 0; 0; 0; 0].

Definition eight_frames_trace : trace :=
  concat (map (fun k => frame_trace [k; k + 1; k + 2; k + 3])
            [10; 20; 30; 40; 50; 60; 70; 80]).

Definition ninth_frame_pending : decoder :=
  state_after 449 (eight_frames_trace ++ frame_trace [90; 91; 92; 93]).

(** A second frame about to complete while the first is still unread. *)
Definition second_frame_pending : decoder :=
  state_after 99 (frame_trace [1; 2; 3; 4] ++ frame_trace [5; 6; 7; 8]).

(** ** Vocabulary of the further properties *)

(** The same instants with the level of the line inverted. *)
Definition invert_line (tr : trace) : trace :=
  map (fun i => mkInstant (negb (rx_high i)) (ticks i)) tr.

(** The instants [waitForRxLow] reads after its first clock read, and
    the outcome they lead to: pin and clock reads alternate, the pin
    read high and the clock short of [maxClockTicks] ticks after
    [base_clock], until the pin is read low (true) or the clock shows
    the timeout (false). *)
Inductive waited_for_low (maxClockTicks base_clock : Z)
  : trace -> bool -> Prop :=
  | waited_seen_low i :
      rx_high i = false ->
      waited_for_low maxClockTicks base_clock [i] true
  | waited_timed_out i j :
      rx_high i = true ->
      maxClockTicks <= wrap16 (wrap16 (ticks j) - base_clock) ->
      waited_for_low maxClockTicks base_clock [i; j] false
  | waited_on i j used r :
      rx_high i = true ->
      wrap16 (wrap16 (ticks j) - base_clock) < maxClockTicks ->
      waited_for_low maxClockTicks base_clock used r ->
      waited_for_low maxClockTicks base_clock (i :: j :: used) r.

(** The line staying high while the clock, started at [t0], is read
    after [e] elapsed ticks for each [e] of [elapsed]. *)
Definition high_polls (t0 : Z) (elapsed : list Z) : trace :=
  flat_map (fun e => [high_sample; clock_read (t0 + e)]) elapsed.

(** What the interrupt that samples a high stop bit leaves behind, by
    the outcome [r] of its wait for the next start bit; [fb] is the
    current slot before the interrupt, [d] and [d'] the decoder before
    and after it. *)
Definition stop_bit_outcome (r : bool) (fb : RxFrameBuffer) (d d' : decoder)
  : Prop :=
  if r then
    if kMaxBytes <=? num_bytes fb + 1 then
      state d' = DETECT_BREAK /\ low_bits_counter_ d' = 0
      /\ error_flag d' = true
      /\ head_frame_buffer d' = head_frame_buffer d
      /\ unread d' = unread d
    else
      state d' = READ_DATA /\ bits_read_in_byte_ d' = 0
      /\ error_flag d' = error_flag d
      /\ head_frame_buffer d' = head_frame_buffer d
      /\ unread d' = unread d
  else
    state d' = DETECT_BREAK /\ low_bits_counter_ d' = 0
    /\ if num_bytes fb + 1 <? 4 then
         error_flag d' = true
         /\ head_frame_buffer d' = head_frame_buffer d
         /\ unread d' = unread d
       else
         head_frame_buffer d' = ring_next (head_frame_buffer d)
         /\ if tail_frame_buffer d =? ring_next (head_frame_buffer d) then
              error_flag d' = true
              /\ unread d'
                 = (if request_buffer_has_data d then [request_buffer d] else [])
                   ++ tail (queued d) ++ [completed_frame fb d]
            else
              error_flag d' = error_flag d
              /\ unread d' = unread d ++ [completed_frame fb d].

(** The slot [fb] once the bytes [bs] are appended behind those it
    holds. *)
Definition frame_with (fb : RxFrameBuffer) (bs : list Z) : RxFrameBuffer :=
  mkRxFrameBuffer (num_bytes fb + Z.of_nat (length bs))
    (take (Z.to_nat (num_bytes fb)) (bytes fb) ++ bs
     ++ drop (Z.to_nat (num_bytes fb) + length bs) (bytes fb)).

(** The instants read by a wait for the line to fall that lasts at
    most [maxClockTicks] ticks and ends with the outcome [r]: the clock
    read that starts the wait, then the reads described by
    [waited_for_low]. *)
Definition wait_for_low_reads (maxClockTicks : Z) (w : trace) (r : bool)
  : Prop :=
  exists b0 used,
    w = b0 :: used
    /\ waited_for_low maxClockTicks (wrap16 (ticks b0)) used r.

(** Same for a wait for the line to rise: its reads are those of a
    wait for the line to fall with the levels the other way round. *)
Definition wait_for_high_reads (maxClockTicks : Z) (w : trace) (r : bool)
  : Prop :=
  exists b0 used,
    w = b0 :: used
    /\ waited_for_low maxClockTicks (wrap16 (ticks b0)) (invert_line used) r.

(** The instants read while a break is detected from a low-sample
    counter at [c]: the low samples that bring the counter to ten, then
    the reads of the wait for the line to rise and those of the wait for
    the first start bit, whatever the outcomes of the two waits. *)
Definition break_received (c : nat) (tr : trace) : Prop :=
  exists lows w1 w2 r1 r2,
    tr = lows ++ w1 ++ w2
    /\ length lows = (10 - c)%nat
    /\ Forall (fun i => rx_high i = false) lows
    /\ wait_for_high_reads 255 w1 r1
    /\ wait_for_low_reads 255 w2 r2.

(** The instants read while the byte [b] is received: ten samples with
    the levels of [byte_samples b], whatever the clock shows, then the
    reads of the wait for a further start bit, which ends with the
    outcome [more]. *)
Definition byte_received (b : Z) (more : bool) (tr : trace) : Prop :=
  exists smp w,
    tr = smp ++ w
    /\ map rx_high smp = byte_samples b
    /\ wait_for_low_reads (kClockTicksPerBit * 4) w more.

(** The instants read while the bytes [bs] are received one after the
    other: a further start bit is seen after each of them but the last,
    and the wait after the last ends with the outcome [more]. *)
Inductive bytes_received (more : bool) : list Z -> trace -> Prop :=
  | received_last b tr :
      byte_received b more tr -> bytes_received more [b] tr
  | received_further b bs tr1 tr :
      byte_received b true tr1 -> bytes_received more bs tr ->
      bytes_received more (b :: bs) (tr1 ++ tr).

(** A byte sampled while the clock runs, its next start bit seen at the
    second poll of the wait; and the end of a frame, the wait started
    just before the clock overflows and given up at its third read. *)
Definition late_start_byte_trace (b : Z) : trace :=
  map (fun level => mkInstant level 7) (byte_samples b)
  ++ [clock_read 100; high_sample; clock_read 150; low_sample].

Definition late_timeout_trace : trace :=
  [clock_read 65500; high_sample; clock_read 65530; high_sample; clock_read 70].

(** A break that lasts: ten low samples, the line still low at the
    first two polls of the wait for it to rise and high at the third,
    then the first start bit at the second poll of the wait for it. *)
Definition long_break_rise_trace : trace :=
  [clock_read 0; low_sample; clock_read 50; low_sample; clock_read 100;
   high_sample].

Definition long_break_fall_trace : trace :=
  [clock_read 120; high_sample; clock_read 130; low_sample].

Definition long_break_trace : trace :=
  replicate 10 low_sample ++ long_break_rise_trace ++ long_break_fall_trace.

(** A byte value. *)
Definition is_byte (b : Z) : Prop := 0 <= b < 256.

(** The counters of the two states within the values the state
    machine gives them: none of their increments wraps around. *)
Record counters_in_range (d : decoder) : Prop := mkCountersInRange {
  low_bits_range : 0 <= low_bits_counter_ d <= 10;
  low_bits_detecting : state d = DETECT_BREAK -> low_bits_counter_ d <= 9;
  bits_read_range : 0 <= bits_read_in_byte_ d <= 9;
  bytes_read_range : 0 <= bytes_read_ d <= kMaxBytes
}.

(** * Properties *)

(** ** Ring indices *)

Lemma ring_next_spec i :
  0 <= i < kMaxFrameBuffers -> ring_next i = (i + 1) mod kMaxFrameBuffers.
Proof.
  unfold ring_next, wrap8, kMaxFrameBuffers. intros Hi.
  assert (Hc : i = 0 \/ i = 1 \/ i = 2 \/ i = 3 \/ i = 4 \/ i = 5 \/ i = 6 \/ i = 7)
    by lia.
  decompose [or] Hc; subst i; reflexivity.
Qed.

Lemma ring_next_range i :
  0 <= i < kMaxFrameBuffers -> 0 <= ring_next i < kMaxFrameBuffers.
Proof.
  intros Hi. rewrite ring_next_spec by assumption.
  apply Z.mod_pos_bound. reflexivity.
Qed.

Lemma incrementTailFrameBuffer_eq d :
  incrementTailFrameBuffer d
  = set_tail_frame_buffer (ring_next (tail_frame_buffer d)) d.
Proof.
  unfold incrementTailFrameBuffer, ring_next.
  destruct (kMaxFrameBuffers <=? wrap8 (tail_frame_buffer d + 1)); reflexivity.
Qed.

Lemma incrementHeadFrameBuffer_eq d :
  incrementHeadFrameBuffer d
  = set_head_frame_buffer (ring_next (head_frame_buffer d)) d.
Proof.
  unfold incrementHeadFrameBuffer, ring_next.
  destruct (kMaxFrameBuffers <=? wrap8 (head_frame_buffer d + 1)); reflexivity.
Qed.

Lemma wf_lookup_slot d i :
  wf d -> 0 <= i < kMaxFrameBuffers ->
  exists fb, rx_frame_buffers d !! Z.to_nat i = Some fb
             /\ length (bytes fb) = Z.to_nat kMaxBytes.
Proof.
  intros [Hlen Hbytes _ _] Hi.
  destruct (lookup_lt_is_Some_2 (rx_frame_buffers d) (Z.to_nat i)) as [fb Hfb].
  { rewrite Hlen. unfold kMaxFrameBuffers in *. lia. }
  exists fb. split; [assumption|].
  rewrite Forall_lookup in Hbytes. exact (Hbytes _ _ Hfb).
Qed.

(** ** The hand-off attempt *)

Lemma maybeServiceRxRequest_idle d :
  request_buffer_has_data d = true \/ tail_frame_buffer d = head_frame_buffer d ->
  maybeServiceRxRequest d = Ok d.
Proof.
  unfold maybeServiceRxRequest. intros [H | H]; rewrite H; simpl.
  - reflexivity.
  - rewrite Z.eqb_refl, andb_false_r. reflexivity.
Qed.

Lemma maybeServiceRxRequest_move d :
  wf d ->
  request_buffer_has_data d = false ->
  tail_frame_buffer d <> head_frame_buffer d ->
  exists fb,
    rx_frame_buffers d !! Z.to_nat (tail_frame_buffer d) = Some fb
    /\ maybeServiceRxRequest d
       = Ok (set_request_buffer_has_data true
               (set_tail_frame_buffer (ring_next (tail_frame_buffer d))
                  (set_request_buffer fb d))).
Proof.
  intros Hwf Hd Hne.
  destruct (wf_lookup_slot d (tail_frame_buffer d) Hwf (wf_tail d Hwf))
    as (fb & Hfb & _).
  exists fb. split; [assumption|].
  unfold maybeServiceRxRequest. rewrite Hd.
  destruct (Z.eqb_spec (tail_frame_buffer d) (head_frame_buffer d)); [contradiction|].
  simpl. rewrite Hfb, incrementTailFrameBuffer_eq. reflexivity.
Qed.

Lemma maybeServiceRxRequest_total d :
  wf d ->
  exists d', maybeServiceRxRequest d = Ok d' /\ same_receiver d d' /\ wf d'
             /\ (request_buffer_has_data d' = false ->
                 tail_frame_buffer d' = head_frame_buffer d').
Proof.
  intros Hwf.
  destruct (request_buffer_has_data d) eqn:Hd.
  - exists d. rewrite maybeServiceRxRequest_idle by auto.
    unfold same_receiver. intuition congruence.
  - destruct (Z.eq_dec (tail_frame_buffer d) (head_frame_buffer d)) as [He | Hne].
    + exists d. rewrite maybeServiceRxRequest_idle by auto.
      unfold same_receiver. intuition congruence.
    + destruct (maybeServiceRxRequest_move d Hwf Hd Hne) as (fb & Hfb & ->).
      eexists. split; [reflexivity|]. unfold same_receiver; simpl.
      split; [intuition reflexivity|]. split; [|discriminate].
      destruct Hwf. constructor; simpl; try assumption.
      apply ring_next_range. assumption.
Qed.

(** ** The busy waits *)

Lemma waitForRxLow_loop_defined m base tr :
  waitForRxLow_loop m base tr <> Undefined.
Proof.
  revert tr. fix IH 1. intros [|i [|j tr]]; simpl; try discriminate.
  - destruct (rx_high i); discriminate.
  - destruct (rx_high i); simpl; [|discriminate].
    destruct (m <=? _); [discriminate | apply IH].
Qed.

Lemma waitForRxHigh_loop_defined m base tr :
  waitForRxHigh_loop m base tr <> Undefined.
Proof.
  revert tr. fix IH 1. intros [|i [|j tr]]; simpl; try discriminate.
  - destruct (rx_high i); discriminate.
  - destruct (rx_high i); simpl; [discriminate|].
    destruct (m <=? _); [discriminate | apply IH].
Qed.

Lemma waitForRxLow_defined m tr : waitForRxLow m tr <> Undefined.
Proof.
  unfold waitForRxLow. destruct tr; simpl; [discriminate|].
  apply waitForRxLow_loop_defined.
Qed.

Lemma waitForRxHigh_defined m tr : waitForRxHigh m tr <> Undefined.
Proof.
  unfold waitForRxHigh. destruct tr; simpl; [discriminate|].
  apply waitForRxHigh_loop_defined.
Qed.

(** Either wait returns once a clock read shows [maxClockTicks] elapsed
    ticks: at the latest with the [k]-th clock read of the loop when
    that read does. *)
Lemma waitForRxLow_loop_bounded m base k : forall (tr : trace) j,
  tr !! (2 * k + 1)%nat = Some j ->
  m <= wrap16 (wrap16 (ticks j) - base) ->
  exists r tr', waitForRxLow_loop m base tr = Ok (r, tr')
                /\ (length tr <= length tr' + (2 * k + 2))%nat.
Proof.
  induction k as [|k IH]; intros [|i [|j' tr2]] j Hj Hm; try discriminate.
  - simpl in Hj. injection Hj as ->. simpl.
    destruct (rx_high i); simpl.
    + destruct (Z.leb_spec m (wrap16 (wrap16 (ticks j) - base))); [|lia].
      eexists _, _. split; [reflexivity | lia].
    + eexists _, _. split; [reflexivity | simpl; lia].
  - replace (2 * S k + 1)%nat with (S (S (2 * k + 1))) in Hj by lia.
    simpl in Hj. simpl waitForRxLow_loop.
    destruct (rx_high i); simpl negb; cbv iota.
    + destruct (m <=? wrap16 (wrap16 (ticks j') - base)).
      * eexists _, _. split; [reflexivity | simpl; lia].
      * destruct (IH tr2 j Hj Hm) as (r & tr' & -> & Hlen).
        eexists _, _. split; [reflexivity | simpl; lia].
    + eexists _, _. split; [reflexivity | simpl; lia].
Qed.

Lemma waitForRxHigh_loop_bounded m base k : forall (tr : trace) j,
  tr !! (2 * k + 1)%nat = Some j ->
  m <= wrap16 (wrap16 (ticks j) - base) ->
  exists r tr', waitForRxHigh_loop m base tr = Ok (r, tr')
                /\ (length tr <= length tr' + (2 * k + 2))%nat.
Proof.
  induction k as [|k IH]; intros [|i [|j' tr2]] j Hj Hm; try discriminate.
  - simpl in Hj. injection Hj as ->. simpl.
    destruct (rx_high i); simpl.
    + eexists _, _. split; [reflexivity | simpl; lia].
    + destruct (Z.leb_spec m (wrap16 (wrap16 (ticks j) - base))); [|lia].
      eexists _, _. split; [reflexivity | lia].
  - replace (2 * S k + 1)%nat with (S (S (2 * k + 1))) in Hj by lia.
    simpl in Hj. simpl waitForRxHigh_loop.
    destruct (rx_high i); cbv iota.
    + eexists _, _. split; [reflexivity | simpl; lia].
    + destruct (m <=? wrap16 (wrap16 (ticks j') - base)).
      * eexists _, _. split; [reflexivity | simpl; lia].
      * destruct (IH tr2 j Hj Hm) as (r & tr' & -> & Hlen).
        eexists _, _. split; [reflexivity | simpl; lia].
Qed.

(** ** The branches of the read-data state *)

Ltac fields :=
  cbn [request_buffer_has_data request_buffer rx_frame_buffers
       head_frame_buffer tail_frame_buffer state low_bits_counter_
       bytes_read_ bits_read_in_byte_ byte_buffer_ byte_buffer_bit_mask_
       error_flag set_request_buffer_has_data set_request_buffer
       set_rx_frame_buffers set_head_frame_buffer set_tail_frame_buffer
       set_state set_low_bits_counter_ set_bytes_read_
       set_bits_read_in_byte_ set_byte_buffer_ set_byte_buffer_bit_mask_
       set_error_flag setErrorFlag clearErrors StateDetectBreak_enter
       num_bytes bytes] in *.

Lemma read_start_bit_high d i tr :
  bits_read_in_byte_ d = 0 -> rx_high i = true ->
  StateReadData_handle_isr d (i :: tr)
  = Ok (StateDetectBreak_enter (setErrorFlag d), tr).
Proof.
  intros Hb Hi. unfold StateReadData_handle_isr. simpl. rewrite Hb, Hi.
  reflexivity.
Qed.

Lemma read_start_bit_low d i tr :
  bits_read_in_byte_ d = 0 -> rx_high i = false ->
  StateReadData_handle_isr d (i :: tr)
  = Ok (set_byte_buffer_bit_mask_ 1
          (set_byte_buffer_ 0 (set_bits_read_in_byte_ 1 d)), tr).
Proof.
  intros Hb Hi. unfold StateReadData_handle_isr. simpl. rewrite Hb, Hi.
  reflexivity.
Qed.

Lemma read_data_bit d i tr :
  bits_read_in_byte_ d <> 0 -> bits_read_in_byte_ d <= 8 ->
  StateReadData_handle_isr d (i :: tr)
  = Ok (set_bits_read_in_byte_ (wrap8 (bits_read_in_byte_ d + 1))
          (set_byte_buffer_bit_mask_
             (wrap8 (Z.shiftl (byte_buffer_bit_mask_ d) 1))
             (if rx_high i
              then set_byte_buffer_
                     (Z.lor (byte_buffer_ d) (byte_buffer_bit_mask_ d)) d
              else d)), tr).
Proof.
  intros Hb0 Hb. unfold StateReadData_handle_isr. cbn [isRxHigh bind].
  destruct (Z.eqb_spec (bits_read_in_byte_ d) 0); [lia|].
  destruct (Z.leb_spec (bits_read_in_byte_ d) 8); [|lia].
  destruct (rx_high i); reflexivity.
Qed.

Lemma read_stop_bit_low d i tr :
  8 < bits_read_in_byte_ d -> rx_high i = false ->
  StateReadData_handle_isr d (i :: tr)
  = Ok (StateDetectBreak_enter (setErrorFlag d), tr).
Proof.
  intros Hb Hi. unfold StateReadData_handle_isr. cbn [isRxHigh bind].
  destruct (Z.eqb_spec (bits_read_in_byte_ d) 0); [lia|].
  destruct (Z.leb_spec (bits_read_in_byte_ d) 8); [lia|].
  rewrite Hi. reflexivity.
Qed.

Lemma read_stop_bit_high d i w fb x :
  8 < bits_read_in_byte_ d -> rx_high i = true ->
  current_slot d = Some fb ->
  bytes fb !! Z.to_nat (num_bytes fb) = Some x ->
  StateReadData_handle_isr d (i :: w)
  = let* (has_more_bytes, tr) := waitForRxLow (kClockTicksPerBit * 4) w in
    Ok (after_wait has_more_bytes (wrap8 (num_bytes fb + 1)) (store_byte fb d),
        tr).
Proof.
  intros Hb Hi Hfb Hx. unfold StateReadData_handle_isr. cbn [isRxHigh bind].
  destruct (Z.eqb_spec (bits_read_in_byte_ d) 0); [lia|].
  destruct (Z.leb_spec (bits_read_in_byte_ d) 8); [lia|].
  rewrite Hi. cbn [negb]. unfold current_slot in Hfb. rewrite Hfb, Hx.
  destruct (waitForRxLow (kClockTicksPerBit * 4) w) as [[r tr]| |]; try reflexivity.
  cbn [bind]. unfold after_wait, store_byte. fields.
  destruct r; cbn [negb].
  - destruct (kMaxBytes <=? wrap8 (num_bytes fb + 1)); reflexivity.
  - destruct (wrap8 (bytes_read_ d + 1) <? 4); reflexivity.
Qed.

Lemma read_stop_bit_outside d i w :
  8 < bits_read_in_byte_ d -> rx_high i = true ->
  (current_slot d = None
   \/ exists fb, current_slot d = Some fb
                 /\ bytes fb !! Z.to_nat (num_bytes fb) = None) ->
  StateReadData_handle_isr d (i :: w) = Undefined.
Proof.
  intros Hb Hi Hfb. unfold StateReadData_handle_isr. cbn [isRxHigh bind].
  destruct (Z.eqb_spec (bits_read_in_byte_ d) 0); [lia|].
  destruct (Z.leb_spec (bits_read_in_byte_ d) 8); [lia|].
  rewrite Hi. cbn [negb]. unfold current_slot in Hfb.
  destruct Hfb as [-> | (fb & -> & ->)]; reflexivity.
Qed.

(** ** The invariant *)

Lemma invariant_slot d fb :
  invariant d -> current_slot d = Some fb ->
  0 <= num_bytes fb <= kMaxBytes
  /\ length (bytes fb) = Z.to_nat kMaxBytes.
Proof.
  intros [[_ Hbytes _ _] Hcounts _ _] Hfb. unfold current_slot in Hfb.
  rewrite Forall_lookup in Hbytes, Hcounts.
  split; [exact (Hcounts _ _ Hfb) | exact (Hbytes _ _ Hfb)].
Qed.

(** A step that keeps the ring, its indices and the hand-off slot, and
    that does not start reading a frame, keeps the invariant. *)
Lemma invariant_kept d d' :
  invariant d ->
  rx_frame_buffers d' = rx_frame_buffers d ->
  head_frame_buffer d' = head_frame_buffer d ->
  tail_frame_buffer d' = tail_frame_buffer d ->
  request_buffer d' = request_buffer d ->
  (state d' = READ_DATA ->
   state d = READ_DATA /\ bytes_read_ d' = bytes_read_ d) ->
  invariant d'.
Proof.
  intros [[Hlen Hbytes Hh Ht] Hcounts Hreq Hrd] Hs Hh' Ht' Hr' Hst.
  constructor; [constructor|..]; unfold current_slot in *;
    rewrite ?Hs, ?Hh', ?Ht', ?Hr'; try assumption.
  intros Hst'. destruct (Hst Hst') as [Hst0 ->]. exact (Hrd Hst0).
Qed.

Lemma maybeServiceRxRequest_invariant d :
  invariant d ->
  exists d', maybeServiceRxRequest d = Ok d' /\ invariant d'.
Proof.
  intros Hinv. pose proof (inv_wf d Hinv) as Hwf.
  destruct (request_buffer_has_data d) eqn:Hd.
  { exists d. rewrite maybeServiceRxRequest_idle by auto. auto. }
  destruct (Z.eq_dec (tail_frame_buffer d) (head_frame_buffer d)) as [He | Hne].
  { exists d. rewrite maybeServiceRxRequest_idle by auto. auto. }
  destruct (maybeServiceRxRequest_move d Hwf Hd Hne) as (fb & Hfb & ->).
  eexists. split; [reflexivity|].
  destruct Hinv as [_ Hcounts Hreq Hrd]. destruct Hwf as [Hlen Hbytes Hh Ht].
  constructor; [constructor|..]; unfold current_slot in *; fields;
    try assumption.
  - apply ring_next_range. assumption.
  - rewrite Forall_lookup in Hcounts. exact (Hcounts _ _ Hfb).
Qed.

Lemma StateReadData_enter_spec d tr :
  wf d ->
  exists fb,
    current_slot d = Some fb
    /\ StateReadData_enter d tr
       = let* (_, tr') := waitForRxLow 255 tr in
         Ok (set_rx_frame_buffers
               (<[Z.to_nat (head_frame_buffer d) := mkRxFrameBuffer 0 (bytes fb)]>
                  (rx_frame_buffers d))
               (set_bits_read_in_byte_ 0
                  (set_bytes_read_ 0 (set_state READ_DATA d))), tr').
Proof.
  intros Hwf.
  destruct (wf_lookup_slot d (head_frame_buffer d) Hwf (wf_head d Hwf))
    as (fb & Hfb & _).
  exists fb. split; [exact Hfb|].
  unfold StateReadData_enter. fields. rewrite Hfb. reflexivity.
Qed.

Lemma StateReadData_enter_invariant d tr d' tr' :
  invariant d -> StateReadData_enter d tr = Ok (d', tr') -> invariant d'.
Proof.
  intros Hinv Hrun.
  destruct (StateReadData_enter_spec d tr (inv_wf d Hinv)) as (fb & Hfb & Heq).
  rewrite Heq in Hrun. clear Heq.
  destruct (waitForRxLow 255 tr) as [[r t]| |]; try discriminate.
  cbn [bind] in Hrun. injection Hrun as <- <-.
  destruct (invariant_slot d fb Hinv Hfb) as [_ Hlenb].
  destruct Hinv as [[Hlen Hbytes Hh Ht] Hcounts Hreq Hrd].
  unfold current_slot in *.
  constructor; [constructor|..]; unfold current_slot; fields; try assumption.
  - rewrite length_insert. assumption.
  - apply Forall_insert; assumption.
  - apply Forall_insert; [assumption|]. fields. unfold kMaxBytes. lia.
  - intros _. eexists. split.
    + apply list_lookup_insert_eq. rewrite Hlen.
      unfold kMaxFrameBuffers in *. lia.
    + fields. unfold kMaxBytes. split; [lia | reflexivity].
Qed.

Lemma StateDetectBreak_handle_isr_invariant d tr d' tr' :
  invariant d -> state d = DETECT_BREAK ->
  StateDetectBreak_handle_isr d tr = Ok (d', tr') -> invariant d'.
Proof.
  intros Hinv Hst Hrun. unfold StateDetectBreak_handle_isr in Hrun.
  destruct tr as [|i w]; [discriminate|]. cbn [isRxHigh bind] in Hrun.
  destruct (rx_high i).
  - injection Hrun as <- <-.
    apply (invariant_kept d); auto; fields; congruence.
  - fields.
    assert (Hinv1 : invariant
      (set_low_bits_counter_ (wrap8 (low_bits_counter_ d + 1)) d)).
    { apply (invariant_kept d); auto; fields; congruence. }
    destruct (wrap8 (low_bits_counter_ d + 1) <? 10).
    + injection Hrun as <- <-. exact Hinv1.
    + destruct (waitForRxHigh 255 w) as [[r t]| |]; try discriminate.
      cbn [bind] in Hrun.
      exact (StateReadData_enter_invariant _ _ _ _ Hinv1 Hrun).
Qed.

Lemma wrap8_succ_small n : 0 <= n < 255 -> wrap8 (n + 1) = n + 1.
Proof. intros Hn. unfold wrap8. apply Z.mod_small. lia. Qed.

Lemma after_wait_invariant r d fb :
  invariant d -> state d = READ_DATA -> current_slot d = Some fb ->
  invariant (after_wait r (wrap8 (num_bytes fb + 1)) (store_byte fb d)).
Proof.
  intros Hinv Hst Hfb.
  destruct (invariant_slot d fb Hinv Hfb) as [Hn Hlenb].
  destruct Hinv as [[Hlen Hbytes Hh Ht] Hcounts Hreq Hrd].
  destruct (Hrd Hst) as (fb' & Hfb' & Hroom & Hread).
  rewrite Hfb in Hfb'. injection Hfb' as <-.
  unfold kMaxBytes in *.
  rewrite (wrap8_succ_small (num_bytes fb)) by lia.
  assert (Hslots : length (<[Z.to_nat (head_frame_buffer d) :=
            mkRxFrameBuffer (wrap8 (num_bytes fb + 1))
              (<[Z.to_nat (num_bytes fb) := byte_buffer_ d]> (bytes fb))]>
            (rx_frame_buffers d)) = Z.to_nat kMaxFrameBuffers)
    by (rewrite length_insert; assumption).
  assert (Hb' : Forall (fun fb => length (bytes fb) = Z.to_nat 11)
            (<[Z.to_nat (head_frame_buffer d) :=
            mkRxFrameBuffer (wrap8 (num_bytes fb + 1))
              (<[Z.to_nat (num_bytes fb) := byte_buffer_ d]> (bytes fb))]>
            (rx_frame_buffers d))).
  { apply Forall_insert; [assumption|]. fields. rewrite length_insert.
    assumption. }
  assert (Hc' : Forall (fun fb => 0 <= num_bytes fb <= 11)
            (<[Z.to_nat (head_frame_buffer d) :=
            mkRxFrameBuffer (wrap8 (num_bytes fb + 1))
              (<[Z.to_nat (num_bytes fb) := byte_buffer_ d]> (bytes fb))]>
            (rx_frame_buffers d))).
  { apply Forall_insert; [assumption|]. fields.
    rewrite wrap8_succ_small by lia. lia. }
  pose proof (ring_next_range _ Hh) as Hh'.
  pose proof (ring_next_range _ Ht) as Ht'.
  unfold after_wait, store_byte, kMaxBytes. fields.
  rewrite incrementHeadFrameBuffer_eq. fields.
  destruct r; cbn [negb].
  - destruct (Z.leb_spec 11 (num_bytes fb + 1)).
    + constructor; [constructor|..]; fields; try assumption. discriminate.
    + constructor; [constructor|..]; fields; try assumption.
      intros _. unfold current_slot. fields. eexists. split.
      * apply list_lookup_insert_eq. rewrite Hlen.
        unfold kMaxFrameBuffers in *. lia.
      * fields. rewrite Hread, !wrap8_succ_small by lia.
        unfold kMaxBytes. split; [lia | reflexivity].
  - destruct (wrap8 (bytes_read_ d + 1) <? 4).
    + constructor; [constructor|..]; fields; try assumption. discriminate.
    + destruct (tail_frame_buffer d =? ring_next (head_frame_buffer d));
        rewrite ?incrementTailFrameBuffer_eq;
        (constructor; [constructor|..]; fields; try assumption;
         discriminate).
Qed.

Lemma invariant_next_byte d fb :
  invariant d -> state d = READ_DATA -> current_slot d = Some fb ->
  exists x, bytes fb !! Z.to_nat (num_bytes fb) = Some x.
Proof.
  intros Hinv Hst Hfb.
  destruct (invariant_slot d fb Hinv Hfb) as [Hn Hlenb].
  destruct (inv_reading d Hinv Hst) as (fb' & Hfb' & Hroom & _).
  rewrite Hfb in Hfb'. injection Hfb' as <-.
  apply lookup_lt_is_Some_2. rewrite Hlenb. unfold kMaxBytes in *. lia.
Qed.

Lemma StateReadData_handle_isr_invariant d tr d' tr' :
  invariant d -> state d = READ_DATA ->
  StateReadData_handle_isr d tr = Ok (d', tr') -> invariant d'.
Proof.
  intros Hinv Hst Hrun. destruct tr as [|i w]; [discriminate|].
  destruct (Z.eq_dec (bits_read_in_byte_ d) 0) as [Hb0 | Hb0].
  { destruct (rx_high i) eqn:Hi.
    - rewrite read_start_bit_high in Hrun by assumption.
      injection Hrun as <- <-. apply (invariant_kept d); auto; discriminate.
    - rewrite read_start_bit_low in Hrun by assumption.
      injection Hrun as <- <-. apply (invariant_kept d); auto. }
  destruct (Z_le_gt_dec (bits_read_in_byte_ d) 8) as [Hb8 | Hb8].
  { rewrite read_data_bit in Hrun by assumption.
    injection Hrun as <- <-.
    apply (invariant_kept d); auto; destruct (rx_high i); fields; auto. }
  destruct (rx_high i) eqn:Hi.
  - destruct (inv_reading d Hinv Hst) as (fb & Hfb & _).
    destruct (invariant_next_byte d fb Hinv Hst Hfb) as [x Hx].
    rewrite (read_stop_bit_high d i w fb x) in Hrun by (assumption || lia).
    destruct (waitForRxLow (kClockTicksPerBit * 4) w) as [[r t]| |];
      try discriminate.
    cbn [bind] in Hrun. injection Hrun as <- <-.
    apply after_wait_invariant; assumption.
  - rewrite read_stop_bit_low in Hrun by (assumption || lia).
    injection Hrun as <- <-. apply (invariant_kept d); auto; discriminate.
Qed.

Lemma handle_isr_invariant d tr d' tr' :
  invariant d -> handle_isr d tr = Ok (d', tr') -> invariant d'.
Proof.
  intros Hinv. unfold handle_isr. destruct (state d) eqn:Hst.
  - apply StateDetectBreak_handle_isr_invariant; assumption.
  - apply StateReadData_handle_isr_invariant; assumption.
Qed.

Lemma handle_isr_defined d tr :
  invariant d -> handle_isr d tr <> Undefined.
Proof.
  intros Hinv. unfold handle_isr. destruct (state d) eqn:Hst.
  - unfold StateDetectBreak_handle_isr.
    destruct tr as [|i w]; [discriminate|]. cbn [isRxHigh bind].
    destruct (rx_high i); [discriminate|].
    destruct (_ <? 10); [discriminate|].
    pose proof (waitForRxHigh_defined 255 w) as Hw.
    destruct (waitForRxHigh 255 w) as [[r t]| |]; try discriminate;
      [|contradiction].
    cbn [bind].
    edestruct (StateReadData_enter_spec
                 (set_low_bits_counter_ (wrap8 (low_bits_counter_ d + 1)) d) t)
      as (fb & _ & ->).
    { destruct (inv_wf d Hinv). constructor; assumption. }
    pose proof (waitForRxLow_defined 255 t) as Hw'.
    destruct (waitForRxLow 255 t) as [[r' t']| |]; try discriminate.
    contradiction.
  - destruct tr as [|i w]; [discriminate|].
    destruct (Z.eq_dec (bits_read_in_byte_ d) 0) as [Hb0 | Hb0].
    { destruct (rx_high i) eqn:Hi.
      - rewrite read_start_bit_high by assumption. discriminate.
      - rewrite read_start_bit_low by assumption. discriminate. }
    destruct (Z_le_gt_dec (bits_read_in_byte_ d) 8) as [Hb8 | Hb8].
    { rewrite read_data_bit by assumption. discriminate. }
    destruct (rx_high i) eqn:Hi.
    + destruct (inv_reading d Hinv Hst) as (fb & Hfb & _).
      destruct (invariant_next_byte d fb Hinv Hst Hfb) as [x Hx].
      rewrite (read_stop_bit_high d i w fb x) by (assumption || lia).
      pose proof (waitForRxLow_defined (kClockTicksPerBit * 4) w) as Hw.
      destruct (waitForRxLow (kClockTicksPerBit * 4) w) as [[r t]| |];
        try discriminate.
      contradiction.
    + rewrite read_stop_bit_low by (assumption || lia). discriminate.
Qed.

Lemma ISR_invariant d tr d' tr' :
  invariant d -> ISR d tr = Ok (d', tr') -> invariant d'.
Proof.
  intros Hinv Hrun. unfold ISR in Hrun.
  destruct (handle_isr d tr) as [[d1 t1]| |] eqn:Hh; try discriminate.
  cbn [bind] in Hrun.
  destruct (maybeServiceRxRequest_invariant d1
              (handle_isr_invariant _ _ _ _ Hinv Hh)) as (d2 & Hs & Hinv2).
  rewrite Hs in Hrun. cbn [bind] in Hrun. injection Hrun as <- <-.
  exact Hinv2.
Qed.

Lemma ISR_defined d tr : invariant d -> ISR d tr <> Undefined.
Proof.
  intros Hinv. unfold ISR.
  pose proof (handle_isr_defined d tr Hinv) as Hd.
  destruct (handle_isr d tr) as [[d1 t1]| |] eqn:Hh; try discriminate;
    [|contradiction].
  cbn [bind].
  destruct (maybeServiceRxRequest_invariant d1
              (handle_isr_invariant _ _ _ _ Hinv Hh)) as (d2 & -> & _).
  discriminate.
Qed.

Lemma invariant_initial : invariant initial.
Proof.
  constructor; [constructor|..]; cbn; unfold kMaxFrameBuffers, kMaxBytes.
  - reflexivity.
  - repeat constructor.
  - lia.
  - lia.
  - repeat constructor; cbn; lia.
  - lia.
  - discriminate.
Qed.

Lemma reachable_invariant d : reachable d -> invariant d.
Proof.
  induction 1 as [|d tr d' tr' _ IH Hrun|d buffer _ IH|d _ IH].
  - exact invariant_initial.
  - exact (ISR_invariant _ _ _ _ IH Hrun).
  - unfold readNextFrame. destruct (request_buffer_has_data d); [|exact IH].
    apply (invariant_kept d); auto.
  - apply (invariant_kept d); auto.
Qed.

Lemma reachable_ISR_run n : forall d tr d' tr',
  reachable d -> ISR_run n d tr = Ok (d', tr') -> reachable d'.
Proof.
  induction n as [|n IH]; intros d tr d' tr' Hr Hrun; simpl in Hrun.
  - injection Hrun as <- <-. exact Hr.
  - destruct (ISR d tr) as [[d1 t1]| |] eqn:Hstep; try discriminate.
    cbn [bind] in Hrun.
    exact (IH _ _ _ _ (reachable_ISR _ _ _ _ Hr Hstep) Hrun).
Qed.

Lemma state_after_reachable n tr : reachable (state_after n tr).
Proof.
  unfold state_after.
  destruct (ISR_run n initial tr) as [[d t]| |] eqn:Hrun;
    try exact reachable_initial.
  exact (reachable_ISR_run _ _ _ _ _ reachable_initial Hrun).
Qed.

(** ** C10: reading when nothing is ready *)

(** C10. With the readiness flag of the hand-off slot clear,
    [readNextFrame] returns false, hands the caller's buffer back as it
    was and leaves the whole decoder (hand-off slot and flag, ring and
    indices, error flag) exactly as it was. *)
Theorem readNextFrame_nothing_ready d buffer :
  request_buffer_has_data d = false ->
  readNextFrame buffer d = (false, buffer, d).
Proof. intros H. unfold readNextFrame. rewrite H. reflexivity. Qed.

Lemma readNextFrame_nothing_ready_witness :
  readNextFrame (mkRxFrameBuffer 2 [1; 2]) initial
  = (false, mkRxFrameBuffer 2 [1; 2], initial).
Proof. apply readNextFrame_nothing_ready. reflexivity. Defined.

(** ** C9: byte counts stay within the frame buffer *)

Lemma ISR_stop_bit d i w fb r tr' :
  invariant d -> at_stop_bit d -> rx_high i = true ->
  current_slot d = Some fb ->
  waitForRxLow (kClockTicksPerBit * 4) w = Ok (r, tr') ->
  wrap8 (num_bytes fb + 1) = num_bytes fb + 1
  /\ exists d',
      ISR d (i :: w) = Ok (d', tr')
      /\ maybeServiceRxRequest
           (after_wait r (num_bytes fb + 1) (store_byte fb d)) = Ok d'
      /\ invariant (after_wait r (num_bytes fb + 1) (store_byte fb d)).
Proof.
  intros Hinv [Hst Hb] Hi Hfb Hw.
  destruct (invariant_next_byte d fb Hinv Hst Hfb) as [x Hx].
  destruct (invariant_slot d fb Hinv Hfb) as [Hn _].
  assert (Hwrap : wrap8 (num_bytes fb + 1) = num_bytes fb + 1)
    by (apply wrap8_succ_small; unfold kMaxBytes in Hn; lia).
  split; [exact Hwrap|].
  pose proof (after_wait_invariant r d fb Hinv Hst Hfb) as Hinv'.
  rewrite Hwrap in Hinv'.
  destruct (maybeServiceRxRequest_invariant _ Hinv') as (d' & Hs & _).
  exists d'. split; [|split; assumption].
  unfold ISR, handle_isr. rewrite Hst.
  rewrite (read_stop_bit_high d i w fb x) by assumption.
  rewrite Hw, Hwrap. cbn [bind]. rewrite Hs. reflexivity.
Qed.

(** C9. In every reachable state the byte count of every frame slot is
    at most [kMaxBytes]; no interrupt accesses an array outside its
    bounds; while a frame is read its slot has room for the byte the
    stop bit branch appends.  This is so because a slot that reaches
    [kMaxBytes] bytes with a further start bit detected resets the
    receiver in that same interrupt, and because entering the read-data
    state sets the count of the slot to zero. *)
Theorem num_bytes_within_kMaxBytes d :
  reachable d ->
  Forall (fun fb => 0 <= num_bytes fb <= kMaxBytes) (rx_frame_buffers d)
  /\ (forall tr, ISR d tr <> Undefined)
  /\ (state d = READ_DATA ->
      exists fb x, current_slot d = Some fb
                   /\ num_bytes fb < kMaxBytes
                   /\ bytes fb !! Z.to_nat (num_bytes fb) = Some x)
  /\ (forall i w tr' fb,
        at_stop_bit d -> rx_high i = true -> current_slot d = Some fb ->
        num_bytes fb + 1 = kMaxBytes ->
        waitForRxLow (kClockTicksPerBit * 4) w = Ok (true, tr') ->
        exists d', ISR d (i :: w) = Ok (d', tr')
                   /\ state d' = DETECT_BREAK /\ error_flag d' = true)
  /\ (forall tr d' tr',
        StateReadData_enter d tr = Ok (d', tr') ->
        state d' = READ_DATA
        /\ exists fb, current_slot d' = Some fb /\ num_bytes fb = 0).
Proof.
  intros Hr. pose proof (reachable_invariant d Hr) as Hinv.
  split; [exact (inv_counts d Hinv)|].
  split; [intros tr; exact (ISR_defined d tr Hinv)|].
  split; [|split].
  - intros Hst. destruct (inv_reading d Hinv Hst) as (fb & Hfb & Hroom & _).
    destruct (invariant_next_byte d fb Hinv Hst Hfb) as [x Hx].
    exists fb, x. auto.
  - intros i w tr' fb Hstop Hi Hfb Hfull Hw.
    destruct (ISR_stop_bit d i w fb true tr' Hinv Hstop Hi Hfb Hw)
      as (_ & d' & Hrun & Hs & Hinv').
    exists d'. split; [exact Hrun|].
    destruct (maybeServiceRxRequest_total _ (inv_wf _ Hinv'))
      as (d2 & Hs2 & Hsame & _).
    rewrite Hs in Hs2. injection Hs2 as <-.
    destruct Hsame as (_ & _ & -> & _ & _ & _ & _ & _ & ->).
    unfold after_wait. cbn [negb]. rewrite Hfull, Z.leb_refl.
    split; reflexivity.
  - intros tr d' tr' Hrun.
    destruct (StateReadData_enter_spec d tr (inv_wf d Hinv))
      as (fb & Hfb & Heq).
    rewrite Heq in Hrun.
    destruct (waitForRxLow 255 tr) as [[r t]| |]; try discriminate.
    cbn [bind] in Hrun. injection Hrun as <- <-.
    split; [reflexivity|]. unfold current_slot. fields.
    exists (mkRxFrameBuffer 0 (bytes fb)). split; [|reflexivity].
    apply list_lookup_insert_eq. destruct (inv_wf d Hinv) as [Hlen _ Hh _].
    rewrite Hlen. unfold kMaxFrameBuffers in *. lia.
Qed.

Lemma num_bytes_within_kMaxBytes_witness :
  reachable (state_after 10 break_trace)
  /\ (Forall (fun fb => 0 <= num_bytes fb <= kMaxBytes)
        (rx_frame_buffers (state_after 10 break_trace))
      /\ (forall tr, ISR (state_after 10 break_trace) tr <> Undefined)
      /\ (state (state_after 10 break_trace) = READ_DATA ->
          exists fb x, current_slot (state_after 10 break_trace) = Some fb
                       /\ num_bytes fb < kMaxBytes
                       /\ bytes fb !! Z.to_nat (num_bytes fb) = Some x)
      /\ (forall i w tr' fb,
            at_stop_bit (state_after 10 break_trace) -> rx_high i = true ->
            current_slot (state_after 10 break_trace) = Some fb ->
            num_bytes fb + 1 = kMaxBytes ->
            waitForRxLow (kClockTicksPerBit * 4) w = Ok (true, tr') ->
            exists d', ISR (state_after 10 break_trace) (i :: w) = Ok (d', tr')
                       /\ state d' = DETECT_BREAK /\ error_flag d' = true)
      /\ (forall tr d' tr',
            StateReadData_enter (state_after 10 break_trace) tr = Ok (d', tr') ->
            state d' = READ_DATA
            /\ exists fb, current_slot d' = Some fb /\ num_bytes fb = 0)).
Proof.
  split; [apply state_after_reachable|].
  apply num_bytes_within_kMaxBytes. apply state_after_reachable.
Defined.

(** ** What the state machine touches *)

(** The state machine never touches the hand-off slot nor clears the
    error flag; it moves [head] by one at most, when it enqueues a
    frame, and [tail] only along with [head]. *)
Lemma handle_isr_frame d tr d1 tr1 :
  handle_isr d tr = Ok (d1, tr1) ->
  request_buffer_has_data d1 = request_buffer_has_data d
  /\ request_buffer d1 = request_buffer d
  /\ (error_flag d = true -> error_flag d1 = true)
  /\ ((head_frame_buffer d1 = head_frame_buffer d
       /\ tail_frame_buffer d1 = tail_frame_buffer d)
      \/ (head_frame_buffer d1 = ring_next (head_frame_buffer d)
          /\ state d1 = DETECT_BREAK
          /\ (tail_frame_buffer d1 = tail_frame_buffer d
              \/ (tail_frame_buffer d = ring_next (head_frame_buffer d)
                  /\ tail_frame_buffer d1 = ring_next (tail_frame_buffer d)
                  /\ error_flag d1 = true)))).
Proof.
  unfold handle_isr, StateDetectBreak_handle_isr, StateReadData_handle_isr,
    StateReadData_enter.
  intros Hrun. destruct tr as [|i w]; [destruct (state d); discriminate|].
  cbn [isRxHigh bind] in Hrun.
  rewrite ?incrementHeadFrameBuffer_eq in Hrun.
  unfold bind in Hrun.
  repeat (case_match; try discriminate; cbn [negb] in Hrun; fields);
    simplify_eq; rewrite ?incrementHeadFrameBuffer_eq,
                   ?incrementTailFrameBuffer_eq; fields;
    try (repeat split; auto; fail).
  all: repeat split; auto.
  all: right; repeat split; auto.
  all: match goal with
       | H : (_ =? _) = true |- _ =>
         rewrite incrementHeadFrameBuffer_eq in H; fields;
         apply Z.eqb_eq in H; right; auto
       | _ => left; reflexivity
       end.
Qed.

Lemma maybeServiceRxRequest_error_flag d d' :
  maybeServiceRxRequest d = Ok d' -> error_flag d' = error_flag d.
Proof.
  unfold maybeServiceRxRequest. intros Hs.
  repeat (case_match; try discriminate); simplify_eq;
    rewrite ?incrementTailFrameBuffer_eq; reflexivity.
Qed.

Lemma ISR_after_handler d tr d1 tr1 :
  invariant d -> handle_isr d tr = Ok (d1, tr1) ->
  exists d', ISR d tr = Ok (d', tr1)
             /\ maybeServiceRxRequest d1 = Ok d'
             /\ same_receiver d1 d' /\ invariant d1.
Proof.
  intros Hinv Hh. pose proof (handle_isr_invariant _ _ _ _ Hinv Hh) as Hinv1.
  destruct (maybeServiceRxRequest_total d1 (inv_wf d1 Hinv1))
    as (d' & Hs & Hsame & _).
  exists d'. unfold ISR. rewrite Hh. cbn [bind]. rewrite Hs. auto.
Qed.

(** ** C5: one hand-off attempt after every step *)

(** C5. Every interrupt is the state machine's step followed by one
    hand-off attempt.  The attempt leaves the receiver proper alone;
    when the hand-off slot is empty and the ring is not, it copies the
    slot at [tail] into the hand-off slot, advances [tail] by one modulo
    8 and marks the slot ready; in every other case it changes nothing. *)
Theorem one_handoff_attempt_per_step d tr d1 tr1 :
  invariant d -> handle_isr d tr = Ok (d1, tr1) ->
  exists d',
    ISR d tr = Ok (d', tr1)
    /\ same_receiver d1 d'
    /\ ((request_buffer_has_data d1 = false
         /\ tail_frame_buffer d1 <> head_frame_buffer d1
         /\ rx_frame_buffers d1 !! Z.to_nat (tail_frame_buffer d1)
            = Some (request_buffer d')
         /\ tail_frame_buffer d'
            = (tail_frame_buffer d1 + 1) mod kMaxFrameBuffers
         /\ request_buffer_has_data d' = true)
        \/ ((request_buffer_has_data d1 = true
             \/ tail_frame_buffer d1 = head_frame_buffer d1)
            /\ d' = d1)).
Proof.
  intros Hinv Hh.
  destruct (ISR_after_handler d tr d1 tr1 Hinv Hh)
    as (d' & Hrun & Hs & Hsame & Hinv1).
  exists d'. split; [exact Hrun|]. split; [exact Hsame|].
  pose proof (inv_wf d1 Hinv1) as Hwf1.
  destruct (request_buffer_has_data d1) eqn:Hd.
  { right. rewrite maybeServiceRxRequest_idle in Hs by auto.
    injection Hs as <-. auto. }
  destruct (Z.eq_dec (tail_frame_buffer d1) (head_frame_buffer d1)) as [He|Hne].
  { right. rewrite maybeServiceRxRequest_idle in Hs by auto.
    injection Hs as <-. auto. }
  left. destruct (maybeServiceRxRequest_move d1 Hwf1 Hd Hne) as (fb & Hfb & Heq).
  rewrite Heq in Hs. injection Hs as <-. fields.
  rewrite <- ring_next_spec by exact (wf_tail d1 Hwf1). auto.
Qed.

Lemma one_handoff_attempt_per_step_witness :
  invariant
    (readNextFrame zero_frame
       (state_after 100 (frame_trace [1; 2; 3; 4] ++ frame_trace [5; 6; 7; 8]))).2
  /\ handle_isr
       (readNextFrame zero_frame
          (state_after 100
             (frame_trace [1; 2; 3; 4] ++ frame_trace [5; 6; 7; 8]))).2
       [high_sample]
     = Ok (set_low_bits_counter_ 0
             (readNextFrame zero_frame
                (state_after 100
                   (frame_trace [1; 2; 3; 4] ++ frame_trace [5; 6; 7; 8]))).2,
           [])
  /\ exists d',
      ISR (readNextFrame zero_frame
             (state_after 100
                (frame_trace [1; 2; 3; 4] ++ frame_trace [5; 6; 7; 8]))).2
        [high_sample] = Ok (d', [])
      /\ request_buffer d' = mkRxFrameBuffer 4 [5; 6; 7; 8; 0; 0; 0; 0; 0; 0; 0]
      /\ tail_frame_buffer d' = 2.
Proof.
  assert (Hinv : invariant
    (readNextFrame zero_frame
       (state_after 100 (frame_trace [1; 2; 3; 4] ++ frame_trace [5; 6; 7; 8]))).2).
  { apply reachable_invariant, reachable_readNextFrame, state_after_reachable. }
  assert (Hh : handle_isr
       (readNextFrame zero_frame
          (state_after 100
             (frame_trace [1; 2; 3; 4] ++ frame_trace [5; 6; 7; 8]))).2
       [high_sample]
     = Ok (set_low_bits_counter_ 0
             (readNextFrame zero_frame
                (state_after 100
                   (frame_trace [1; 2; 3; 4] ++ frame_trace [5; 6; 7; 8]))).2,
           [])).
  { vm_compute. reflexivity. }
  split; [exact Hinv|]. split; [exact Hh|].
  destruct (one_handoff_attempt_per_step _ _ _ _ Hinv Hh)
    as (d' & Hrun & _ & [(_ & _ & Hslot & Htail & _) | ([Hc | Hc] & _)]).
  - exists d'. split; [exact Hrun|]. split.
    + apply (inj Some). rewrite <- Hslot. vm_compute. reflexivity.
    + rewrite Htail. vm_compute. reflexivity.
  - vm_compute in Hc. discriminate.
  - vm_compute in Hc. discriminate.
Defined.

(** ** C2: anomalies *)

Lemma anomaly_handled d tr :
  invariant d -> anomaly d tr ->
  exists d1 tr1, handle_isr d tr = Ok (d1, tr1)
                 /\ error_flag d1 = true /\ state d1 = DETECT_BREAK
                 /\ low_bits_counter_ d1 = 0.
Proof.
  intros Hinv Han. unfold handle_isr.
  destruct Han as [i tr' Hst Hb -> Hi
                  |i tr' [Hst Hb] -> Hi
                  |i w tr' [Hst Hb] -> Hi Hw Hshort
                  |i w tr' [Hst Hb] -> Hi Hw Hlong Hfull
                  |i w tr' fb [Hst Hb] -> Hi Hw Hfb Hcap]; rewrite Hst.
  - rewrite read_start_bit_high by assumption. eexists _, _. auto.
  - rewrite read_stop_bit_low by assumption. eexists _, _. auto.
  - destruct (inv_reading d Hinv Hst) as (fb & Hfb & _).
    destruct (invariant_next_byte d fb Hinv Hst Hfb) as [x Hx].
    rewrite (read_stop_bit_high d i w fb x), Hw by assumption. cbn [bind].
    eexists _, _. split; [reflexivity|].
    unfold after_wait, store_byte. cbn [negb]. fields.
    destruct (Z.ltb_spec (wrap8 (bytes_read_ d + 1)) 4); [auto | lia].
  - destruct (inv_reading d Hinv Hst) as (fb & Hfb & _).
    destruct (invariant_next_byte d fb Hinv Hst Hfb) as [x Hx].
    rewrite (read_stop_bit_high d i w fb x), Hw by assumption. cbn [bind].
    eexists _, _. split; [reflexivity|].
    unfold after_wait, store_byte. cbn [negb]. fields.
    destruct (Z.ltb_spec (wrap8 (bytes_read_ d + 1)) 4); [lia|].
    rewrite incrementHeadFrameBuffer_eq. fields.
    rewrite Hfull, Z.eqb_refl, incrementTailFrameBuffer_eq. auto.
  - destruct (invariant_next_byte d fb Hinv Hst Hfb) as [x Hx].
    rewrite (read_stop_bit_high d i w fb x), Hw by assumption. cbn [bind].
    eexists _, _. split; [reflexivity|].
    unfold after_wait. cbn [negb].
    destruct (Z.leb_spec kMaxBytes (wrap8 (num_bytes fb + 1))); [auto | lia].
Qed.

Lemma ISR_error_sticky d tr d' tr' :
  error_flag d = true -> ISR d tr = Ok (d', tr') -> error_flag d' = true.
Proof.
  intros He Hrun. unfold ISR in Hrun.
  destruct (handle_isr d tr) as [[d1 t1]| |] eqn:Hh; try discriminate.
  cbn [bind] in Hrun.
  destruct (maybeServiceRxRequest d1) as [d2| |] eqn:Hs; try discriminate.
  cbn [bind] in Hrun. injection Hrun as <- <-.
  rewrite (maybeServiceRxRequest_error_flag _ _ Hs).
  destruct (handle_isr_frame _ _ _ _ Hh) as (_ & _ & Hkeep & _). auto.
Qed.

Lemma no_clear_steps_sticky d d' :
  no_clear_steps d d' -> error_flag d = true -> error_flag d' = true.
Proof.
  induction 1 as [d|d tr d1 tr1 d' Hrun _ IH|d buffer d' _ IH]; intros He.
  - exact He.
  - apply IH. exact (ISR_error_sticky _ _ _ _ He Hrun).
  - apply IH. unfold readNextFrame.
    destruct (request_buffer_has_data d); exact He.
Qed.

(** C2. Each of the five anomalies (start bit violation, stop bit
    violation, byte capacity overflow, frame too short, queue overrun)
    sets the error flag and, in the same interrupt, puts the receiver
    back into break detection with its counter at zero.  The flag then
    stays set through any further interrupts and [readNextFrame] calls,
    and [clearErrors] is what clears it. *)
Theorem anomaly_sets_sticky_flag_and_resets d tr :
  invariant d -> anomaly d tr ->
  exists d' tr',
    ISR d tr = Ok (d', tr')
    /\ hasErrors d' = true
    /\ state d' = DETECT_BREAK
    /\ low_bits_counter_ d' = 0
    /\ forall d'', no_clear_steps d' d'' ->
                   hasErrors d'' = true
                   /\ hasErrors (clearErrors d'') = false.
Proof.
  intros Hinv Han.
  destruct (anomaly_handled d tr Hinv Han) as (d1 & tr1 & Hh & He & Hst & Hc).
  destruct (ISR_after_handler d tr d1 tr1 Hinv Hh)
    as (d' & Hrun & _ & Hsame & _).
  destruct Hsame as (_ & _ & Hst' & Hc' & _ & _ & _ & _ & He').
  exists d', tr1. unfold hasErrors.
  split; [exact Hrun|]. split; [congruence|]. split; [congruence|].
  split; [congruence|].
  intros d'' Hsteps. split; [|reflexivity].
  apply (no_clear_steps_sticky d' d'' Hsteps). congruence.
Qed.

Lemma anomaly_sets_sticky_flag_and_resets_witness :
  invariant (state_after 10 break_trace)
  /\ anomaly (state_after 10 break_trace) [high_sample]
  /\ exists d' tr',
      ISR (state_after 10 break_trace) [high_sample] = Ok (d', tr')
      /\ hasErrors d' = true
      /\ state d' = DETECT_BREAK
      /\ low_bits_counter_ d' = 0
      /\ forall d'', no_clear_steps d' d'' ->
                     hasErrors d'' = true
                     /\ hasErrors (clearErrors d'') = false.
Proof.
  assert (Hinv : invariant (state_after 10 break_trace))
    by apply reachable_invariant, state_after_reachable.
  assert (Han : anomaly (state_after 10 break_trace) [high_sample])
    by (eapply start_bit_violation; vm_compute; reflexivity).
  split; [exact Hinv|]. split; [exact Han|].
  exact (anomaly_sets_sticky_flag_and_resets _ _ Hinv Han).
Defined.

(** ** The ring as a queue *)

Lemma ring_index_cases i :
  0 <= i < kMaxFrameBuffers ->
  i = 0 \/ i = 1 \/ i = 2 \/ i = 3 \/ i = 4 \/ i = 5 \/ i = 6 \/ i = 7.
Proof. unfold kMaxFrameBuffers. lia. Qed.

Lemma ring_of_eight (slots : list RxFrameBuffer) :
  length slots = Z.to_nat kMaxFrameBuffers ->
  exists s0 s1 s2 s3 s4 s5 s6 s7, slots = [s0; s1; s2; s3; s4; s5; s6; s7].
Proof.
  intros Hlen.
  do 8 (destruct slots as [|? slots]; [discriminate|]).
  destruct slots; [|discriminate]. eauto 10.
Qed.

Ltac ring_cases Hlen Hh Ht :=
  apply ring_of_eight in Hlen;
  destruct Hlen as (s0 & s1 & s2 & s3 & s4 & s5 & s6 & s7 & Hslots);
  apply ring_index_cases in Hh; apply ring_index_cases in Ht;
  decompose [or] Hh; decompose [or] Ht; clear Hh Ht.

(** Writing the slot at [head] does not show in the queue. *)
Lemma ring_slice_insert_head (slots : list RxFrameBuffer) h t x :
  length slots = Z.to_nat kMaxFrameBuffers ->
  0 <= h < kMaxFrameBuffers -> 0 <= t < kMaxFrameBuffers ->
  ring_slice (<[Z.to_nat h := x]> slots) t
    (Z.to_nat ((h - t) mod kMaxFrameBuffers))
  = ring_slice slots t (Z.to_nat ((h - t) mod kMaxFrameBuffers)).
Proof.
  intros Hlen Hh Ht. ring_cases Hlen Hh Ht; subst; reflexivity.
Qed.

(** The queue is its oldest frame followed by the queue from the next
    index on. *)
Lemma ring_slice_oldest (slots : list RxFrameBuffer) h t fb :
  0 <= h < kMaxFrameBuffers -> 0 <= t < kMaxFrameBuffers -> t <> h ->
  slots !! Z.to_nat t = Some fb ->
  ring_slice slots t (Z.to_nat ((h - t) mod kMaxFrameBuffers))
  = fb :: ring_slice slots (ring_next t)
            (Z.to_nat ((h - ring_next t) mod kMaxFrameBuffers)).
Proof.
  intros Hh Ht Hne Hfb.
  apply ring_index_cases in Hh; apply ring_index_cases in Ht.
  decompose [or] Hh; decompose [or] Ht; clear Hh Ht; subst;
    try contradiction;
    match goal with
    | |- ring_slice _ _ ?n = _ =>
      let n' := eval vm_compute in n in change n with n'
    end;
    cbn [ring_slice]; rewrite Hfb; reflexivity.
Qed.

(** Enqueueing with room left appends the slot at [head]. *)
Lemma ring_slice_enqueue (slots : list RxFrameBuffer) h t fb :
  length slots = Z.to_nat kMaxFrameBuffers ->
  0 <= h < kMaxFrameBuffers -> 0 <= t < kMaxFrameBuffers ->
  slots !! Z.to_nat h = Some fb ->
  ring_next h <> t ->
  ring_slice slots t (Z.to_nat ((ring_next h - t) mod kMaxFrameBuffers))
  = ring_slice slots t (Z.to_nat ((h - t) mod kMaxFrameBuffers)) ++ [fb].
Proof.
  intros Hlen Hh Ht Hfb Hne. ring_cases Hlen Hh Ht; subst;
    try (exfalso; apply Hne; reflexivity);
    injection Hfb as <-; reflexivity.
Qed.

(** Enqueueing into a full ring drops the oldest frame and appends the
    slot at [head]. *)
Lemma ring_slice_overrun (slots : list RxFrameBuffer) h t fb :
  length slots = Z.to_nat kMaxFrameBuffers ->
  0 <= h < kMaxFrameBuffers -> 0 <= t < kMaxFrameBuffers ->
  slots !! Z.to_nat h = Some fb ->
  ring_next h = t ->
  ring_slice slots (ring_next t)
    (Z.to_nat ((ring_next h - ring_next t) mod kMaxFrameBuffers))
  = tail (ring_slice slots t (Z.to_nat ((h - t) mod kMaxFrameBuffers)))
    ++ [fb]
  /\ length (ring_slice slots t (Z.to_nat ((h - t) mod kMaxFrameBuffers)))
     = 7%nat.
Proof.
  intros Hlen Hh Ht Hfb Hfull. ring_cases Hlen Hh Ht; subst;
    try discriminate; injection Hfb as <-; split; reflexivity.
Qed.

Lemma ring_slice_empty (slots : list RxFrameBuffer) h t :
  length slots = Z.to_nat kMaxFrameBuffers ->
  0 <= h < kMaxFrameBuffers -> 0 <= t < kMaxFrameBuffers ->
  ring_slice slots t (Z.to_nat ((h - t) mod kMaxFrameBuffers)) = [] ->
  t = h.
Proof.
  intros Hlen Hh Ht. ring_cases Hlen Hh Ht; subst;
    (reflexivity || discriminate).
Qed.

Lemma queued_empty d :
  tail_frame_buffer d = head_frame_buffer d -> queued d = [].
Proof.
  intros He. unfold queued. rewrite He, Z.sub_diag. reflexivity.
Qed.

Lemma maybeServiceRxRequest_unread d d' :
  wf d -> maybeServiceRxRequest d = Ok d' ->
  unread d' = unread d /\ serviced d'.
Proof.
  intros Hwf Hs. unfold unread, serviced.
  destruct (request_buffer_has_data d) eqn:Hd.
  { rewrite maybeServiceRxRequest_idle in Hs by auto. injection Hs as <-.
    rewrite Hd. split; [reflexivity | discriminate]. }
  destruct (Z.eq_dec (tail_frame_buffer d) (head_frame_buffer d)) as [He|Hne].
  { rewrite maybeServiceRxRequest_idle in Hs by auto. injection Hs as <-.
    rewrite Hd. split; [reflexivity|]. intros _. apply queued_empty, He. }
  destruct (maybeServiceRxRequest_move d Hwf Hd Hne) as (fb & Hfb & Heq).
  rewrite Heq in Hs. injection Hs as <-. fields.
  split; [|discriminate]. unfold queued. fields.
  rewrite (ring_slice_oldest _ _ _ fb (wf_head d Hwf) (wf_tail d Hwf) Hne Hfb).
  reflexivity.
Qed.

Lemma ring_next_moves h : 0 <= h < kMaxFrameBuffers -> ring_next h <> h.
Proof.
  intros Hh. apply ring_index_cases in Hh.
  decompose [or] Hh; subst; discriminate.
Qed.

Lemma readNextFrame_idle d buffer :
  request_buffer_has_data d = false ->
  readNextFrame buffer d = (false, buffer, d).
Proof. intros H. unfold readNextFrame. rewrite H. reflexivity. Qed.

Lemma unread_nil_not_ready d :
  unread d = [] -> request_buffer_has_data d = false.
Proof.
  unfold unread. destruct (request_buffer_has_data d); [discriminate | auto].
Qed.

(** The queue after the byte of the stop bit branch was stored. *)
Lemma queued_store_byte fb d :
  wf d -> queued (store_byte fb d) = queued d.
Proof.
  intros [Hlen _ Hh Ht]. unfold queued, store_byte. fields.
  apply ring_slice_insert_head; assumption.
Qed.

Lemma store_byte_slot fb d :
  invariant d -> current_slot d = Some fb ->
  rx_frame_buffers (store_byte fb d) !! Z.to_nat (head_frame_buffer d)
  = Some (completed_frame fb d).
Proof.
  intros Hinv Hfb. destruct (invariant_slot d fb Hinv Hfb) as [Hn _].
  unfold store_byte, completed_frame. fields.
  rewrite wrap8_succ_small by (unfold kMaxBytes in Hn; lia).
  apply list_lookup_insert_eq.
  destruct (inv_wf d Hinv) as [Hlen _ Hh _]. rewrite Hlen.
  unfold kMaxFrameBuffers in *. lia.
Qed.

(** ** Only frames of four bytes or more are ever unread *)

Lemma unread_kept d d' :
  rx_frame_buffers d' = rx_frame_buffers d ->
  head_frame_buffer d' = head_frame_buffer d ->
  tail_frame_buffer d' = tail_frame_buffer d ->
  request_buffer_has_data d' = request_buffer_has_data d ->
  request_buffer d' = request_buffer d ->
  unread d' = unread d.
Proof.
  intros Hs Hh Ht Hd Hr. unfold unread, queued.
  rewrite Hs, Hh, Ht, Hd, Hr. reflexivity.
Qed.

Lemma unread_store_byte fb d : wf d -> unread (store_byte fb d) = unread d.
Proof.
  intros Hwf. unfold unread. rewrite (queued_store_byte fb d Hwf). reflexivity.
Qed.

Lemma after_wait_unread r d fb :
  invariant d -> state d = READ_DATA -> current_slot d = Some fb ->
  Forall long_enough (unread d) ->
  Forall long_enough
    (unread (after_wait r (num_bytes fb + 1) (store_byte fb d))).
Proof.
  intros Hinv Hst Hfb Hlong.
  pose proof (inv_wf d Hinv) as Hwf.
  destruct (inv_reading d Hinv Hst) as (fb' & Hfb' & _ & Hread).
  rewrite Hfb in Hfb'. injection Hfb' as <-.
  destruct (invariant_slot d fb Hinv Hfb) as [Hn _].
  rewrite <- (unread_store_byte fb d Hwf) in Hlong.
  assert (Hbr : bytes_read_ (store_byte fb d) = num_bytes fb + 1).
  { unfold store_byte. fields. rewrite Hread.
    apply wrap8_succ_small. unfold kMaxBytes in Hn. lia. }
  unfold after_wait. rewrite Hbr, incrementHeadFrameBuffer_eq.
  destruct r; cbn [negb].
  { destruct (kMaxBytes <=? num_bytes fb + 1); [|exact Hlong].
    erewrite unread_kept; [exact Hlong|reflexivity..]. }
  destruct (Z.ltb_spec (num_bytes fb + 1) 4) as [Hshort|Hok].
  { erewrite unread_kept; [exact Hlong|reflexivity..]. }
  assert (Hslots : length (rx_frame_buffers (store_byte fb d))
                   = Z.to_nat kMaxFrameBuffers).
  { unfold store_byte. fields. rewrite length_insert. exact (wf_slots d Hwf). }
  pose proof (store_byte_slot fb d Hinv Hfb) as Hslot.
  assert (Hnew : long_enough (completed_frame fb d)) by exact Hok.
  unfold unread in Hlong. apply Forall_app in Hlong as [Hhand Hq].
  change (head_frame_buffer (store_byte fb d)) with (head_frame_buffer d).
  cbn [tail_frame_buffer set_head_frame_buffer head_frame_buffer].
  change (tail_frame_buffer (store_byte fb d)) with (tail_frame_buffer d).
  destruct (Z.eqb_spec (tail_frame_buffer d) (ring_next (head_frame_buffer d)))
    as [Hfull|Hroom].
  - rewrite incrementTailFrameBuffer_eq. unfold unread, queued at 1. fields.
    change (tail_frame_buffer (store_byte fb d)) with (tail_frame_buffer d).
    destruct (ring_slice_overrun _ (head_frame_buffer d) (tail_frame_buffer d)
                _ Hslots (wf_head d Hwf) (wf_tail d Hwf) Hslot (eq_sym Hfull))
      as [Hq' _].
    rewrite Hq'. apply Forall_app. split; [exact Hhand|].
    apply Forall_app. split; [|repeat constructor; exact Hnew].
    unfold queued in Hq.
    change (tail_frame_buffer (store_byte fb d)) with (tail_frame_buffer d) in Hq.
    change (head_frame_buffer (store_byte fb d)) with (head_frame_buffer d) in Hq.
    destruct (ring_slice _ _ _); [constructor|].
    apply Forall_cons in Hq as [_ Hq]. exact Hq.
  - unfold unread, queued at 1. fields.
    change (tail_frame_buffer (store_byte fb d)) with (tail_frame_buffer d).
    rewrite (ring_slice_enqueue _ (head_frame_buffer d) _ _ Hslots
               (wf_head d Hwf) (wf_tail d Hwf) Hslot) by congruence.
    apply Forall_app. split; [exact Hhand|].
    apply Forall_app. split; [exact Hq | repeat constructor; exact Hnew].
Qed.

Lemma handle_isr_unread d tr d1 tr1 :
  invariant d -> handle_isr d tr = Ok (d1, tr1) ->
  Forall long_enough (unread d) -> Forall long_enough (unread d1).
Proof.
  intros Hinv Hrun Hlong. pose proof (inv_wf d Hinv) as Hwf.
  unfold handle_isr in Hrun. destruct (state d) eqn:Hst.
  - unfold StateDetectBreak_handle_isr in Hrun.
    destruct tr as [|i w]; [discriminate|]. cbn [isRxHigh bind] in Hrun.
    destruct (rx_high i).
    { injection Hrun as <- <-. erewrite unread_kept; [exact Hlong|reflexivity..]. }
    fields. destruct (_ <? 10).
    { injection Hrun as <- <-. erewrite unread_kept; [exact Hlong|reflexivity..]. }
    destruct (waitForRxHigh 255 w) as [[r t]| |]; try discriminate.
    cbn [bind] in Hrun.
    assert (Hwf1 : wf (set_low_bits_counter_
                         (wrap8 (low_bits_counter_ d + 1)) d))
      by (destruct Hwf; constructor; assumption).
    destruct (StateReadData_enter_spec _ t Hwf1) as (fb & _ & Heq).
    rewrite Heq in Hrun.
    destruct (waitForRxLow 255 t) as [[r' t']| |]; try discriminate.
    cbn [bind] in Hrun. injection Hrun as <- <-.
    unfold unread, queued. fields.
    rewrite ring_slice_insert_head;
      [exact Hlong | exact (wf_slots d Hwf) | exact (wf_head d Hwf)
       | exact (wf_tail d Hwf)].
  - destruct tr as [|i w]; [discriminate|].
    destruct (Z.eq_dec (bits_read_in_byte_ d) 0) as [Hb0 | Hb0].
    { destruct (rx_high i) eqn:Hi.
      - rewrite read_start_bit_high in Hrun by assumption.
        injection Hrun as <- <-.
        erewrite unread_kept; [exact Hlong|reflexivity..].
      - rewrite read_start_bit_low in Hrun by assumption.
        injection Hrun as <- <-.
        erewrite unread_kept; [exact Hlong|reflexivity..]. }
    destruct (Z_le_gt_dec (bits_read_in_byte_ d) 8) as [Hb8 | Hb8].
    { rewrite read_data_bit in Hrun by assumption.
      injection Hrun as <- <-.
      erewrite unread_kept; [exact Hlong|destruct (rx_high i); reflexivity..]. }
    destruct (rx_high i) eqn:Hi.
    + destruct (inv_reading d Hinv Hst) as (fb & Hfb & _).
      destruct (invariant_next_byte d fb Hinv Hst Hfb) as [x Hx].
      destruct (invariant_slot d fb Hinv Hfb) as [Hn _].
      rewrite (read_stop_bit_high d i w fb x) in Hrun by (assumption || lia).
      destruct (waitForRxLow (kClockTicksPerBit * 4) w) as [[r t]| |];
        try discriminate.
      cbn [bind] in Hrun. injection Hrun as <- <-.
      rewrite wrap8_succ_small by (unfold kMaxBytes in Hn; lia).
      apply after_wait_unread; assumption.
    + rewrite read_stop_bit_low in Hrun by (assumption || lia).
      injection Hrun as <- <-.
      erewrite unread_kept; [exact Hlong|reflexivity..].
Qed.

Lemma ISR_unread d tr d' tr' :
  invariant d -> ISR d tr = Ok (d', tr') ->
  Forall long_enough (unread d) -> Forall long_enough (unread d').
Proof.
  intros Hinv Hrun Hlong. unfold ISR in Hrun.
  destruct (handle_isr d tr) as [[d1 t1]| |] eqn:Hh; try discriminate.
  cbn [bind] in Hrun.
  destruct (maybeServiceRxRequest d1) as [d2| |] eqn:Hs; try discriminate.
  cbn [bind] in Hrun. injection Hrun as <- <-.
  pose proof (handle_isr_invariant _ _ _ _ Hinv Hh) as Hinv1.
  destruct (maybeServiceRxRequest_unread _ _ (inv_wf _ Hinv1) Hs) as [-> _].
  exact (handle_isr_unread _ _ _ _ Hinv Hh Hlong).
Qed.

Lemma readNextFrame_unread d buffer :
  Forall long_enough (unread d) ->
  Forall long_enough (unread (readNextFrame buffer d).2)
  /\ ((readNextFrame buffer d).1.1 = true ->
      long_enough (readNextFrame buffer d).1.2).
Proof.
  intros Hlong. unfold readNextFrame, unread in *.
  destruct (request_buffer_has_data d) eqn:Hd; cbn.
  - apply Forall_cons in Hlong as [Hrb Hq]. auto.
  - rewrite Hd. split; [exact Hlong | discriminate].
Qed.

Lemma steps_unread d d' :
  steps d d' -> invariant d -> Forall long_enough (unread d) ->
  invariant d' /\ Forall long_enough (unread d').
Proof.
  induction 1 as [d|d tr d1 tr1 d' Hrun _ IH|d buffer d' _ IH|d d' _ IH];
    intros Hinv Hlong.
  - auto.
  - apply IH.
    + exact (ISR_invariant _ _ _ _ Hinv Hrun).
    + exact (ISR_unread _ _ _ _ Hinv Hrun Hlong).
  - apply IH.
    + unfold readNextFrame. destruct (request_buffer_has_data d); [|exact Hinv].
      apply (invariant_kept d); auto.
    + apply readNextFrame_unread, Hlong.
  - apply IH.
    + apply (invariant_kept d); auto.
    + erewrite unread_kept; [exact Hlong|reflexivity..].
Qed.

Lemma reachable_unread d : reachable d -> Forall long_enough (unread d).
Proof.
  induction 1 as [|d tr d' tr' Hr IH Hrun|d buffer _ IH|d _ IH].
  - constructor.
  - exact (ISR_unread _ _ _ _ (reachable_invariant d Hr) Hrun IH).
  - apply readNextFrame_unread, IH.
  - erewrite unread_kept; [exact IH|reflexivity..].
Qed.

(** ** C6: a frame that is too short *)

(** C6. When the wait after a byte times out and the frame then holds
    fewer than four bytes, the interrupt sets the error flag, leaves
    [head] where it was, goes back to break detection, and the frames
    still to be read by the main program are exactly those of before:
    the short frame is not among them, and with nothing else unread
    [readNextFrame] returns false.  Whatever happens afterwards, a frame
    returned by [readNextFrame] has at least four bytes when the frames
    unread so far had. *)
Theorem short_frame_discarded d i w tr' fb :
  invariant d -> at_stop_bit d -> rx_high i = true ->
  current_slot d = Some fb ->
  waitForRxLow (kClockTicksPerBit * 4) w = Ok (false, tr') ->
  num_bytes fb + 1 < 4 ->
  exists d',
    ISR d (i :: w) = Ok (d', tr')
    /\ error_flag d' = true
    /\ state d' = DETECT_BREAK
    /\ head_frame_buffer d' = head_frame_buffer d
    /\ unread d' = unread d
    /\ (unread d = [] ->
        forall buffer, readNextFrame buffer d' = (false, buffer, d'))
    /\ (Forall long_enough (unread d) ->
        forall d'' buffer,
          steps d' d'' ->
          (readNextFrame buffer d'').1.1 = true ->
          long_enough (readNextFrame buffer d'').1.2).
Proof.
  intros Hinv Hstop Hi Hfb Hw Hshort.
  destruct (ISR_stop_bit d i w fb false tr' Hinv Hstop Hi Hfb Hw)
    as (_ & d' & Hrun & Hs & Hinv1).
  exists d'. split; [exact Hrun|].
  destruct Hstop as [Hst _].
  destruct (inv_reading d Hinv Hst) as (fb' & Hfb' & _ & Hread).
  rewrite Hfb in Hfb'. injection Hfb' as <-.
  destruct (invariant_slot d fb Hinv Hfb) as [Hn _].
  assert (Heq : after_wait false (num_bytes fb + 1) (store_byte fb d)
                = StateDetectBreak_enter (setErrorFlag (store_byte fb d))).
  { unfold after_wait. cbn [negb].
    replace (bytes_read_ (store_byte fb d)) with (num_bytes fb + 1).
    - destruct (Z.ltb_spec (num_bytes fb + 1) 4); [reflexivity | lia].
    - unfold store_byte. fields. rewrite Hread.
      symmetry. apply wrap8_succ_small. unfold kMaxBytes in Hn. lia. }
  rewrite Heq in Hs, Hinv1.
  destruct (maybeServiceRxRequest_total _ (inv_wf _ Hinv1))
    as (d2 & Hs2 & Hsame & _).
  rewrite Hs in Hs2. injection Hs2 as <-.
  destruct Hsame as (_ & Hh & Hst' & _ & _ & _ & _ & _ & He).
  destruct (maybeServiceRxRequest_unread _ _ (inv_wf _ Hinv1) Hs)
    as [Hun _].
  assert (Hun' : unread d' = unread d).
  { rewrite Hun. unfold unread. fields. f_equal.
    change (queued (StateDetectBreak_enter (setErrorFlag (store_byte fb d))))
      with (queued (store_byte fb d)).
    apply queued_store_byte, (inv_wf d Hinv). }
  split; [rewrite He; reflexivity|]. split; [rewrite Hst'; reflexivity|].
  split; [rewrite Hh; reflexivity|]. split; [exact Hun'|]. split.
  - intros Hnil buffer. apply readNextFrame_idle, unread_nil_not_ready.
    rewrite Hun'. exact Hnil.
  - intros Hlong d'' buffer Hsteps. rewrite <- Hun' in Hlong.
    destruct (steps_unread d' d'' Hsteps (ISR_invariant _ _ _ _ Hinv Hrun) Hlong)
      as [_ Hlong''].
    exact (proj2 (readNextFrame_unread d'' buffer Hlong'')).
Qed.

Lemma short_frame_discarded_witness :
  invariant (state_after 39 (frame_trace [1; 2; 3]))
  /\ at_stop_bit (state_after 39 (frame_trace [1; 2; 3]))
  /\ current_slot (state_after 39 (frame_trace [1; 2; 3]))
     = Some (mkRxFrameBuffer 2 [1; 2; 0; 0; 0; 0; 0; 0; 0; 0; 0])
  /\ waitForRxLow (kClockTicksPerBit * 4) end_of_frame_trace = Ok (false, [])
  /\ exists d',
      ISR (state_after 39 (frame_trace [1; 2; 3]))
        (high_sample :: end_of_frame_trace) = Ok (d', [])
      /\ error_flag d' = true
      /\ state d' = DETECT_BREAK
      /\ head_frame_buffer d'
         = head_frame_buffer (state_after 39 (frame_trace [1; 2; 3]))
      /\ unread d' = unread (state_after 39 (frame_trace [1; 2; 3]))
      /\ (unread (state_after 39 (frame_trace [1; 2; 3])) = [] ->
          forall buffer, readNextFrame buffer d' = (false, buffer, d'))
      /\ (Forall long_enough (unread (state_after 39 (frame_trace [1; 2; 3]))) ->
          forall d'' buffer,
            steps d' d'' ->
            (readNextFrame buffer d'').1.1 = true ->
            long_enough (readNextFrame buffer d'').1.2).
Proof.
  assert (Hinv : invariant (state_after 39 (frame_trace [1; 2; 3])))
    by apply reachable_invariant, state_after_reachable.
  assert (Hstop : at_stop_bit (state_after 39 (frame_trace [1; 2; 3])))
    by (split; vm_compute; reflexivity).
  assert (Hfb : current_slot (state_after 39 (frame_trace [1; 2; 3]))
                = Some (mkRxFrameBuffer 2 [1; 2; 0; 0; 0; 0; 0; 0; 0; 0; 0]))
    by (vm_compute; reflexivity).
  assert (Hw : waitForRxLow (kClockTicksPerBit * 4) end_of_frame_trace
               = Ok (false, []))
    by (vm_compute; reflexivity).
  repeat (split; [assumption|]).
  apply (short_frame_discarded _ high_sample _ _ _ Hinv Hstop eq_refl Hfb Hw).
  simpl. lia.
Defined.

Lemma after_wait_slots r stored d :
  rx_frame_buffers (after_wait r stored d) = rx_frame_buffers d.
Proof.
  unfold after_wait. rewrite incrementHeadFrameBuffer_eq.
  repeat case_match; rewrite ?incrementTailFrameBuffer_eq; reflexivity.
Qed.

(** ** The interrupt of the stop bit, in full *)

Lemma stop_bit_outcome_transfer r fb d d1 d' :
  stop_bit_outcome r fb d d1 ->
  state d' = state d1 -> low_bits_counter_ d' = low_bits_counter_ d1 ->
  bits_read_in_byte_ d' = bits_read_in_byte_ d1 ->
  error_flag d' = error_flag d1 ->
  head_frame_buffer d' = head_frame_buffer d1 ->
  unread d' = unread d1 ->
  stop_bit_outcome r fb d d'.
Proof.
  unfold stop_bit_outcome. intros H Hs Hc Hb He Hh Hu.
  rewrite Hs, Hc, Hb, He, Hh, Hu. exact H.
Qed.

Lemma after_wait_outcome r d fb :
  invariant d -> state d = READ_DATA -> current_slot d = Some fb ->
  stop_bit_outcome r fb d
    (after_wait r (num_bytes fb + 1) (store_byte fb d)).
Proof.
  intros Hinv Hst Hfb.
  pose proof (inv_wf d Hinv) as Hwf.
  destruct (inv_reading d Hinv Hst) as (fb' & Hfb' & _ & Hread).
  rewrite Hfb in Hfb'. injection Hfb' as <-.
  destruct (invariant_slot d fb Hinv Hfb) as [Hn _].
  pose proof (unread_store_byte fb d Hwf) as Hus.
  assert (Hbr : bytes_read_ (store_byte fb d) = num_bytes fb + 1).
  { unfold store_byte. fields. rewrite Hread.
    apply wrap8_succ_small. unfold kMaxBytes in Hn. lia. }
  unfold stop_bit_outcome, after_wait.
  rewrite Hbr, incrementHeadFrameBuffer_eq.
  destruct r; cbn [negb].
  { destruct (kMaxBytes <=? num_bytes fb + 1).
    - repeat (split; [reflexivity|]). rewrite <- Hus.
      apply unread_kept; reflexivity.
    - repeat (split; [reflexivity || exact Hst|]). exact Hus. }
  split; [destruct (_ <? 4); [reflexivity|];
          destruct (_ =? _); rewrite ?incrementTailFrameBuffer_eq; reflexivity|].
  split; [destruct (_ <? 4); [reflexivity|];
          destruct (_ =? _); rewrite ?incrementTailFrameBuffer_eq; reflexivity|].
  destruct (Z.ltb_spec (num_bytes fb + 1) 4) as [Hshort|Hok].
  { repeat (split; [reflexivity|]). rewrite <- Hus.
    apply unread_kept; reflexivity. }
  assert (Hslots : length (rx_frame_buffers (store_byte fb d))
                   = Z.to_nat kMaxFrameBuffers).
  { unfold store_byte. fields. rewrite length_insert. exact (wf_slots d Hwf). }
  pose proof (store_byte_slot fb d Hinv Hfb) as Hslot.
  pose proof (queued_store_byte fb d Hwf) as Hq. unfold queued in Hq at 1.
  change (head_frame_buffer (store_byte fb d)) with (head_frame_buffer d) in *.
  change (tail_frame_buffer (store_byte fb d)) with (tail_frame_buffer d) in *.
  cbn [tail_frame_buffer set_head_frame_buffer head_frame_buffer].
  change (tail_frame_buffer (store_byte fb d)) with (tail_frame_buffer d).
  destruct (Z.eqb_spec (tail_frame_buffer d) (ring_next (head_frame_buffer d)))
    as [Hfull|Hroom].
  - rewrite incrementTailFrameBuffer_eq. fields.
    split; [reflexivity|]. split; [reflexivity|].
    unfold unread, queued at 1. fields.
    change (tail_frame_buffer (store_byte fb d)) with (tail_frame_buffer d).
    change (request_buffer_has_data (store_byte fb d))
      with (request_buffer_has_data d).
    change (request_buffer (store_byte fb d)) with (request_buffer d).
    destruct (ring_slice_overrun _ (head_frame_buffer d) (tail_frame_buffer d)
                _ Hslots (wf_head d Hwf) (wf_tail d Hwf) Hslot (eq_sym Hfull))
      as [Hq' _].
    rewrite Hq', Hq. reflexivity.
  - fields. split; [reflexivity|]. split; [reflexivity|].
    unfold unread, queued at 1. fields.
    change (tail_frame_buffer (store_byte fb d)) with (tail_frame_buffer d).
    change (request_buffer_has_data (store_byte fb d))
      with (request_buffer_has_data d).
    change (request_buffer (store_byte fb d)) with (request_buffer d).
    rewrite (ring_slice_enqueue _ (head_frame_buffer d) _ _ Hslots
               (wf_head d Hwf) (wf_tail d Hwf) Hslot) by congruence.
    rewrite Hq, app_assoc. reflexivity.
Qed.

Lemma ISR_stop_bit_spec d i w fb r tr' :
  invariant d -> at_stop_bit d -> rx_high i = true ->
  current_slot d = Some fb ->
  waitForRxLow (kClockTicksPerBit * 4) w = Ok (r, tr') ->
  exists d',
    ISR d (i :: w) = Ok (d', tr')
    /\ invariant d'
    /\ rx_frame_buffers d'
       = <[Z.to_nat (head_frame_buffer d) := completed_frame fb d]>
           (rx_frame_buffers d)
    /\ stop_bit_outcome r fb d d'.
Proof.
  intros Hinv Hstop Hi Hfb Hw.
  destruct (ISR_stop_bit d i w fb r tr' Hinv Hstop Hi Hfb Hw)
    as (Hwrap & d' & Hrun & Hs & Hinv1).
  exists d'. split; [exact Hrun|].
  split; [exact (ISR_invariant _ _ _ _ Hinv Hrun)|].
  destruct (maybeServiceRxRequest_total _ (inv_wf _ Hinv1))
    as (d2 & Hs2 & Hsame & _).
  rewrite Hs in Hs2. injection Hs2 as <-.
  destruct Hsame as (Hsl & Hh & Hst & Hc & _ & Hb & _ & _ & He).
  destruct (maybeServiceRxRequest_unread _ _ (inv_wf _ Hinv1) Hs) as [Hun _].
  split.
  - rewrite Hsl, after_wait_slots. unfold store_byte, completed_frame. fields.
    rewrite Hwrap. reflexivity.
  - apply (stop_bit_outcome_transfer r fb d _ d'
             (after_wait_outcome r d fb Hinv (proj1 Hstop) Hfb));
      assumption.
Qed.

(** ** The two kinds of interrupt *)

(** Every interrupt is of one of two kinds: it keeps [head] and the
    unread frames, touching the error flag only to raise it on a start
    or stop bit violation; or it sampled a high stop bit and is
    described by [stop_bit_outcome]. *)
Lemma ISR_cases d tr d' tr' :
  invariant d -> ISR d tr = Ok (d', tr') ->
  (head_frame_buffer d' = head_frame_buffer d
   /\ unread d' = unread d
   /\ (error_flag d' = error_flag d
       \/ (error_flag d' = true /\ state d' = DETECT_BREAK
           /\ exists i w, tr = i :: w
                /\ state d = READ_DATA
                /\ ((bits_read_in_byte_ d = 0 /\ rx_high i = true)
                    \/ (8 < bits_read_in_byte_ d /\ rx_high i = false)))))
  \/ (exists i w fb r,
        tr = i :: w /\ at_stop_bit d /\ rx_high i = true
        /\ current_slot d = Some fb
        /\ waitForRxLow (kClockTicksPerBit * 4) w = Ok (r, tr')
        /\ stop_bit_outcome r fb d d').
Proof.
  intros Hinv Hrun. pose proof (inv_wf d Hinv) as Hwf.
  assert (Hquiet : forall d1,
            handle_isr d tr = Ok (d1, tr') ->
            head_frame_buffer d1 = head_frame_buffer d ->
            unread d1 = unread d ->
            head_frame_buffer d' = head_frame_buffer d
            /\ unread d' = unread d /\ error_flag d' = error_flag d1
            /\ state d' = state d1).
  { intros d1 Hh Hh1 Hu1.
    destruct (ISR_after_handler d tr d1 tr' Hinv Hh)
      as (d2 & Hrun2 & Hs & Hsame & Hinv1).
    rewrite Hrun in Hrun2. injection Hrun2 as <-.
    destruct Hsame as (_ & Hh2 & Hst2 & _ & _ & _ & _ & _ & He2).
    destruct (maybeServiceRxRequest_unread _ _ (inv_wf _ Hinv1) Hs) as [Hu2 _].
    repeat split; congruence. }
  assert (Hh : exists d1, handle_isr d tr = Ok (d1, tr')).
  { unfold ISR in Hrun.
    destruct (handle_isr d tr) as [[d1 t1]| |]; try discriminate.
    cbn [bind] in Hrun.
    destruct (maybeServiceRxRequest d1); try discriminate.
    cbn [bind] in Hrun. injection Hrun as _ <-. eauto. }
  destruct Hh as [d1 Hh]. specialize (Hquiet d1 Hh).
  unfold handle_isr in Hh. destruct (state d) eqn:Hst.
  - left. unfold StateDetectBreak_handle_isr in Hh.
    destruct tr as [|i w]; [discriminate|]. cbn [isRxHigh bind] in Hh.
    destruct (rx_high i).
    { injection Hh as <- <-.
      destruct Hquiet as (? & ? & ? & _); [reflexivity..|]. auto. }
    fields. destruct (_ <? 10).
    { injection Hh as <- <-.
      destruct Hquiet as (? & ? & ? & _); [reflexivity..|]. auto. }
    destruct (waitForRxHigh 255 w) as [[r t]| |]; try discriminate.
    cbn [bind] in Hh.
    assert (Hwf1 : wf (set_low_bits_counter_
                         (wrap8 (low_bits_counter_ d + 1)) d))
      by (destruct Hwf; constructor; assumption).
    destruct (StateReadData_enter_spec _ t Hwf1) as (fb & _ & Heq).
    rewrite Heq in Hh.
    destruct (waitForRxLow 255 t) as [[r' t']| |]; try discriminate.
    cbn [bind] in Hh. injection Hh as <- <-.
    destruct Hquiet as (? & ? & ? & _); [reflexivity| |auto].
    unfold unread, queued. fields.
    rewrite ring_slice_insert_head;
      [reflexivity | exact (wf_slots d Hwf) | exact (wf_head d Hwf)
       | exact (wf_tail d Hwf)].
  - destruct tr as [|i w]; [discriminate|].
    destruct (Z.eq_dec (bits_read_in_byte_ d) 0) as [Hb0 | Hb0].
    { left. destruct (rx_high i) eqn:Hi.
      - rewrite read_start_bit_high in Hh by assumption.
        injection Hh as <- <-.
        destruct Hquiet as (? & ? & He & Hs'); [reflexivity..|].
        split; [assumption|]. split; [assumption|]. right.
        split; [exact He|]. split; [exact Hs'|]. eauto 10.
      - rewrite read_start_bit_low in Hh by assumption.
        injection Hh as <- <-.
        destruct Hquiet as (? & ? & ? & _); [reflexivity..|]. auto. }
    destruct (Z_le_gt_dec (bits_read_in_byte_ d) 8) as [Hb8 | Hb8].
    { left. rewrite read_data_bit in Hh by assumption.
      injection Hh as <- <-.
      destruct Hquiet as (? & ? & He & _);
        [destruct (rx_high i); reflexivity..|].
      split; [assumption|]. split; [assumption|]. left.
      rewrite He. destruct (rx_high i); reflexivity. }
    destruct (rx_high i) eqn:Hi.
    + right. destruct (inv_reading d Hinv Hst) as (fb & Hfb & _).
      destruct (invariant_next_byte d fb Hinv Hst Hfb) as [x Hx].
      rewrite (read_stop_bit_high d i w fb x) in Hh by (assumption || lia).
      destruct (waitForRxLow (kClockTicksPerBit * 4) w) as [[r t]| |] eqn:Hw;
        try discriminate.
      cbn [bind] in Hh. injection Hh as _ <-.
      assert (Hstop : at_stop_bit d) by (split; [exact Hst | lia]).
      destruct (ISR_stop_bit_spec d i w fb r t Hinv Hstop Hi Hfb Hw)
        as (d2 & Hrun2 & _ & _ & Hout).
      rewrite Hrun in Hrun2. injection Hrun2 as <-.
      exists i, w, fb, r. auto 10.
    + left. rewrite read_stop_bit_low in Hh by (assumption || lia).
      injection Hh as <- <-.
      destruct Hquiet as (? & ? & He & Hs'); [reflexivity..|].
      split; [assumption|]. split; [assumption|]. right.
      split; [exact He|]. split; [exact Hs'|].
      exists i, w. split; [reflexivity|]. split; [reflexivity|].
      right. split; [lia | exact Hi].
Qed.

(** Fewer than seven unread frames leave room in the ring. *)
Lemma room_of_unread d :
  wf d -> (length (unread d) < 7)%nat ->
  tail_frame_buffer d <> ring_next (head_frame_buffer d).
Proof.
  intros Hwf Hlen Hfull.
  destruct (wf_lookup_slot d (head_frame_buffer d) Hwf (wf_head d Hwf))
    as (fb & Hfb & _).
  destruct (ring_slice_overrun _ _ _ fb (wf_slots d Hwf) (wf_head d Hwf)
              (wf_tail d Hwf) Hfb (eq_sym Hfull)) as [_ Hseven].
  unfold unread in Hlen. rewrite length_app in Hlen.
  unfold queued in Hlen. lia.
Qed.

(** With the line idle and the main program polling once per
    interrupt, the unread frames are received oldest first, each once,
    and the polls left over receive nothing. *)
Lemma poll_frames_idle_longer n : forall d (idle rest : trace),
  wf d -> state d = DETECT_BREAK -> serviced d ->
  (length (unread d) <= n)%nat -> length idle = n ->
  Forall (fun i => rx_high i = true) idle ->
  exists d', poll_frames n d (idle ++ rest) = Ok (unread d, (d', rest))
             /\ unread d' = [] /\ state d' = DETECT_BREAK.
Proof.
  induction n as [|n IH]; intros d idle rest Hwf Hst Hserv Hlen Hidle Hhigh.
  - destruct idle; [|discriminate]. destruct (unread d) eqn:Hu;
      [|cbn in Hlen; lia].
    exists d. cbn. rewrite Hu. auto.
  - destruct idle as [|i idle]; [discriminate|].
    injection Hidle as Hidle. apply Forall_cons in Hhigh as [Hi Hhigh].
    set (d1 := (readNextFrame zero_frame d).2).
    assert (Hd1 : wf d1 /\ state d1 = DETECT_BREAK
                  /\ unread d
                     = (if (readNextFrame zero_frame d).1.1
                        then [(readNextFrame zero_frame d).1.2] else [])
                       ++ unread d1).
    { subst d1. unfold readNextFrame, unread.
      destruct (request_buffer_has_data d) eqn:Hd; cbn.
      - split; [destruct Hwf; constructor; assumption|]. auto.
      - rewrite Hd. auto. }
    destruct Hd1 as (Hwf1 & Hst1 & Hu1).
    assert (Hstep : handle_isr d1 ((i :: idle) ++ rest)
                    = Ok (set_low_bits_counter_ 0 d1, idle ++ rest)).
    { unfold handle_isr. rewrite Hst1.
      unfold StateDetectBreak_handle_isr. cbn [app isRxHigh bind].
      rewrite Hi. reflexivity. }
    assert (Hwf1' : wf (set_low_bits_counter_ 0 d1))
      by (destruct Hwf1; constructor; assumption).
    destruct (maybeServiceRxRequest_total _ Hwf1')
      as (d2 & Hs & Hsame & Hwf2 & _).
    destruct (maybeServiceRxRequest_unread _ _ Hwf1' Hs) as [Hun Hserv2].
    change (unread (set_low_bits_counter_ 0 d1)) with (unread d1) in Hun.
    destruct Hsame as (_ & _ & Hst2 & _).
    destruct (IH d2 idle rest) as (d' & Hpoll & Hend & Hst'); try assumption.
    + rewrite Hst2. exact Hst1.
    + rewrite Hun. rewrite Hu1, length_app in Hlen.
      destruct ((readNextFrame zero_frame d).1.1) eqn:Hgot; [cbn in Hlen; lia|].
      (* nothing was ready: nothing was unread *)
      assert (Hd : request_buffer_has_data d = false).
      { unfold readNextFrame in Hgot.
        destruct (request_buffer_has_data d); [discriminate | reflexivity]. }
      assert (Hnil : unread d = [])
        by (unfold unread; rewrite Hd, (Hserv Hd); reflexivity).
      rewrite Hnil in Hu1. cbn in Hu1. rewrite <- Hu1. cbn. lia.
    + exists d'. split; [|auto].
      cbn [poll_frames].
      destruct (readNextFrame zero_frame d) as [[got buffer] d1'] eqn:Hread.
      subst d1. cbn [snd fst] in *.
      unfold ISR. rewrite Hstep. cbn [bind]. rewrite Hs. cbn [bind].
      rewrite Hpoll. cbn [bind]. rewrite Hu1, Hun. reflexivity.
Qed.

(** ** C3: a frame is handed over exactly once *)

Lemma ISR_serviced d tr d' tr' :
  invariant d -> ISR d tr = Ok (d', tr') -> serviced d'.
Proof.
  intros Hinv Hrun. unfold ISR in Hrun.
  destruct (handle_isr d tr) as [[d1 t1]| |] eqn:Hh; try discriminate.
  cbn [bind] in Hrun.
  destruct (maybeServiceRxRequest d1) as [d2| |] eqn:Hs; try discriminate.
  cbn [bind] in Hrun. injection Hrun as <- _.
  exact (proj2 (maybeServiceRxRequest_unread d1 d2
                  (inv_wf _ (handle_isr_invariant _ _ _ _ Hinv Hh)) Hs)).
Qed.

(** An interrupt that leaves [head] where it is leaves the unread
    frames as they are. *)
Lemma ISR_same_head_unread d tr d' tr' :
  invariant d -> ISR d tr = Ok (d', tr') ->
  head_frame_buffer d' = head_frame_buffer d -> unread d' = unread d.
Proof.
  intros Hinv Hrun Hhead.
  destruct (ISR_cases _ _ _ _ Hinv Hrun)
    as [(_ & Hu & _) | (i & w & fb & r & _ & _ & _ & _ & _ & Hout)];
    [exact Hu|].
  unfold stop_bit_outcome in Hout.
  destruct r.
  - destruct (kMaxBytes <=? num_bytes fb + 1); apply Hout.
  - destruct Hout as (_ & _ & Hout).
    destruct (num_bytes fb + 1 <? 4); [apply Hout|].
    destruct Hout as [Hmoved _]. exfalso.
    apply (ring_next_moves (head_frame_buffer d)).
    + exact (wf_head d (inv_wf d Hinv)).
    + congruence.
Qed.

(** A frame that is unread while no other frame completes is returned
    behind the frames that were unread before it, and what was returned
    is no longer unread. *)
Lemma returns_meanwhile_unread d out d' :
  returns_meanwhile d out d' -> invariant d ->
  invariant d' /\ unread d = out ++ unread d'.
Proof.
  induction 1 as [d|d tr d1 tr1 out d' Hrun Hhead _ IH|d buffer out d' _ IH
                  |d out d' _ IH]; intros Hinv.
  - auto.
  - destruct (IH (ISR_invariant _ _ _ _ Hinv Hrun)) as [Hinv' Hu].
    split; [exact Hinv'|].
    rewrite <- Hu. symmetry.
    exact (ISR_same_head_unread _ _ _ _ Hinv Hrun Hhead).
  - assert (Hr : invariant (readNextFrame buffer d).2
                 /\ unread d
                    = (if (readNextFrame buffer d).1.1
                       then [(readNextFrame buffer d).1.2] else [])
                      ++ unread (readNextFrame buffer d).2).
    { unfold readNextFrame, unread.
      destruct (request_buffer_has_data d) eqn:Hd; cbn [fst snd].
      - split; [apply (invariant_kept d); auto | reflexivity].
      - rewrite Hd. auto. }
    destruct Hr as [Hinv1 Hu1]. destruct (IH Hinv1) as [Hinv' Hu].
    split; [exact Hinv'|]. rewrite Hu1, Hu, app_assoc. reflexivity.
  - destruct IH as [Hinv' Hu]; [apply (invariant_kept d); auto|].
    split; [exact Hinv'|]. rewrite <- Hu.
    symmetry. apply unread_kept; reflexivity.
Qed.

(** With a single frame unread, the next interrupt finds it in the
    hand-off slot or puts it there. *)
Lemma ISR_hands_over_last d f tr d' tr' :
  invariant d -> unread d = [f] -> ISR d tr = Ok (d', tr') ->
  request_buffer_has_data d' = true /\ request_buffer d' = f.
Proof.
  intros Hinv Hu Hrun.
  pose proof (ISR_serviced _ _ _ _ Hinv Hrun) as Hserv.
  assert (Hroom : tail_frame_buffer d <> ring_next (head_frame_buffer d)).
  { apply room_of_unread; [exact (inv_wf d Hinv)|]. rewrite Hu. cbn. lia. }
  assert (Hu' : exists rest, unread d' = f :: rest).
  { destruct (ISR_cases _ _ _ _ Hinv Hrun)
      as [(_ & Hu' & _) | (i & w & fb & r & _ & _ & _ & _ & _ & Hout)].
    - exists []. congruence.
    - unfold stop_bit_outcome in Hout. destruct r.
      + exists []. rewrite <- Hu.
        destruct (kMaxBytes <=? num_bytes fb + 1); apply Hout.
      + destruct Hout as (_ & _ & Hout).
        destruct (num_bytes fb + 1 <? 4).
        * exists []. rewrite <- Hu. apply Hout.
        * destruct Hout as [_ Hout].
          destruct (Z.eqb_spec (tail_frame_buffer d)
                      (ring_next (head_frame_buffer d))); [contradiction|].
          destruct Hout as [_ ->]. rewrite Hu. eauto. }
  destruct Hu' as [rest Hu']. unfold unread in Hu'.
  destruct (request_buffer_has_data d') eqn:Hd.
  - injection Hu' as -> _. auto.
  - rewrite (Hserv Hd) in Hu'. discriminate.
Qed.

(** C3. A frame completed with at least four bytes is enqueued behind
    the frames not yet read ([earlier]: all of them while the ring has
    room, all but the oldest queued one otherwise).  It is returned:
    with the line idle and one call of [readNextFrame] per interrupt,
    the calls return [earlier], then the frame, then nothing.  It is
    returned once: as long as no other frame completes, and whatever
    interrupts and calls happen, the frames returned by [readNextFrame]
    followed by the frames still unread are [earlier] and then the
    frame.  Once the frames before it have all been returned, every
    interrupt leaves the frame in the hand-off slot and the call that
    finds it there returns it; once it has been returned itself, every
    call returns false. *)
Theorem frame_handed_over_exactly_once d i w tr' fb :
  invariant d -> at_stop_bit d -> rx_high i = true ->
  current_slot d = Some fb ->
  waitForRxLow (kClockTicksPerBit * 4) w = Ok (false, tr') ->
  4 <= num_bytes fb + 1 ->
  exists d' earlier,
    ISR d (i :: w) = Ok (d', tr')
    /\ head_frame_buffer d' = ring_next (head_frame_buffer d)
    /\ unread d' = earlier ++ [completed_frame fb d]
    /\ (ring_next (head_frame_buffer d) <> tail_frame_buffer d ->
        earlier = unread d)
    /\ (ring_next (head_frame_buffer d) = tail_frame_buffer d ->
        earlier = (if request_buffer_has_data d then [request_buffer d] else [])
                  ++ tail (queued d))
    /\ (forall n (idle rest : trace),
          (length earlier < n)%nat -> length idle = n ->
          Forall (fun i => rx_high i = true) idle ->
          exists d'',
            poll_frames n d' (idle ++ rest)
            = Ok (earlier ++ [completed_frame fb d], (d'', rest))
            /\ unread d'' = [])
    /\ (forall out d'',
         returns_meanwhile d' out d'' ->
         earlier ++ [completed_frame fb d] = out ++ unread d''
         /\ (length out = length earlier ->
             (forall tr d3 tr3,
                ISR d'' tr = Ok (d3, tr3) ->
                request_buffer_has_data d3 = true
                /\ request_buffer d3 = completed_frame fb d)
             /\ (request_buffer_has_data d'' = true ->
                 forall buffer,
                   readNextFrame buffer d''
                   = (true, completed_frame fb d,
                      set_request_buffer_has_data false d'')))
         /\ ((length earlier < length out)%nat ->
             forall buffer, readNextFrame buffer d'' = (false, buffer, d''))).
Proof.
  intros Hinv Hstop Hi Hfb Hw Hlong.
  destruct (ISR_stop_bit_spec d i w fb false tr' Hinv Hstop Hi Hfb Hw)
    as (d' & Hrun & Hinv' & _ & Hout).
  unfold stop_bit_outcome in Hout. destruct Hout as (Hst' & _ & Hout).
  destruct (Z.ltb_spec (num_bytes fb + 1) 4); [lia|].
  destruct Hout as [Hhead Hout].
  assert (Hu : exists earlier,
             unread d' = earlier ++ [completed_frame fb d]
             /\ (ring_next (head_frame_buffer d) <> tail_frame_buffer d ->
                 earlier = unread d)
             /\ (ring_next (head_frame_buffer d) = tail_frame_buffer d ->
                 earlier
                 = (if request_buffer_has_data d then [request_buffer d] else [])
                   ++ tail (queued d))).
  { destruct (Z.eqb_spec (tail_frame_buffer d)
                (ring_next (head_frame_buffer d))) as [Hfull|Hroom].
    - destruct Hout as [_ ->]. rewrite app_assoc. eexists.
      split; [reflexivity|]. split; [congruence | reflexivity].
    - destruct Hout as [_ ->]. exists (unread d).
      split; [reflexivity|]. split; [reflexivity | congruence]. }
  destruct Hu as (earlier & Hu & Hearlier & Hover).
  exists d', earlier. do 5 (split; [assumption|]).
  split.
  { intros n idle rest Hn Hidle Hhigh.
    destruct (poll_frames_idle_longer n d' idle rest (inv_wf d' Hinv') Hst'
                (ISR_serviced _ _ _ _ Hinv Hrun))
      as (d'' & Hpoll & Hnone & _); [|exact Hidle | exact Hhigh|].
    - rewrite Hu, length_app. cbn [length]. lia.
    - exists d''. rewrite <- Hu. auto. }
  intros out d'' Hmean.
  destruct (returns_meanwhile_unread _ _ _ Hmean Hinv') as [Hinv'' Hsplit].
  rewrite Hu in Hsplit. split; [exact Hsplit|]. split.
  - intros Hlen.
    assert (Hlast : unread d'' = [completed_frame fb d]).
    { apply app_inj_1 in Hsplit as [_ Hlast]; [auto | auto]. }
    split.
    + intros tr d3 tr3 Hrun3.
      exact (ISR_hands_over_last _ _ _ _ _ Hinv'' Hlast Hrun3).
    + intros Hd buffer. unfold readNextFrame. rewrite Hd.
      unfold unread in Hlast. rewrite Hd in Hlast.
      injection Hlast as -> _. reflexivity.
  - intros Hlen buffer. apply readNextFrame_idle, unread_nil_not_ready.
    apply (f_equal length) in Hsplit. rewrite !length_app in Hsplit.
    cbn [length] in Hsplit.
    destruct (unread d''); [reflexivity | cbn [length] in Hsplit; lia].
Qed.

Lemma frame_handed_over_exactly_once_witness :
  invariant second_frame_pending
  /\ at_stop_bit second_frame_pending
  /\ current_slot second_frame_pending
     = Some (mkRxFrameBuffer 3 [5; 6; 7; 0; 0; 0; 0; 0; 0; 0; 0])
  /\ waitForRxLow (kClockTicksPerBit * 4) end_of_frame_trace = Ok (false, [])
  /\ exists d',
      ISR second_frame_pending (high_sample :: end_of_frame_trace)
      = Ok (d', [])
      /\ unread d'
         = [mkRxFrameBuffer 4 [1; 2; 3; 4; 0; 0; 0; 0; 0; 0; 0]]
           ++ [mkRxFrameBuffer 4 [5; 6; 7; 8; 0; 0; 0; 0; 0; 0; 0]]
      /\ (exists d'',
            poll_frames 3 d' (replicate 3 high_sample ++ [])
            = Ok ([mkRxFrameBuffer 4 [1; 2; 3; 4; 0; 0; 0; 0; 0; 0; 0]]
                  ++ [mkRxFrameBuffer 4 [5; 6; 7; 8; 0; 0; 0; 0; 0; 0; 0]],
                  (d'', []))
            /\ unread d'' = [])
      /\ forall out d'',
           returns_meanwhile d' out d'' ->
           [mkRxFrameBuffer 4 [1; 2; 3; 4; 0; 0; 0; 0; 0; 0; 0]]
           ++ [mkRxFrameBuffer 4 [5; 6; 7; 8; 0; 0; 0; 0; 0; 0; 0]]
           = out ++ unread d''
           /\ ((1 < length out)%nat ->
               forall buffer,
                 readNextFrame buffer d'' = (false, buffer, d'')).
Proof.
  assert (Hinv : invariant second_frame_pending)
    by apply reachable_invariant, state_after_reachable.
  assert (Hstop : at_stop_bit second_frame_pending)
    by (split; vm_compute; reflexivity).
  assert (Hfb : current_slot second_frame_pending
                = Some (mkRxFrameBuffer 3 [5; 6; 7; 0; 0; 0; 0; 0; 0; 0; 0]))
    by (vm_compute; reflexivity).
  assert (Hw : waitForRxLow (kClockTicksPerBit * 4) end_of_frame_trace
               = Ok (false, []))
    by (vm_compute; reflexivity).
  repeat (split; [assumption|]).
  destruct (frame_handed_over_exactly_once _ high_sample _ _ _
              Hinv Hstop eq_refl Hfb Hw)
    as (d' & earlier & Hrun & _ & Hu & Hearlier & _ & Hpoll & Honce);
    [simpl; lia|].
  assert (He : earlier = [mkRxFrameBuffer 4 [1; 2; 3; 4; 0; 0; 0; 0; 0; 0; 0]]).
  { rewrite Hearlier; [vm_compute; reflexivity | vm_compute; discriminate]. }
  subst earlier.
  exists d'. split; [exact Hrun|]. split; [exact Hu|].
  split.
  { apply (Hpoll 3%nat (replicate 3 high_sample) []);
      [cbn [length]; lia | reflexivity | repeat constructor]. }
  intros out d'' Hmean.
  destruct (Honce out d'' Hmean) as (Hsplit & _ & Hnone).
  split; [exact Hsplit | exact Hnone].
Defined.

(** ** C4: overrun of the ring *)

(** With the line idle and the main program polling, the unread frames
    are received oldest first, each once. *)
Lemma poll_frames_idle n : forall d (idle rest : trace),
  wf d -> state d = DETECT_BREAK -> serviced d ->
  length (unread d) = n -> length idle = n ->
  Forall (fun i => rx_high i = true) idle ->
  exists d', poll_frames n d (idle ++ rest) = Ok (unread d, (d', rest))
             /\ unread d' = [].
Proof.
  induction n as [|n IH]; intros d idle rest Hwf Hst Hserv Hlen Hidle Hhigh.
  - destruct idle; [|discriminate]. destruct (unread d) eqn:Hu; [|discriminate].
    exists d. simpl. auto.
  - destruct idle as [|i idle]; [discriminate|].
    injection Hidle as Hidle. apply Forall_cons in Hhigh as [Hi Hhigh].
    destruct (request_buffer_has_data d) eqn:Hd.
    2: { unfold unread in Hlen. rewrite Hd, (Hserv Hd) in Hlen. discriminate. }
    assert (Hu : unread d = request_buffer d :: queued d)
      by (unfold unread; rewrite Hd; reflexivity).
    rewrite Hu in Hlen. injection Hlen as Hlen.
    cbn [poll_frames]. unfold readNextFrame. rewrite Hd.
    assert (Hstep : handle_isr (set_request_buffer_has_data false d)
                      ((i :: idle) ++ rest)
                    = Ok (set_low_bits_counter_ 0
                            (set_request_buffer_has_data false d),
                          idle ++ rest)).
    { unfold handle_isr. fields. rewrite Hst.
      unfold StateDetectBreak_handle_isr. cbn [app isRxHigh bind].
      rewrite Hi. reflexivity. }
    assert (Hwf1 : wf (set_low_bits_counter_ 0
                         (set_request_buffer_has_data false d)))
      by (destruct Hwf; constructor; assumption).
    destruct (maybeServiceRxRequest_total _ Hwf1) as (d2 & Hs & Hsame & Hwf2 & _).
    destruct (maybeServiceRxRequest_unread _ _ Hwf1 Hs) as [Hun Hserv2].
    destruct Hsame as (_ & _ & Hst2 & _).
    destruct (IH d2 idle rest) as (d' & Hpoll & Hend); try assumption.
    + rewrite Hst2. exact Hst.
    + rewrite Hun. exact Hlen.
    + exists d'. split; [|exact Hend].
      unfold ISR. rewrite Hstep. cbn [bind]. rewrite Hs. cbn [bind].
      rewrite Hpoll. cbn [bind]. rewrite Hu, Hun. reflexivity.
Qed.

(** C4. When a frame of at least four bytes completes while the
    hand-off slot is taken and the ring holds seven frames (eight unread
    frames), [head] advances onto [tail], the error flag is set and
    [tail] advances as well: the oldest queued frame is dropped and no
    other.  The main program then receives the frame of the hand-off
    slot, the six younger queued frames and the new frame, in this
    order. *)
Theorem overrun_drops_oldest_queued d i w tr' fb :
  invariant d -> at_stop_bit d -> rx_high i = true ->
  current_slot d = Some fb ->
  waitForRxLow (kClockTicksPerBit * 4) w = Ok (false, tr') ->
  4 <= num_bytes fb + 1 ->
  request_buffer_has_data d = true ->
  ring_next (head_frame_buffer d) = tail_frame_buffer d ->
  length (unread d) = 8%nat
  /\ exists d',
      ISR d (i :: w) = Ok (d', tr')
      /\ head_frame_buffer d' = tail_frame_buffer d
      /\ error_flag d' = true
      /\ tail_frame_buffer d' = ring_next (tail_frame_buffer d)
      /\ unread d'
         = request_buffer d :: tail (queued d) ++ [completed_frame fb d]
      /\ forall idle rest,
           length idle = 8%nat ->
           Forall (fun i => rx_high i = true) idle ->
           exists d'',
             poll_frames 8 d' (idle ++ rest)
             = Ok (request_buffer d :: tail (queued d) ++ [completed_frame fb d],
                   (d'', rest)).
Proof.
  intros Hinv Hstop Hi Hfb Hw Hlong Hd Hfull.
  destruct (ISR_stop_bit d i w fb false tr' Hinv Hstop Hi Hfb Hw)
    as (_ & d' & Hrun & Hs & Hinv1).
  destruct Hstop as [Hst _].
  destruct (inv_reading d Hinv Hst) as (fb' & Hfb' & _ & Hread).
  rewrite Hfb in Hfb'. injection Hfb' as <-.
  destruct (invariant_slot d fb Hinv Hfb) as [Hn _].
  pose proof (inv_wf d Hinv) as Hwf.
  assert (Heq : after_wait false (num_bytes fb + 1) (store_byte fb d)
                = StateDetectBreak_enter
                    (set_tail_frame_buffer (ring_next (tail_frame_buffer d))
                       (setErrorFlag
                          (set_head_frame_buffer
                             (ring_next (head_frame_buffer d))
                             (store_byte fb d))))).
  { unfold after_wait. cbn [negb].
    replace (bytes_read_ (store_byte fb d)) with (num_bytes fb + 1).
    - destruct (Z.ltb_spec (num_bytes fb + 1) 4); [lia|].
      rewrite incrementHeadFrameBuffer_eq.
      unfold store_byte at 1 2 3. fields.
      destruct (Z.eqb_spec (tail_frame_buffer d)
                  (ring_next (head_frame_buffer d))); [|congruence].
      rewrite incrementTailFrameBuffer_eq. fields. reflexivity.
    - unfold store_byte. fields. rewrite Hread.
      symmetry. apply wrap8_succ_small. unfold kMaxBytes in Hn. lia. }
  rewrite Heq in Hs, Hinv1.
  rewrite maybeServiceRxRequest_idle in Hs by (left; exact Hd).
  injection Hs as <-.
  destruct (ring_slice_overrun (rx_frame_buffers (store_byte fb d))
              (head_frame_buffer d) (tail_frame_buffer d)
              (completed_frame fb d)) as [Hq Hseven].
  { unfold store_byte. fields. rewrite length_insert. exact (wf_slots d Hwf). }
  { exact (wf_head d Hwf). }
  { exact (wf_tail d Hwf). }
  { apply store_byte_slot; assumption. }
  { exact Hfull. }
  pose proof (queued_store_byte fb d Hwf) as Hsame.
  unfold queued in Hsame at 1.
  change (tail_frame_buffer (store_byte fb d)) with (tail_frame_buffer d) in Hsame.
  change (head_frame_buffer (store_byte fb d)) with (head_frame_buffer d) in Hsame.
  rewrite Hsame in Hq, Hseven.
  assert (Hun : unread
                  (StateDetectBreak_enter
                     (set_tail_frame_buffer (ring_next (tail_frame_buffer d))
                        (setErrorFlag
                           (set_head_frame_buffer
                              (ring_next (head_frame_buffer d))
                              (store_byte fb d)))))
                = request_buffer d :: tail (queued d) ++ [completed_frame fb d]).
  { unfold unread, queued at 1. fields.
    change (request_buffer_has_data (store_byte fb d))
      with (request_buffer_has_data d).
    change (request_buffer (store_byte fb d)) with (request_buffer d).
    rewrite Hd, Hq. reflexivity. }
  assert (Hlen8 : length (unread d) = 8%nat).
  { unfold unread. rewrite Hd. cbn [app length]. rewrite Hseven. reflexivity. }
  split; [exact Hlen8|].
  eexists. split; [exact Hrun|]. fields.
  split; [exact Hfull|]. split; [reflexivity|]. split; [reflexivity|].
  split; [exact Hun|].
  intros idle rest Hidle Hhigh.
  destruct (poll_frames_idle 8 _ idle rest (inv_wf _ Hinv1)) as (d'' & Hpoll & _);
    try assumption.
  - reflexivity.
  - intros Hfalse. fields.
    change (request_buffer_has_data (store_byte fb d))
      with (request_buffer_has_data d) in Hfalse. congruence.
  - rewrite Hun. cbn [length]. rewrite length_app. cbn [length].
    destruct (queued d); [discriminate|]. cbn [tail]. cbn [length] in Hseven.
    lia.
  - exists d''. rewrite Hpoll, Hun. reflexivity.
Qed.

Lemma overrun_drops_oldest_queued_witness :
  invariant ninth_frame_pending
  /\ at_stop_bit ninth_frame_pending
  /\ current_slot ninth_frame_pending
     = Some (mkRxFrameBuffer 3 [90; 91; 92; 13; 0; 0; 0; 0; 0; 0; 0])
  /\ waitForRxLow (kClockTicksPerBit * 4) end_of_frame_trace = Ok (false, [])
  /\ unread ninth_frame_pending
     = map example_frame [10; 20; 30; 40; 50; 60; 70; 80]
  /\ exists d',
      ISR ninth_frame_pending (high_sample :: end_of_frame_trace) = Ok (d', [])
      /\ error_flag d' = true
      /\ unread d' = map example_frame [10; 30; 40; 50; 60; 70; 80; 90]
      /\ exists d'',
          poll_frames 8 d' (replicate 8 high_sample)
          = Ok (map example_frame [10; 30; 40; 50; 60; 70; 80; 90], (d'', [])).
Proof.
  assert (Hinv : invariant ninth_frame_pending)
    by apply reachable_invariant, state_after_reachable.
  assert (Hstop : at_stop_bit ninth_frame_pending)
    by (split; vm_compute; reflexivity).
  assert (Hfb : current_slot ninth_frame_pending
                = Some (mkRxFrameBuffer 3 [90; 91; 92; 13; 0; 0; 0; 0; 0; 0; 0]))
    by (vm_compute; reflexivity).
  assert (Hw : waitForRxLow (kClockTicksPerBit * 4) end_of_frame_trace
               = Ok (false, []))
    by (vm_compute; reflexivity).
  assert (Hu : unread ninth_frame_pending
               = map example_frame [10; 20; 30; 40; 50; 60; 70; 80])
    by (vm_compute; reflexivity).
  repeat (split; [assumption|]).
  destruct (overrun_drops_oldest_queued _ high_sample _ _ _
              Hinv Hstop eq_refl Hfb Hw)
    as (_ & d' & Hrun & _ & Herr & _ & Hun & Hfifo).
  - simpl. lia.
  - vm_compute. reflexivity.
  - vm_compute. reflexivity.
  - assert (Hleft : request_buffer ninth_frame_pending
                    :: tail (queued ninth_frame_pending)
                       ++ [completed_frame
                             (mkRxFrameBuffer 3
                                [90; 91; 92; 13; 0; 0; 0; 0; 0; 0; 0])
                             ninth_frame_pending]
                    = map example_frame [10; 30; 40; 50; 60; 70; 80; 90])
      by (vm_compute; reflexivity).
    rewrite Hleft in Hun.
    exists d'. split; [exact Hrun|]. split; [exact Herr|]. split; [exact Hun|].
    destruct (Hfifo (replicate 8 high_sample) []) as (d'' & Hpoll).
    + reflexivity.
    + repeat constructor.
    + exists d''. rewrite app_nil_r, Hleft in Hpoll. exact Hpoll.
Defined.

(** ** C7: no break, no frame *)

Lemma has_break_suffix (before samples : list bool) :
  has_break samples -> has_break (before ++ samples).
Proof.
  intros (p & q & ->). exists (before ++ p), q. rewrite app_assoc. reflexivity.
Qed.

Lemma replicate_low_snoc n (samples : list bool) :
  replicate n false ++ false :: samples = replicate (S n) false ++ samples.
Proof.
  induction n as [|n IH]; [reflexivity|].
  cbn [replicate app]. f_equal. exact IH.
Qed.

Lemma ten_lows_break n (samples : list bool) :
  (10 <= n)%nat -> has_break (replicate n false ++ samples).
Proof.
  intros Hn. exists (replicate (n - 10) false), samples.
  rewrite app_assoc, <- replicate_add. do 2 f_equal. lia.
Qed.

(** One interrupt of break detection below the threshold: the counter
    follows the run of low samples and nothing else moves. *)
Lemma ISR_detect_break_quiet d i tr c :
  wf d -> state d = DETECT_BREAK -> low_bits_counter_ d = Z.of_nat c ->
  (rx_high i = false -> (c + 1 < 10)%nat) ->
  exists d',
    ISR d (i :: tr) = Ok (d', tr)
    /\ wf d' /\ state d' = DETECT_BREAK
    /\ low_bits_counter_ d' = (if rx_high i then 0 else Z.of_nat (S c))
    /\ head_frame_buffer d' = head_frame_buffer d
    /\ unread d' = unread d.
Proof.
  intros Hwf Hst Hc Hlow.
  set (d1 := set_low_bits_counter_
               (if rx_high i then 0 else Z.of_nat (S c)) d).
  assert (Hh : handle_isr d (i :: tr) = Ok (d1, tr)).
  { unfold handle_isr, StateDetectBreak_handle_isr. rewrite Hst.
    cbn [isRxHigh bind]. subst d1. destruct (rx_high i); [reflexivity|].
    fields. rewrite Hc.
    assert (Hw : wrap8 (Z.of_nat c + 1) = Z.of_nat (S c)).
    { unfold wrap8. rewrite Z.mod_small; specialize (Hlow eq_refl); lia. }
    rewrite Hw.
    destruct (Z.ltb_spec (Z.of_nat (S c)) 10); [reflexivity|].
    specialize (Hlow eq_refl). lia. }
  assert (Hwf1 : wf d1) by (destruct Hwf; constructor; assumption).
  destruct (maybeServiceRxRequest_total d1 Hwf1) as (d' & Hs & Hsame & Hwf' & _).
  destruct (maybeServiceRxRequest_unread d1 d' Hwf1 Hs) as [Hun _].
  destruct Hsame as (_ & Hh' & Hst' & Hc' & _).
  exists d'. unfold ISR. rewrite Hh. cbn [bind]. rewrite Hs. cbn [bind].
  split; [reflexivity|]. split; [exact Hwf'|].
  split; [rewrite Hst'; exact Hst|]. split; [rewrite Hc'; reflexivity|].
  split; [rewrite Hh'; reflexivity|]. rewrite Hun. reflexivity.
Qed.

Lemma ISR_run_no_break n : forall d (tr : trace) c,
  wf d -> state d = DETECT_BREAK -> low_bits_counter_ d = Z.of_nat c ->
  ~ has_break (replicate c false ++ map rx_high tr) ->
  (n <= length tr)%nat ->
  exists d',
    ISR_run n d tr = Ok (d', drop n tr)
    /\ state d' = DETECT_BREAK
    /\ head_frame_buffer d' = head_frame_buffer d
    /\ unread d' = unread d.
Proof.
  induction n as [|n IH]; intros d tr c Hwf Hst Hc Hnb Hn.
  - exists d. rewrite drop_0. auto.
  - destruct tr as [|i tr]; [simpl in Hn; lia|].
    simpl in Hn. cbn [map] in Hnb.
    assert (Hlow : rx_high i = false -> (c + 1 < 10)%nat).
    { intros Hi. rewrite Hi, replicate_low_snoc in Hnb.
      destruct (le_lt_dec 10 (S c)) as [Hge|Hlt]; [|lia].
      exfalso. apply Hnb, ten_lows_break, Hge. }
    destruct (ISR_detect_break_quiet d i tr c Hwf Hst Hc Hlow)
      as (d1 & Hrun & Hwf1 & Hst1 & Hc1 & Hh1 & Hun1).
    destruct (IH d1 tr (if rx_high i then O else S c)) as (d' & Hrest & Hst' & Hh' & Hun');
      try assumption.
    + rewrite Hc1. destruct (rx_high i); reflexivity.
    + intros Hb. apply Hnb. destruct (rx_high i).
      * apply (has_break_suffix (replicate c false ++ [true])) in Hb.
        rewrite <- app_assoc in Hb. exact Hb.
      * rewrite replicate_low_snoc. exact Hb.
    + lia.
    + exists d'. cbn [ISR_run]. rewrite Hrun. cbn [bind drop].
      split; [exact Hrest|]. split; [exact Hst'|].
      split; congruence.
Qed.

(** C7. A receiver that has just entered break detection, with no
    frame waiting to be read, and that is fed samples among which there
    are never ten consecutive low ones, is in break detection after
    every step, never moves [head] (no frame is enqueued), and
    [readNextFrame] returns false after every step. *)
Theorem no_break_no_frame d (tr : trace) :
  wf d -> state d = DETECT_BREAK -> low_bits_counter_ d = 0 ->
  unread d = [] ->
  ~ has_break (map rx_high tr) ->
  forall n, (n <= length tr)%nat ->
    exists d',
      ISR_run n d tr = Ok (d', drop n tr)
      /\ state d' = DETECT_BREAK
      /\ head_frame_buffer d' = head_frame_buffer d
      /\ forall buffer, readNextFrame buffer d' = (false, buffer, d').
Proof.
  intros Hwf Hst Hc Hun Hnb n Hn.
  destruct (ISR_run_no_break n d tr O Hwf Hst Hc Hnb Hn)
    as (d' & Hrun & Hst' & Hh' & Hun').
  exists d'. split; [exact Hrun|]. split; [exact Hst'|]. split; [exact Hh'|].
  intros buffer. apply readNextFrame_idle, unread_nil_not_ready. congruence.
Qed.

Lemma no_break_no_frame_witness :
  wf initial
  /\ ~ has_break
         (map rx_high
            (replicate 9 low_sample ++ [high_sample; low_sample; low_sample]))
  /\ exists d',
      ISR_run 12 initial
        (replicate 9 low_sample ++ [high_sample; low_sample; low_sample])
      = Ok (d', [])
      /\ state d' = DETECT_BREAK
      /\ head_frame_buffer d' = head_frame_buffer initial
      /\ forall buffer, readNextFrame buffer d' = (false, buffer, d').
Proof.
  assert (Hwf : wf initial) by exact (inv_wf _ invariant_initial).
  assert (Hnb : ~ has_break
         (map rx_high
            (replicate 9 low_sample ++ [high_sample; low_sample; low_sample]))).
  { intros (p & q & Heq). cbn in Heq.
    repeat (destruct p as [|? p];
            [cbn in Heq; discriminate | cbn in Heq; injection Heq as _ Heq]).
    destruct p; cbn in Heq; discriminate. }
  split; [exact Hwf|]. split; [exact Hnb|].
  apply (no_break_no_frame initial _ Hwf eq_refl eq_refl eq_refl Hnb 12%nat).
  simpl. lia.
Defined.

(** ** C1: the ten samples of a byte *)

Lemma ISR_run_app n m : forall d tr,
  ISR_run (n + m) d tr
  = let* (d1, tr1) := ISR_run n d tr in ISR_run m d1 tr1.
Proof.
  induction n as [|n IH]; intros d tr; [reflexivity|].
  cbn [Nat.add ISR_run]. destruct (ISR d tr) as [[d1 tr1]| |]; cbn [bind];
    [apply IH | reflexivity | reflexivity].
Qed.

(** Collecting bit [k] of [b] on top of its [k] low bits. *)
Lemma accumulate_bit b k :
  0 <= k ->
  (if Z.testbit b k then Z.lor (b mod 2 ^ k) (2 ^ k) else b mod 2 ^ k)
  = b mod 2 ^ (k + 1).
Proof.
  intros Hk. apply Z.bits_inj'. intros n Hn.
  assert (Hbit : Z.testbit (b mod 2 ^ (k + 1)) n
                 = if n <? k + 1 then Z.testbit b n else false).
  { destruct (Z.ltb_spec n (k + 1)).
    - apply Z.mod_pow2_bits_low. lia.
    - apply Z.mod_pow2_bits_high. lia. }
  assert (Hlow : Z.testbit (b mod 2 ^ k) n
                 = if n <? k then Z.testbit b n else false).
  { destruct (Z.ltb_spec n k).
    - apply Z.mod_pow2_bits_low. lia.
    - apply Z.mod_pow2_bits_high. lia. }
  rewrite Hbit. destruct (Z.testbit b k) eqn:Hb.
  - rewrite Z.lor_spec, Hlow, Z.pow2_bits_eqb by lia.
    destruct (Z.ltb_spec n k), (Z.ltb_spec n (k + 1)), (Z.eqb_spec k n);
      try lia; subst; rewrite ?orb_false_r; auto.
  - rewrite Hlow.
    destruct (Z.ltb_spec n k), (Z.ltb_spec n (k + 1)); try lia; auto.
    assert (n = k) by lia. subst. auto.
Qed.

Lemma ISR_data_bit h slots b k d i tr :
  collecting h slots b k d -> 0 <= k < 8 -> rx_high i = Z.testbit b k ->
  exists d', ISR d (i :: tr) = Ok (d', tr) /\ collecting h slots b (k + 1) d'.
Proof.
  intros (Hinv & Hst & Hh & Hs & Hbits & Hbuf & Hmask) Hk Hi.
  specialize (Hmask (proj2 Hk)).
  assert (Hstep : handle_isr d (i :: tr)
                  = Ok (set_bits_read_in_byte_ (k + 1 + 1)
                          (set_byte_buffer_bit_mask_ (wrap8 (2 ^ (k + 1)))
                             (set_byte_buffer_ (b mod 2 ^ (k + 1)) d)), tr)).
  { unfold handle_isr. rewrite Hst, read_data_bit by lia.
    rewrite Hbits, Hmask, Hbuf, Hi, <- (accumulate_bit b k) by lia.
    rewrite wrap8_succ_small by lia.
    rewrite Z.shiftl_mul_pow2, Z.pow_add_r, Z.pow_1_r by lia.
    destruct (Z.testbit b k); [reflexivity|].
    destruct d; cbn in *; subst; reflexivity. }
  destruct (ISR_after_handler d _ _ _ Hinv Hstep)
    as (d' & Hrun & _ & Hsame & Hinv1).
  pose proof (ISR_invariant _ _ _ _ Hinv Hrun) as Hinv'.
  destruct Hsame as (Hs' & Hh' & Hst' & _ & _ & Hb' & Hbb' & Hm' & _).
  exists d'. split; [exact Hrun|]. fields.
  split; [exact Hinv'|]. do 5 (split; [congruence|]).
  intros Hk'. rewrite Hm'. unfold wrap8. apply Z.mod_small.
  split; [apply Z.pow_nonneg; lia|].
  change 256 with (2 ^ 8). apply Z.pow_lt_mono_r; lia.
Qed.

Lemma ISR_run_data_bits h slots b j : forall d (tr rest : trace),
  (j <= 8)%nat ->
  collecting h slots b (8 - Z.of_nat j) d ->
  map rx_high tr
  = map (fun n => Z.testbit b (Z.of_nat n)) (seq (8 - j) j) ->
  exists d', ISR_run j d (tr ++ rest) = Ok (d', rest)
             /\ collecting h slots b 8 d'.
Proof.
  induction j as [|j IH]; intros d tr rest Hj Hcol Htr.
  - destruct tr; [|discriminate]. exists d. split; [reflexivity|].
    rewrite Z.sub_0_r in Hcol. exact Hcol.
  - destruct tr as [|i tr]; [discriminate|].
    cbn [seq map] in Htr. injection Htr as Hi Htr.
    destruct (ISR_data_bit h slots b (8 - Z.of_nat (S j)) d i (tr ++ rest))
      as (d1 & Hrun & Hcol1); [exact Hcol | lia | |].
    { rewrite Hi. f_equal. lia. }
    destruct (IH d1 tr rest) as (d' & Hrest & Hcol'); [lia | | |].
    + replace (8 - Z.of_nat j) with (8 - Z.of_nat (S j) + 1) by lia.
      exact Hcol1.
    + rewrite Htr. f_equal. f_equal. lia.
    + exists d'. cbn [app ISR_run]. rewrite Hrun. cbn [bind]. auto.
Qed.

(** C1. In the read-data state at bit position 0, the ten samples of a
    byte [b] (a low start bit, the eight bits of [b] least significant
    first with a high sample for a 1, a high stop bit) make ten
    interrupts after which the current frame slot holds [b] at the
    index of its old byte count and its byte count is one more; the
    rest of the ring is untouched.  The last of the ten interrupts ends
    with the wait for the next start bit, whatever its outcome [r]. *)
Theorem byte_samples_append_byte d b (smp w : trace) r tr' fb :
  invariant d -> state d = READ_DATA -> bits_read_in_byte_ d = 0 ->
  0 <= b < 256 ->
  map rx_high smp = byte_samples b ->
  current_slot d = Some fb ->
  waitForRxLow (kClockTicksPerBit * 4) w = Ok (r, tr') ->
  exists d',
    ISR_run 10 d (smp ++ w) = Ok (d', tr')
    /\ rx_frame_buffers d'
       = <[Z.to_nat (head_frame_buffer d) :=
             mkRxFrameBuffer (num_bytes fb + 1)
               (<[Z.to_nat (num_bytes fb) := b]> (bytes fb))]>
           (rx_frame_buffers d).
Proof.
  intros Hinv Hst Hbits Hb Hsmp Hfb Hw.
  unfold byte_samples in Hsmp.
  destruct smp as [|s0 smp]; [discriminate|].
  change (map rx_high (s0 :: smp)) with (rx_high s0 :: map rx_high smp) in Hsmp.
  pose proof (f_equal (hd false) Hsmp) as Hs0.
  apply (f_equal tail) in Hsmp. cbn [hd tail] in Hs0, Hsmp.
  apply map_eq_app in Hsmp as (dat & stop & -> & Hdat & Hstop).
  destruct stop as [|s9 [|? ?]]; try discriminate.
  cbn [map] in Hstop. injection Hstop as Hs9.
  (* the start bit *)
  assert (Hstart : handle_isr d (s0 :: (dat ++ [s9]) ++ w)
                   = Ok (set_byte_buffer_bit_mask_ 1
                           (set_byte_buffer_ 0 (set_bits_read_in_byte_ 1 d)),
                         (dat ++ [s9]) ++ w)).
  { unfold handle_isr. rewrite Hst. apply read_start_bit_low; assumption. }
  destruct (ISR_after_handler d _ _ _ Hinv Hstart)
    as (d1 & Hrun1 & _ & Hsame1 & _).
  pose proof (ISR_invariant _ _ _ _ Hinv Hrun1) as Hinv1.
  destruct Hsame1 as (Hs1 & Hh1 & Hst1 & _ & _ & Hb1 & Hbb1 & Hm1 & _).
  fields.
  assert (Hcol : collecting (head_frame_buffer d) (rx_frame_buffers d) b
                   (8 - Z.of_nat 8) d1).
  { split; [exact Hinv1|]. do 3 (split; [congruence|]).
    split; [rewrite Hb1; reflexivity|].
    split; [rewrite Hbb1; symmetry; apply Z.mod_1_r|].
    intros _. rewrite Hm1. reflexivity. }
  (* the eight data bits *)
  destruct (ISR_run_data_bits _ _ b 8 d1 dat ([s9] ++ w) (le_n 8) Hcol Hdat)
    as (d2 & Hrun2 & Hinv2 & Hst2 & Hh2 & Hs2 & Hbits2 & Hbuf2 & _).
  (* the stop bit *)
  assert (Hfb2 : current_slot d2 = Some fb)
    by (unfold current_slot in *; rewrite Hs2, Hh2; exact Hfb).
  assert (Hstop2 : at_stop_bit d2) by (split; [exact Hst2 | lia]).
  destruct (ISR_stop_bit d2 s9 w fb r tr' Hinv2 Hstop2 Hs9 Hfb2 Hw)
    as (Hwrap & d' & Hrun3 & Hserv & Hinv3).
  destruct (maybeServiceRxRequest_total _ (inv_wf _ Hinv3))
    as (d3 & Hserv' & Hsame3 & _).
  rewrite Hserv in Hserv'. injection Hserv' as <-.
  destruct Hsame3 as (Hs3 & _).
  exists d'. split.
  - change (ISR_run 10 d ((s0 :: dat ++ [s9]) ++ w))
      with (let* (d1, tr1) := ISR d (s0 :: (dat ++ [s9]) ++ w) in
            ISR_run (8 + 1) d1 tr1).
    rewrite Hrun1. cbn [bind].
    rewrite ISR_run_app, <- app_assoc, Hrun2. cbn [bind].
    change (ISR_run 1 d2 ([s9] ++ w))
      with (let* (d3, tr3) := ISR d2 (s9 :: w) in Ok (d3, tr3)).
    rewrite Hrun3. reflexivity.
  - rewrite Hs3, after_wait_slots. unfold store_byte. fields.
    rewrite Hwrap, Hs2, Hh2, Hbuf2.
    change (2 ^ 8) with 256. rewrite Z.mod_small by exact Hb. reflexivity.
Qed.

Lemma byte_samples_append_byte_witness :
  invariant (state_after 10 break_trace)
  /\ map rx_high (byte_trace 165)
     = [false; true; false; true; false; false; true; false; true; true]
  /\ current_slot (state_after 10 break_trace)
     = Some (mkRxFrameBuffer 0 [0; 0; 0; 0; 0; 0; 0; 0; 0; 0; 0])
  /\ waitForRxLow (kClockTicksPerBit * 4) next_byte_trace = Ok (true, [])
  /\ exists d',
      ISR_run 10 (state_after 10 break_trace)
        (byte_trace 165 ++ next_byte_trace) = Ok (d', [])
      /\ rx_frame_buffers d' !! 0%nat
         = Some (mkRxFrameBuffer 1 [165; 0; 0; 0; 0; 0; 0; 0; 0; 0; 0]).
Proof.
  assert (Hinv : invariant (state_after 10 break_trace))
    by apply reachable_invariant, state_after_reachable.
  assert (Hsmp : map rx_high (byte_trace 165) = byte_samples 165)
    by (vm_compute; reflexivity).
  assert (Hfb : current_slot (state_after 10 break_trace)
                = Some (mkRxFrameBuffer 0 [0; 0; 0; 0; 0; 0; 0; 0; 0; 0; 0]))
    by (vm_compute; reflexivity).
  assert (Hw : waitForRxLow (kClockTicksPerBit * 4) next_byte_trace
               = Ok (true, []))
    by (vm_compute; reflexivity).
  split; [exact Hinv|]. split; [vm_compute; reflexivity|].
  split; [exact Hfb|]. split; [exact Hw|].
  destruct (byte_samples_append_byte (state_after 10 break_trace) 165
              (byte_trace 165) next_byte_trace true []
              (mkRxFrameBuffer 0 [0; 0; 0; 0; 0; 0; 0; 0; 0; 0; 0])
              Hinv eq_refl eq_refl) as (d' & Hrun & Hslots);
    [lia | exact Hsmp | exact Hfb | exact Hw |].
  exists d'. split; [exact Hrun|]. rewrite Hslots. vm_compute. reflexivity.
Defined.

(** ** C8: the busy waits *)

Lemma waitForRxLow_bounded m k (tr : trace) b0 j :
  tr !! 0%nat = Some b0 -> tr !! (2 * k + 2)%nat = Some j ->
  m <= wrap16 (wrap16 (ticks j) - wrap16 (ticks b0)) ->
  exists r tr', waitForRxLow m tr = Ok (r, tr')
                /\ (length tr <= length tr' + (2 * k + 3))%nat.
Proof.
  intros Hb0 Hj Hm. destruct tr as [|b tr]; [discriminate|].
  injection Hb0 as ->.
  replace (2 * k + 2)%nat with (S (2 * k + 1)) in Hj by lia. simpl in Hj.
  destruct (waitForRxLow_loop_bounded m (wrap16 (ticks b0)) k tr j Hj Hm)
    as (r & tr' & Hrun & Hlen).
  exists r, tr'. split; [exact Hrun | simpl; lia].
Qed.

Lemma waitForRxHigh_bounded m k (tr : trace) b0 j :
  tr !! 0%nat = Some b0 -> tr !! (2 * k + 2)%nat = Some j ->
  m <= wrap16 (wrap16 (ticks j) - wrap16 (ticks b0)) ->
  exists r tr', waitForRxHigh m tr = Ok (r, tr')
                /\ (length tr <= length tr' + (2 * k + 3))%nat.
Proof.
  intros Hb0 Hj Hm. destruct tr as [|b tr]; [discriminate|].
  injection Hb0 as ->.
  replace (2 * k + 2)%nat with (S (2 * k + 1)) in Hj by lia. simpl in Hj.
  destruct (waitForRxHigh_loop_bounded m (wrap16 (ticks b0)) k tr j Hj Hm)
    as (r & tr' & Hrun & Hlen).
  exists r, tr'. split; [exact Hrun | simpl; lia].
Qed.

(** The interrupt that detects a break: two waits in a row, neither
    outcome looked at. *)
Lemma break_detected_waits d i :
  wf d -> state d = DETECT_BREAK -> rx_high i = false ->
  10 <= wrap8 (low_bits_counter_ d + 1) ->
  exists d1,
    state d1 = READ_DATA
    /\ forall w,
         handle_isr d (i :: w)
         = let* (_, t1) := waitForRxHigh 255 w in
           let* (_, t2) := waitForRxLow 255 t1 in
           Ok (d1, t2).
Proof.
  intros Hwf Hst Hi Hc.
  assert (Hwf1 : wf (set_low_bits_counter_ (wrap8 (low_bits_counter_ d + 1)) d))
    by (destruct Hwf; constructor; assumption).
  destruct (StateReadData_enter_spec _ [] Hwf1) as (fb & Hfb & _).
  eexists. split; [|intros w].
  2: { unfold handle_isr, StateDetectBreak_handle_isr. rewrite Hst.
       cbn [isRxHigh bind]. rewrite Hi. fields.
       destruct (Z.ltb_spec (wrap8 (low_bits_counter_ d + 1)) 10); [lia|].
       destruct (waitForRxHigh 255 w) as [[r t1]| |]; try reflexivity.
       cbn [bind]. unfold StateReadData_enter. fields.
       unfold current_slot in Hfb. fields. rewrite Hfb. reflexivity. }
  reflexivity.
Qed.

(** The interrupt that samples a good stop bit goes on reading or ends
    the frame according to the outcome of its wait. *)
Lemma stop_bit_wait_branches d i w fb r tr' :
  invariant d -> at_stop_bit d -> rx_high i = true ->
  current_slot d = Some fb -> num_bytes fb + 1 < kMaxBytes ->
  waitForRxLow (kClockTicksPerBit * 4) w = Ok (r, tr') ->
  exists d', ISR d (i :: w) = Ok (d', tr')
             /\ state d' = (if r then READ_DATA else DETECT_BREAK).
Proof.
  intros Hinv Hstop Hi Hfb Hroom Hw.
  destruct (ISR_stop_bit d i w fb r tr' Hinv Hstop Hi Hfb Hw)
    as (_ & d' & Hrun & Hs & Hinv1).
  destruct (maybeServiceRxRequest_total _ (inv_wf _ Hinv1))
    as (d2 & Hs2 & Hsame & _).
  rewrite Hs in Hs2. injection Hs2 as <-.
  destruct Hsame as (_ & _ & Hst' & _).
  exists d'. split; [exact Hrun|]. rewrite Hst'.
  destruct Hstop as [Hst _].
  unfold after_wait. rewrite incrementHeadFrameBuffer_eq. destruct r; cbn [negb].
  - destruct (Z.leb_spec kMaxBytes (num_bytes fb + 1)); [lia|]. exact Hst.
  - repeat case_match; rewrite ?incrementTailFrameBuffer_eq; reflexivity.
Qed.

(** C8, as amended.  Both busy-wait loops return at the latest with the
    first clock read that shows [maxClockTicks] elapsed ticks.  The
    interrupt that detects a break runs two of them, the wait for the
    line release and the wait for the first start bit, and enters the
    read-data state in one and the same way whatever their outcomes.
    Only the wait after a stop bit is branched on: the receiver goes on
    reading when a start bit was seen in time and leaves the read-data
    state when the wait timed out. *)
Theorem busy_waits_bounded_one_branched_on :
  (forall m k (tr : trace) b0 j,
     tr !! 0%nat = Some b0 -> tr !! (2 * k + 2)%nat = Some j ->
     m <= wrap16 (wrap16 (ticks j) - wrap16 (ticks b0)) ->
     (exists r tr', waitForRxLow m tr = Ok (r, tr')
                    /\ (length tr <= length tr' + (2 * k + 3))%nat)
     /\ (exists r tr', waitForRxHigh m tr = Ok (r, tr')
                       /\ (length tr <= length tr' + (2 * k + 3))%nat))
  /\ (forall d i,
        wf d -> state d = DETECT_BREAK -> rx_high i = false ->
        10 <= wrap8 (low_bits_counter_ d + 1) ->
        exists d1,
          state d1 = READ_DATA
          /\ forall w,
               handle_isr d (i :: w)
               = let* (_, t1) := waitForRxHigh 255 w in
                 let* (_, t2) := waitForRxLow 255 t1 in
                 Ok (d1, t2))
  /\ (forall d i w fb r tr',
        invariant d -> at_stop_bit d -> rx_high i = true ->
        current_slot d = Some fb -> num_bytes fb + 1 < kMaxBytes ->
        waitForRxLow (kClockTicksPerBit * 4) w = Ok (r, tr') ->
        exists d', ISR d (i :: w) = Ok (d', tr')
                   /\ state d' = (if r then READ_DATA else DETECT_BREAK)).
Proof.
  split; [|split].
  - intros m k tr b0 j Hb0 Hj Hm. split.
    + exact (waitForRxLow_bounded m k tr b0 j Hb0 Hj Hm).
    + exact (waitForRxHigh_bounded m k tr b0 j Hb0 Hj Hm).
  - exact break_detected_waits.
  - exact stop_bit_wait_branches.
Qed.

(** C8 as stated fails: the outcome of the wait for the line release
    after a break is not branched on.  From the state in which nine low
    samples were counted, a tenth low sample followed by a line that is
    released at once, and the same followed by a line still low when 255
    ticks have elapsed, give the same decoder. *)
Lemma post_break_outcome_not_branched_on : ~ post_break_outcome_branched_on.
Proof.
  intros Hclaim.
  apply (Hclaim (state_after 9 (replicate 9 low_sample)) low_sample
           ([clock_read 0; high_sample] ++ [clock_read 0; low_sample])
           ([clock_read 0; low_sample; clock_read 255]
              ++ [clock_read 0; low_sample])
           [clock_read 0; low_sample]
           (state_after 10 break_trace, [])
           (state_after 10 break_trace, []));
    try (vm_compute; reflexivity).
  vm_compute. discriminate.
Qed.

Lemma busy_waits_bounded_one_branched_on_witness :
  (255 <= wrap16 (wrap16 (ticks (clock_read 255))
                  - wrap16 (ticks (clock_read 0)))
   /\ exists r tr',
       waitForRxHigh 255 [clock_read 0; low_sample; clock_read 255]
       = Ok (r, tr')
       /\ (length [clock_read 0; low_sample; clock_read 255]
           <= length tr' + (2 * 0 + 3))%nat)
  /\ (invariant (state_after 19 (break_trace ++ byte_trace 165))
      /\ at_stop_bit (state_after 19 (break_trace ++ byte_trace 165))
      /\ waitForRxLow (kClockTicksPerBit * 4) end_of_frame_trace
         = Ok (false, [])
      /\ exists d',
          ISR (state_after 19 (break_trace ++ byte_trace 165))
            (high_sample :: end_of_frame_trace) = Ok (d', [])
          /\ state d' = DETECT_BREAK).
Proof.
  destruct busy_waits_bounded_one_branched_on as (Hbound & _ & Hbranch).
  split.
  - assert (Hm : 255 <= wrap16 (wrap16 (ticks (clock_read 255))
                                - wrap16 (ticks (clock_read 0))))
      by (vm_compute; discriminate).
    split; [exact Hm|].
    exact (proj2 (Hbound 255 0%nat
                    [clock_read 0; low_sample; clock_read 255]
                    (clock_read 0) (clock_read 255) eq_refl eq_refl Hm)).
  - assert (Hinv : invariant (state_after 19 (break_trace ++ byte_trace 165)))
      by apply reachable_invariant, state_after_reachable.
    assert (Hstop : at_stop_bit (state_after 19 (break_trace ++ byte_trace 165)))
      by (split; vm_compute; reflexivity).
    assert (Hw : waitForRxLow (kClockTicksPerBit * 4) end_of_frame_trace
                 = Ok (false, []))
      by (vm_compute; reflexivity).
    repeat (split; [assumption|]).
    apply (Hbranch _ high_sample _
             (mkRxFrameBuffer 0 [0; 0; 0; 0; 0; 0; 0; 0; 0; 0; 0]) false []
             Hinv Hstop eq_refl); [vm_compute; reflexivity | | exact Hw].
    vm_compute. reflexivity.
Defined.

(** ** Two runs at the capacity of a frame *)

(** Eleven bytes and then silence: the frame is handed over whole and
    no error is raised. *)
Example eleven_byte_frame_accepted :
  exists d,
    ISR_run 120 initial (frame_trace [1; 2; 3; 4; 5; 6; 7; 8; 9; 10; 11])
    = Ok (d, [])
    /\ unread d = [mkRxFrameBuffer 11 [1; 2; 3; 4; 5; 6; 7; 8; 9; 10; 11]]
    /\ hasErrors d = false
    /\ state d = DETECT_BREAK.
Proof. eexists. split; [vm_compute; reflexivity|]. repeat split. Qed.

(** Eleven bytes and then the start bit of a twelfth: the error flag is
    raised, the frame is not enqueued and the receiver is back in break
    detection. *)
Example twelfth_byte_rejected :
  exists d,
    ISR_run 120 initial
      (break_trace
       ++ concat (map (fun b => byte_trace b ++ next_byte_trace)
                    [1; 2; 3; 4; 5; 6; 7; 8; 9; 10; 11]))
    = Ok (d, [])
    /\ unread d = []
    /\ head_frame_buffer d = 0
    /\ hasErrors d = true
    /\ state d = DETECT_BREAK.
Proof. eexists. split; [vm_compute; reflexivity|]. repeat split. Qed.

(** * Further properties *)

(** ** Ring indices *)

(** X1. From any [uint8] value an increment of [head] or of [tail]
    lands inside the ring; from inside the ring it is the successor
    modulo [kMaxFrameBuffers], and eight increments lead back to where
    they started. *)
Theorem ring_index_increments d :
  0 <= head_frame_buffer d < 256 -> 0 <= tail_frame_buffer d < 256 ->
  (0 <= head_frame_buffer (incrementHeadFrameBuffer d) < kMaxFrameBuffers
   /\ 0 <= tail_frame_buffer (incrementTailFrameBuffer d) < kMaxFrameBuffers)
  /\ (head_frame_buffer d < kMaxFrameBuffers ->
      head_frame_buffer (incrementHeadFrameBuffer d)
      = (head_frame_buffer d + 1) mod kMaxFrameBuffers
      /\ head_frame_buffer (Nat.iter 8 incrementHeadFrameBuffer d)
         = head_frame_buffer d)
  /\ (tail_frame_buffer d < kMaxFrameBuffers ->
      tail_frame_buffer (incrementTailFrameBuffer d)
      = (tail_frame_buffer d + 1) mod kMaxFrameBuffers
      /\ tail_frame_buffer (Nat.iter 8 incrementTailFrameBuffer d)
         = tail_frame_buffer d).
Proof.
  intros Hh Ht.
  assert (Hland : forall i, 0 <= i < 256 -> 0 <= ring_next i < kMaxFrameBuffers).
  { intros i Hi. unfold ring_next, wrap8, kMaxFrameBuffers.
    destruct (Z.leb_spec 8 ((i + 1) mod 256)); [lia|].
    pose proof (Z.mod_pos_bound (i + 1) 256). lia. }
  assert (Hcycle : forall i, 0 <= i < kMaxFrameBuffers ->
            Nat.iter 8 ring_next i = i).
  { intros i Hi. apply ring_index_cases in Hi.
    decompose [or] Hi; subst; reflexivity. }
  assert (Hiter_h : forall n e,
            head_frame_buffer (Nat.iter n incrementHeadFrameBuffer e)
            = Nat.iter n ring_next (head_frame_buffer e)).
  { induction n as [|n IH]; intros e; [reflexivity|].
    rewrite !Nat.iter_succ, incrementHeadFrameBuffer_eq. fields.
    rewrite IH. reflexivity. }
  assert (Hiter_t : forall n e,
            tail_frame_buffer (Nat.iter n incrementTailFrameBuffer e)
            = Nat.iter n ring_next (tail_frame_buffer e)).
  { induction n as [|n IH]; intros e; [reflexivity|].
    rewrite !Nat.iter_succ, incrementTailFrameBuffer_eq. fields.
    rewrite IH. reflexivity. }
  rewrite incrementHeadFrameBuffer_eq, incrementTailFrameBuffer_eq. fields.
  split; [split; apply Hland; assumption|]. split.
  - intros Hin. split; [apply ring_next_spec; lia|].
    rewrite Hiter_h. apply Hcycle. lia.
  - intros Hin. split; [apply ring_next_spec; lia|].
    rewrite Hiter_t. apply Hcycle. lia.
Qed.

Lemma ring_index_increments_witness :
  (0 <= head_frame_buffer (incrementHeadFrameBuffer
                             (set_head_frame_buffer 7
                                (set_tail_frame_buffer 200 initial)))
   < kMaxFrameBuffers
   /\ 0 <= tail_frame_buffer (incrementTailFrameBuffer
                                (set_head_frame_buffer 7
                                   (set_tail_frame_buffer 200 initial)))
      < kMaxFrameBuffers)
  /\ head_frame_buffer (incrementHeadFrameBuffer
                          (set_head_frame_buffer 7
                             (set_tail_frame_buffer 200 initial))) = 0.
Proof.
  destruct (ring_index_increments
              (set_head_frame_buffer 7 (set_tail_frame_buffer 200 initial)))
    as (Hland & Hhead & _).
  - simpl. lia.
  - simpl. lia.
  - split; [exact Hland|].
    destruct Hhead as [-> _]; [simpl; unfold kMaxFrameBuffers; lia|].
    reflexivity.
Defined.

(** ** The busy waits, in full *)

Lemma waitForRxLow_loop_inverted m base : forall tr,
  waitForRxLow_loop m base (invert_line tr)
  = match waitForRxHigh_loop m base tr with
    | Ok (r, tr') => Ok (r, invert_line tr')
    | Undefined => Undefined
    | Starved => Starved
    end.
Proof.
  fix IH 1. intros [|i [|j tr]]; [reflexivity| |].
  - cbn. rewrite negb_involutive. destruct (rx_high i); reflexivity.
  - cbn [invert_line map waitForRxLow_loop waitForRxHigh_loop rx_high ticks].
    rewrite negb_involutive. destruct (rx_high i); [reflexivity|].
    destruct (m <=? _); [reflexivity|]. apply IH.
Qed.

(** X2. The two busy waits are the same loop with the polarity of the
    line reversed: waiting for low on the inverted line is waiting for
    high on the line, outcome and instants left alike. *)
Theorem waitForRxHigh_mirrors_waitForRxLow m tr :
  waitForRxLow m (invert_line tr)
  = match waitForRxHigh m tr with
    | Ok (r, tr') => Ok (r, invert_line tr')
    | Undefined => Undefined
    | Starved => Starved
    end.
Proof.
  unfold waitForRxLow, waitForRxHigh. destruct tr as [|b tr]; [reflexivity|].
  cbn [invert_line map hardware_ticks_mod_16_bit bind ticks].
  apply waitForRxLow_loop_inverted.
Qed.

Lemma waitForRxLow_loop_sound m base : forall tr r tr',
  waitForRxLow_loop m base tr = Ok (r, tr') ->
  exists used, tr = used ++ tr' /\ waited_for_low m base used r.
Proof.
  fix IH 1. intros [|i [|j tr]] r tr' Hrun; cbn in Hrun; try discriminate.
  - destruct (rx_high i) eqn:Hi; cbn in Hrun; [discriminate|].
    injection Hrun as <- <-. exists [i]. split; [reflexivity|].
    constructor. exact Hi.
  - destruct (rx_high i) eqn:Hi; cbn [negb] in Hrun; cbv iota in Hrun.
    + destruct (Z.leb_spec m (wrap16 (wrap16 (ticks j) - base))) as [Hto|Hgo].
      * injection Hrun as <- <-. exists [i; j]. split; [reflexivity|].
        constructor; assumption.
      * destruct (IH tr r tr' Hrun) as (used & -> & Hw).
        exists (i :: j :: used). split; [reflexivity|].
        constructor; assumption.
    + injection Hrun as <- <-. exists [i]. split; [reflexivity|].
      constructor. exact Hi.
Qed.

Lemma waitForRxLow_loop_complete m base used r :
  waited_for_low m base used r ->
  forall tr', waitForRxLow_loop m base (used ++ tr') = Ok (r, tr').
Proof.
  induction 1 as [i Hi|i j Hi Hto|i j used r Hi Hgo _ IH]; intros tr'.
  - cbn. rewrite Hi. reflexivity.
  - cbn. rewrite Hi. cbn.
    destruct (Z.leb_spec m (wrap16 (wrap16 (ticks j) - base))); [reflexivity|lia].
  - cbn [app waitForRxLow_loop]. rewrite Hi. cbn [negb].
    destruct (Z.leb_spec m (wrap16 (wrap16 (ticks j) - base))); [lia|].
    apply IH.
Qed.

(** X3. [waitForRxLow] returns true exactly when, after its first
    clock read, it read the pin low before any clock read showed
    [maxClockTicks] elapsed ticks, and false exactly when a clock read
    showed the timeout first, the pin having been read high every time:
    the instants it consumes are the first clock read followed by reads
    described by [waited_for_low]. *)
Theorem waitForRxLow_outcome m tr r tr' :
  waitForRxLow m tr = Ok (r, tr')
  <-> exists b0 used,
        tr = b0 :: used ++ tr'
        /\ waited_for_low m (wrap16 (ticks b0)) used r.
Proof.
  unfold waitForRxLow. split.
  - destruct tr as [|b0 tr]; [discriminate|].
    cbn [hardware_ticks_mod_16_bit bind]. intros Hrun.
    destruct (waitForRxLow_loop_sound _ _ _ _ _ Hrun) as (used & -> & Hw).
    exists b0, used. auto.
  - intros (b0 & used & -> & Hw).
    cbn [hardware_ticks_mod_16_bit bind].
    apply waitForRxLow_loop_complete, Hw.
Qed.

Lemma elapsed_ticks_mod t0 e :
  wrap16 (wrap16 (t0 + e) - wrap16 t0) = e mod 65536.
Proof.
  unfold wrap16. rewrite <- Zminus_mod.
  replace (t0 + e - t0) with e by lia. reflexivity.
Qed.

(** X4. The timeout is measured on the ticks elapsed since the wait
    started, taken modulo 65536, whatever the value of the 16 bit clock
    at the start and across its overflow: with the line held high,
    [waitForRxLow] gives up at the first clock read whose elapsed ticks
    modulo 65536 are [maxClockTicks] or more, and not at an earlier
    one.  A clock read a whole turn of the clock late counts for its
    remainder. *)
Theorem waitForRxLow_timeout_across_overflow m t0 early late rest :
  Forall (fun e => e mod 65536 < m) early -> m <= late mod 65536 ->
  waitForRxLow m (clock_read t0 :: high_polls t0 (early ++ [late]) ++ rest)
  = Ok (false, rest).
Proof.
  intros Hearly Hlate. unfold waitForRxLow.
  cbn [hardware_ticks_mod_16_bit bind clock_read ticks].
  induction Hearly as [|e early He _ IH].
  - cbn. rewrite elapsed_ticks_mod.
    destruct (Z.leb_spec m (late mod 65536)); [reflexivity | lia].
  - cbn [app high_polls flat_map waitForRxLow_loop high_sample clock_read
         rx_high ticks negb].
    rewrite elapsed_ticks_mod.
    destruct (Z.leb_spec m (e mod 65536)); [lia|]. exact IH.
Qed.

Lemma waitForRxLow_timeout_across_overflow_witness :
  Forall (fun e => e mod 65536 < 104) [10; 103; 65541]
  /\ waitForRxLow 104
       (clock_read 65500 :: high_polls 65500 ([10; 103; 65541] ++ [104]) ++ [])
     = Ok (false, []).
Proof.
  assert (H : Forall (fun e => e mod 65536 < 104) [10; 103; 65541])
    by (repeat constructor; vm_compute; reflexivity).
  split; [exact H|].
  apply (waitForRxLow_timeout_across_overflow 104 65500 [10; 103; 65541] 104 []);
    [exact H | vm_compute; discriminate].
Defined.

Lemma waitForRxLow_outcome_witness :
  waitForRxLow 255 [clock_read 0; high_sample; clock_read 10; low_sample]
  = Ok (true, []).
Proof.
  apply (proj2 (waitForRxLow_outcome 255
                  [clock_read 0; high_sample; clock_read 10; low_sample]
                  true [])).
  exists (clock_read 0), [high_sample; clock_read 10; low_sample].
  split; [reflexivity|].
  apply waited_on; [reflexivity | vm_compute; reflexivity |].
  apply waited_seen_low. reflexivity.
Defined.

(** ** What an interrupt does to the unread frames and to the flag *)

(** X5. An interrupt changes the unread frames in two ways only: it
    appends one completed frame of four to eleven bytes behind them,
    or, the ring being full with seven queued frames, it does so while
    dropping the oldest queued frame and raising the error flag.  It
    never removes, alters or reorders anything else. *)
Theorem ISR_only_appends d tr d' tr' :
  invariant d -> ISR d tr = Ok (d', tr') ->
  unread d' = unread d
  \/ exists f,
       4 <= num_bytes f <= kMaxBytes
       /\ head_frame_buffer d' = ring_next (head_frame_buffer d)
       /\ (unread d' = unread d ++ [f]
           \/ (error_flag d' = true
               /\ length (queued d) = 7%nat
               /\ unread d'
                  = (if request_buffer_has_data d
                     then [request_buffer d] else [])
                    ++ tail (queued d) ++ [f])).
Proof.
  intros Hinv Hrun.
  destruct (ISR_cases d tr d' tr' Hinv Hrun)
    as [(_ & Hu & _) | (i & w & fb & r & -> & Hstop & Hi & Hfb & Hw & Hout)];
    [left; exact Hu|].
  destruct (inv_reading d Hinv (proj1 Hstop)) as (fb' & Hfb' & Hroom & _).
  rewrite Hfb in Hfb'. injection Hfb' as <-.
  pose proof (inv_wf d Hinv) as Hwf.
  unfold stop_bit_outcome in Hout. destruct r.
  { destruct (kMaxBytes <=? num_bytes fb + 1);
      destruct Hout as (_ & _ & _ & _ & Hu); left; exact Hu. }
  destruct Hout as (_ & _ & Hout).
  destruct (Z.ltb_spec (num_bytes fb + 1) 4) as [Hshort|Hok].
  { destruct Hout as (_ & _ & Hu). left; exact Hu. }
  destruct Hout as (Hh & Hout). right. exists (completed_frame fb d).
  split; [cbn; unfold kMaxBytes in *; lia|]. split; [exact Hh|].
  destruct (Z.eqb_spec (tail_frame_buffer d) (ring_next (head_frame_buffer d)))
    as [Hfull|Hfree].
  - destruct Hout as (He & Hu). right. split; [exact He|]. split; [|exact Hu].
    exact (proj2 (ring_slice_overrun _ _ _ fb (wf_slots d Hwf) (wf_head d Hwf)
                    (wf_tail d Hwf) Hfb (eq_sym Hfull))).
  - destruct Hout as (_ & Hu). left. exact Hu.
Qed.

Lemma ISR_only_appends_witness :
  invariant ninth_frame_pending
  /\ ISR ninth_frame_pending (high_sample :: end_of_frame_trace)
     = Ok (state_after 450
             (eight_frames_trace ++ frame_trace [90; 91; 92; 93]), [])
  /\ (unread (state_after 450
                (eight_frames_trace ++ frame_trace [90; 91; 92; 93]))
      = unread ninth_frame_pending
      \/ exists f,
           4 <= num_bytes f <= kMaxBytes
           /\ head_frame_buffer
                (state_after 450
                   (eight_frames_trace ++ frame_trace [90; 91; 92; 93]))
              = ring_next (head_frame_buffer ninth_frame_pending)
           /\ (unread (state_after 450
                         (eight_frames_trace ++ frame_trace [90; 91; 92; 93]))
               = unread ninth_frame_pending ++ [f]
               \/ (error_flag
                     (state_after 450
                        (eight_frames_trace ++ frame_trace [90; 91; 92; 93]))
                   = true
                   /\ length (queued ninth_frame_pending) = 7%nat
                   /\ unread (state_after 450
                                (eight_frames_trace
                                 ++ frame_trace [90; 91; 92; 93]))
                      = (if request_buffer_has_data ninth_frame_pending
                         then [request_buffer ninth_frame_pending] else [])
                        ++ tail (queued ninth_frame_pending) ++ [f]))).
Proof.
  assert (Hinv : invariant ninth_frame_pending)
    by apply reachable_invariant, state_after_reachable.
  assert (Hrun : ISR ninth_frame_pending (high_sample :: end_of_frame_trace)
                 = Ok (state_after 450
                         (eight_frames_trace ++ frame_trace [90; 91; 92; 93]),
                       []))
    by (vm_compute; reflexivity).
  split; [exact Hinv|]. split; [exact Hrun|].
  exact (ISR_only_appends _ _ _ _ Hinv Hrun).
Defined.

(** X6. No false alarm: an interrupt that finds the error flag clear
    and leaves it set has met one of the five anomalies. *)
Theorem error_flag_raised_only_by_anomaly d tr d' tr' :
  invariant d -> ISR d tr = Ok (d', tr') ->
  error_flag d = false -> error_flag d' = true ->
  anomaly d tr.
Proof.
  intros Hinv Hrun Hclear Hset.
  destruct (ISR_cases d tr d' tr' Hinv Hrun)
    as [(_ & _ & [He | (_ & _ & i & w & -> & Hst & Hv)])
       | (i & w & fb & r & -> & Hstop & Hi & Hfb & Hw & Hout)].
  - congruence.
  - destruct Hv as [[Hb Hi] | [Hb Hi]].
    + exact (start_bit_violation d _ i w Hst Hb eq_refl Hi).
    + exact (stop_bit_violation d _ i w (conj Hst Hb) eq_refl Hi).
  - destruct (inv_reading d Hinv (proj1 Hstop)) as (fb' & Hfb' & Hroom & Hread).
    rewrite Hfb in Hfb'. injection Hfb' as <-.
    destruct (invariant_slot d fb Hinv Hfb) as [Hn _].
    assert (Hwrap : wrap8 (num_bytes fb + 1) = num_bytes fb + 1)
      by (apply wrap8_succ_small; unfold kMaxBytes in *; lia).
    unfold stop_bit_outcome in Hout. destruct r.
    + destruct (Z.leb_spec kMaxBytes (num_bytes fb + 1)) as [Hcap|_].
      * apply (capacity_overflow d _ i w tr' fb Hstop eq_refl Hi Hw Hfb).
        rewrite Hwrap. exact Hcap.
      * destruct Hout as (_ & _ & He & _). congruence.
    + destruct Hout as (_ & _ & Hout).
      destruct (Z.ltb_spec (num_bytes fb + 1) 4) as [Hshort|Hok].
      * apply (frame_too_short d _ i w tr' Hstop eq_refl Hi Hw).
        rewrite Hread, Hwrap. exact Hshort.
      * destruct Hout as (_ & Hout).
        destruct (Z.eqb_spec (tail_frame_buffer d)
                    (ring_next (head_frame_buffer d))) as [Hfull|_].
        -- apply (queue_overrun d _ i w tr' Hstop eq_refl Hi Hw).
           ++ rewrite Hread, Hwrap. exact Hok.
           ++ symmetry. exact Hfull.
        -- destruct Hout as (He & _). congruence.
Qed.

Lemma error_flag_raised_only_by_anomaly_witness :
  invariant ninth_frame_pending
  /\ ISR ninth_frame_pending (high_sample :: end_of_frame_trace)
     = Ok (state_after 450
             (eight_frames_trace ++ frame_trace [90; 91; 92; 93]), [])
  /\ error_flag ninth_frame_pending = false
  /\ error_flag (state_after 450
                   (eight_frames_trace ++ frame_trace [90; 91; 92; 93]))
     = true
  /\ anomaly ninth_frame_pending (high_sample :: end_of_frame_trace).
Proof.
  assert (Hinv : invariant ninth_frame_pending)
    by apply reachable_invariant, state_after_reachable.
  assert (Hrun : ISR ninth_frame_pending (high_sample :: end_of_frame_trace)
                 = Ok (state_after 450
                         (eight_frames_trace ++ frame_trace [90; 91; 92; 93]),
                       []))
    by (vm_compute; reflexivity).
  assert (Hclear : error_flag ninth_frame_pending = false)
    by (vm_compute; reflexivity).
  assert (Hset : error_flag
                   (state_after 450
                      (eight_frames_trace ++ frame_trace [90; 91; 92; 93]))
                 = true)
    by (vm_compute; reflexivity).
  repeat (split; [assumption|]).
  exact (error_flag_raised_only_by_anomaly _ _ _ _ Hinv Hrun Hclear Hset).
Defined.

(** ** Detecting a break *)

Lemma ISR_detect_break_slots d i tr c d' tr' :
  wf d -> state d = DETECT_BREAK -> low_bits_counter_ d = Z.of_nat c ->
  (rx_high i = false -> (c + 1 < 10)%nat) ->
  ISR d (i :: tr) = Ok (d', tr') ->
  rx_frame_buffers d' = rx_frame_buffers d.
Proof.
  intros Hwf Hst Hc Hlow Hrun. unfold ISR in Hrun.
  assert (Hh : exists v, handle_isr d (i :: tr)
                         = Ok (set_low_bits_counter_ v d, tr)).
  { unfold handle_isr, StateDetectBreak_handle_isr. rewrite Hst.
    cbn [isRxHigh bind]. destruct (rx_high i); [eauto|].
    fields. rewrite Hc.
    assert (Hw : wrap8 (Z.of_nat c + 1) = Z.of_nat (S c)).
    { unfold wrap8. rewrite Z.mod_small; specialize (Hlow eq_refl); lia. }
    rewrite Hw.
    destruct (Z.ltb_spec (Z.of_nat (S c)) 10); [eauto|].
    specialize (Hlow eq_refl). lia. }
  destruct Hh as [v Hh]. rewrite Hh in Hrun. cbn [bind] in Hrun.
  destruct (maybeServiceRxRequest_total (set_low_bits_counter_ v d))
    as (d2 & Hs & (Hsl & _) & _); [destruct Hwf; constructor; assumption|].
  rewrite Hs in Hrun. cbn [bind] in Hrun. injection Hrun as <- _.
  exact Hsl.
Qed.

Lemma ISR_run_lows k : forall d c (lows rest : trace),
  invariant d -> state d = DETECT_BREAK -> low_bits_counter_ d = Z.of_nat c ->
  (c + k < 10)%nat ->
  length lows = k -> Forall (fun i => rx_high i = false) lows ->
  exists d',
    ISR_run k d (lows ++ rest) = Ok (d', rest)
    /\ invariant d' /\ state d' = DETECT_BREAK
    /\ low_bits_counter_ d' = Z.of_nat (c + k)
    /\ head_frame_buffer d' = head_frame_buffer d
    /\ rx_frame_buffers d' = rx_frame_buffers d
    /\ unread d' = unread d
    /\ error_flag d' = error_flag d.
Proof.
  induction k as [|k IH]; intros d c lows rest Hinv Hst Hc Hk Hlen Hlow.
  - destruct lows; [|discriminate]. exists d.
    rewrite Nat.add_0_r. auto 10.
  - destruct lows as [|i lows]; [discriminate|].
    injection Hlen as Hlen. apply Forall_cons in Hlow as [Hi Hlow].
    destruct (ISR_detect_break_quiet d i (lows ++ rest) c (inv_wf d Hinv) Hst Hc)
      as (d1 & Hrun & _ & Hst1 & Hc1 & Hh1 & Hu1); [intros _; lia|].
    rewrite Hi in Hc1.
    pose proof (ISR_invariant _ _ _ _ Hinv Hrun) as Hinv1.
    assert (Hsl1 : rx_frame_buffers d1 = rx_frame_buffers d).
    { apply (ISR_detect_break_slots d i (lows ++ rest) c d1 (lows ++ rest)
               (inv_wf d Hinv) Hst Hc); [intros _; lia | exact Hrun]. }
    assert (He1 : error_flag d1 = error_flag d).
    { destruct (ISR_cases _ _ _ _ Hinv Hrun)
        as [(_ & _ & [He | (_ & _ & ? & ? & _ & Hrd & _)])
           | (? & ? & ? & ? & _ & [Hrd _] & _)];
        [exact He | congruence | congruence]. }
    destruct (IH d1 (S c) lows rest Hinv1 Hst1 Hc1) as
      (d' & Hrest & Hinv' & Hst' & Hc' & Hh' & Hsl' & Hu' & He');
      [lia | exact Hlen | exact Hlow |].
    exists d'. cbn [app ISR_run]. rewrite Hrun. cbn [bind].
    split; [exact Hrest|]. split; [exact Hinv'|]. split; [exact Hst'|].
    split; [rewrite Hc'; f_equal; lia|].
    split; [congruence|]. split; [congruence|]. split; congruence.
Qed.

Lemma ISR_run_break d c (lows w w1 w2 : trace) i r1 r2 :
  invariant d -> state d = DETECT_BREAK -> low_bits_counter_ d = Z.of_nat c ->
  (c < 10)%nat ->
  length lows = (9 - c)%nat -> Forall (fun i => rx_high i = false) lows ->
  rx_high i = false ->
  waitForRxHigh 255 w = Ok (r1, w1) -> waitForRxLow 255 w1 = Ok (r2, w2) ->
  (exists d9,
     ISR_run (9 - c) d (lows ++ i :: w) = Ok (d9, i :: w)
     /\ state d9 = DETECT_BREAK)
  /\ exists d',
       ISR_run (10 - c) d (lows ++ i :: w) = Ok (d', w2)
       /\ invariant d'
       /\ state d' = READ_DATA
       /\ bits_read_in_byte_ d' = 0 /\ bytes_read_ d' = 0
       /\ (exists fb fb', current_slot d = Some fb
                          /\ current_slot d' = Some fb'
                          /\ num_bytes fb' = 0 /\ bytes fb' = bytes fb)
       /\ head_frame_buffer d' = head_frame_buffer d
       /\ unread d' = unread d
       /\ error_flag d' = error_flag d.
Proof.
  intros Hinv Hst Hc Hlt Hlen Hlow Hi Hw1 Hw2.
  destruct (ISR_run_lows (9 - c) d c lows (i :: w) Hinv Hst Hc)
    as (d9 & Hrun9 & Hinv9 & Hst9 & Hc9 & Hh9 & Hsl9 & Hu9 & He9);
    [lia | exact Hlen | exact Hlow |].
  split; [exists d9; auto|].
  replace (c + (9 - c))%nat with 9%nat in Hc9 by lia.
  pose proof (inv_wf d9 Hinv9) as Hwf9.
  assert (Hwf1 : wf (set_low_bits_counter_
                       (wrap8 (low_bits_counter_ d9 + 1)) d9))
    by (destruct Hwf9; constructor; assumption).
  destruct (StateReadData_enter_spec _ w1 Hwf1) as (fb & Hfb & Heq).
  assert (Hh : handle_isr d9 (i :: w)
               = Ok (set_rx_frame_buffers
                       (<[Z.to_nat (head_frame_buffer d9) :=
                            mkRxFrameBuffer 0 (bytes fb)]>
                          (rx_frame_buffers d9))
                       (set_bits_read_in_byte_ 0
                          (set_bytes_read_ 0
                             (set_state READ_DATA
                                (set_low_bits_counter_
                                   (wrap8 (low_bits_counter_ d9 + 1)) d9)))),
                     w2)).
  { unfold handle_isr, StateDetectBreak_handle_isr. rewrite Hst9.
    cbn [isRxHigh bind]. rewrite Hi. fields.
    assert (Hten : (wrap8 (low_bits_counter_ d9 + 1) <? 10) = false)
      by (rewrite Hc9; reflexivity).
    rewrite Hten, Hw1. cbn [bind]. rewrite Heq, Hw2. reflexivity. }
  destruct (ISR_after_handler d9 _ _ _ Hinv9 Hh)
    as (d' & Hrun & _ & Hsame & _).
  pose proof (ISR_invariant _ _ _ _ Hinv9 Hrun) as Hinv'.
  destruct Hsame as (Hsl & Hh' & Hst' & _ & Hbr & Hb & _).
  fields.
  assert (Hquiet : unread d' = unread d9 /\ error_flag d' = error_flag d9).
  { destruct (ISR_cases _ _ _ _ Hinv9 Hrun)
      as [(_ & Hu & [He | (_ & _ & ? & ? & _ & Hrd & _)])
         | (? & ? & ? & ? & _ & [Hrd _] & _)];
      [auto | congruence | congruence]. }
  destruct Hquiet as [Hu He].
  exists d'. split.
  - replace (10 - c)%nat with ((9 - c) + 1)%nat by lia.
    rewrite ISR_run_app, Hrun9. cbn [bind ISR_run]. rewrite Hrun. reflexivity.
  - split; [exact Hinv'|]. split; [exact Hst'|]. split; [exact Hb|].
    split; [exact Hbr|]. split.
    + unfold current_slot in *. fields. exists fb, (mkRxFrameBuffer 0 (bytes fb)).
      rewrite <- Hh9, <- Hsl9. split; [exact Hfb|]. split; [|auto].
      rewrite Hsl, Hh'. apply list_lookup_insert_eq.
      rewrite (wf_slots d9 Hwf9). destruct (wf_head d9 Hwf9).
      unfold kMaxFrameBuffers in *. lia.
    + split; [congruence|]. split; congruence.
Qed.

(** X7. Break detection fires at the tenth consecutive low sample and
    not before: from a counter at [c], the receiver is still detecting
    after every one of the next [9 - c] low samples, and the low
    sample after them makes the interrupt wait for the line to rise,
    then for the first start bit, and enter the read-data state with
    bit and byte counters at zero and the count of the current slot
    reset.  Unread frames, [head] and the error flag are as before. *)
Theorem break_enters_read_data d c (lows w w1 w2 : trace) i r1 r2 :
  invariant d -> state d = DETECT_BREAK -> low_bits_counter_ d = Z.of_nat c ->
  (c < 10)%nat ->
  length lows = (9 - c)%nat -> Forall (fun i => rx_high i = false) lows ->
  rx_high i = false ->
  waitForRxHigh 255 w = Ok (r1, w1) -> waitForRxLow 255 w1 = Ok (r2, w2) ->
  (exists d9,
     ISR_run (9 - c) d (lows ++ i :: w) = Ok (d9, i :: w)
     /\ state d9 = DETECT_BREAK)
  /\ exists d',
       ISR_run (10 - c) d (lows ++ i :: w) = Ok (d', w2)
       /\ invariant d'
       /\ state d' = READ_DATA
       /\ bits_read_in_byte_ d' = 0 /\ bytes_read_ d' = 0
       /\ (exists fb fb', current_slot d = Some fb
                          /\ current_slot d' = Some fb'
                          /\ num_bytes fb' = 0 /\ bytes fb' = bytes fb)
       /\ head_frame_buffer d' = head_frame_buffer d
       /\ unread d' = unread d
       /\ error_flag d' = error_flag d.
Proof. apply ISR_run_break. Qed.

Lemma break_enters_read_data_witness :
  invariant initial
  /\ waitForRxHigh 255 [clock_read 0; high_sample; clock_read 0; low_sample]
     = Ok (true, [clock_read 0; low_sample])
  /\ waitForRxLow 255 [clock_read 0; low_sample] = Ok (true, [])
  /\ (exists d9,
        ISR_run (9 - 0) initial
          (replicate 9 low_sample
           ++ low_sample
              :: [clock_read 0; high_sample; clock_read 0; low_sample])
        = Ok (d9, low_sample
                  :: [clock_read 0; high_sample; clock_read 0; low_sample])
        /\ state d9 = DETECT_BREAK)
  /\ exists d',
       ISR_run (10 - 0) initial
         (replicate 9 low_sample
          ++ low_sample
             :: [clock_read 0; high_sample; clock_read 0; low_sample])
       = Ok (d', [])
       /\ state d' = READ_DATA.
Proof.
  assert (Hinv : invariant initial) by exact invariant_initial.
  assert (Hw1 : waitForRxHigh 255
                  [clock_read 0; high_sample; clock_read 0; low_sample]
                = Ok (true, [clock_read 0; low_sample]))
    by (vm_compute; reflexivity).
  assert (Hw2 : waitForRxLow 255 [clock_read 0; low_sample] = Ok (true, []))
    by (vm_compute; reflexivity).
  repeat (split; [assumption|]).
  destruct (break_enters_read_data initial 0 (replicate 9 low_sample)
              [clock_read 0; high_sample; clock_read 0; low_sample]
              [clock_read 0; low_sample] [] low_sample true true
              Hinv eq_refl eq_refl)
    as (H9 & d' & Hrun & _ & Hst & _);
    [lia | reflexivity | repeat constructor | reflexivity
     | exact Hw1 | exact Hw2 |].
  split; [exact H9|]. exists d'. auto.
Defined.

(** ** Receiving the bytes of a frame *)

(** The reads of a wait, as described, are the reads the wait makes,
    with the outcome described; what follows them in the trace is left
    for the next reads. *)
Lemma wait_for_low_reads_run m (w rest : trace) r :
  wait_for_low_reads m w r -> waitForRxLow m (w ++ rest) = Ok (r, rest).
Proof.
  intros (b0 & used & -> & Hw). unfold waitForRxLow.
  cbn [app hardware_ticks_mod_16_bit bind].
  apply waitForRxLow_loop_complete, Hw.
Qed.

Lemma invert_line_involutive (tr : trace) : invert_line (invert_line tr) = tr.
Proof.
  unfold invert_line. rewrite map_map. cbn [rx_high ticks].
  induction tr as [|[l t] tr IH]; [reflexivity|].
  cbn [map rx_high ticks]. rewrite negb_involutive, IH. reflexivity.
Qed.

Lemma wait_for_high_reads_run m (w rest : trace) r :
  wait_for_high_reads m w r -> waitForRxHigh m (w ++ rest) = Ok (r, rest).
Proof.
  intros (b0 & used & -> & Hw). unfold waitForRxHigh.
  cbn [app hardware_ticks_mod_16_bit bind].
  pose proof (waitForRxLow_loop_complete _ _ _ _ Hw (invert_line rest)) as Hlow.
  unfold invert_line in Hlow at 1 2. rewrite <- map_app in Hlow.
  fold (invert_line (used ++ rest)) in Hlow.
  rewrite waitForRxLow_loop_inverted in Hlow.
  destruct (waitForRxHigh_loop m (wrap16 (ticks b0)) (used ++ rest))
    as [[r' t']| |]; try discriminate.
  injection Hlow as -> Ht. f_equal. f_equal.
  rewrite <- (invert_line_involutive t'), Ht. apply invert_line_involutive.
Qed.

Lemma frame_with_app fb xs ys :
  0 <= num_bytes fb ->
  (Z.to_nat (num_bytes fb) + length xs <= length (bytes fb))%nat ->
  frame_with (frame_with fb xs) ys = frame_with fb (xs ++ ys).
Proof.
  intros Hn Hlen. unfold frame_with. cbn [num_bytes bytes].
  rewrite length_app, Nat2Z.inj_add, Z.add_assoc. f_equal.
  replace (Z.to_nat (num_bytes fb + Z.of_nat (length xs)))
    with (Z.to_nat (num_bytes fb) + length xs)%nat by lia.
  set (n := Z.to_nat (num_bytes fb)) in *.
  assert (Htake : length (take n (bytes fb) ++ xs) = (n + length xs)%nat).
  { rewrite length_app, length_take. lia. }
  rewrite (app_assoc (take n (bytes fb)) xs).
  rewrite take_app_length' by (symmetry; exact Htake).
  rewrite <- !app_assoc. do 3 f_equal.
  rewrite (app_assoc (take n (bytes fb)) xs).
  rewrite drop_app_add' by (symmetry; exact Htake).
  rewrite drop_drop. f_equal. lia.
Qed.

Lemma completed_frame_frame_with fb d :
  0 <= num_bytes fb ->
  (Z.to_nat (num_bytes fb) < length (bytes fb))%nat ->
  completed_frame fb d = frame_with fb [byte_buffer_ d].
Proof.
  intros Hn Hlen. unfold completed_frame, frame_with. cbn [length].
  f_equal. rewrite insert_take_drop by exact Hlen.
  cbn [app]. do 3 f_equal. lia.
Qed.

Lemma ISR_mid_byte_keeps d i tr d' tr' :
  invariant d -> state d = READ_DATA -> bits_read_in_byte_ d <= 8 ->
  (bits_read_in_byte_ d = 0 -> rx_high i = false) ->
  ISR d (i :: tr) = Ok (d', tr') ->
  unread d' = unread d /\ error_flag d' = error_flag d.
Proof.
  intros Hinv Hst Hb Hstart Hrun.
  destruct (ISR_cases _ _ _ _ Hinv Hrun)
    as [(_ & Hu & [He | (_ & _ & i' & w' & Htr & _ & Hv)])
       | (? & ? & ? & ? & _ & [_ Hb'] & _)].
  - auto.
  - injection Htr as <- <-. destruct Hv as [[Hb0 Hi] | [Hb8 _]]; [|lia].
    rewrite (Hstart Hb0) in Hi. discriminate.
  - lia.
Qed.

Lemma ISR_run_data_bits_keeps h slots b j : forall d (tr rest : trace),
  (j <= 8)%nat ->
  collecting h slots b (8 - Z.of_nat j) d ->
  map rx_high tr
  = map (fun n => Z.testbit b (Z.of_nat n)) (seq (8 - j) j) ->
  exists d', ISR_run j d (tr ++ rest) = Ok (d', rest)
             /\ collecting h slots b 8 d'
             /\ unread d' = unread d /\ error_flag d' = error_flag d.
Proof.
  induction j as [|j IH]; intros d tr rest Hj Hcol Htr.
  - destruct tr; [|discriminate]. exists d. split; [reflexivity|].
    rewrite Z.sub_0_r in Hcol. auto.
  - destruct tr as [|i tr]; [discriminate|].
    cbn [seq map] in Htr. injection Htr as Hi Htr.
    destruct (ISR_data_bit h slots b (8 - Z.of_nat (S j)) d i (tr ++ rest))
      as (d1 & Hrun & Hcol1); [exact Hcol | lia | |].
    { rewrite Hi. f_equal. lia. }
    destruct Hcol as (Hinv & Hst & _ & _ & Hbits & _).
    destruct (ISR_mid_byte_keeps d i (tr ++ rest) d1 (tr ++ rest) Hinv Hst)
      as [Hu1 He1]; [lia | lia | exact Hrun |].
    destruct (IH d1 tr rest) as (d' & Hrest & Hcol' & Hu' & He'); [lia | | |].
    + replace (8 - Z.of_nat j) with (8 - Z.of_nat (S j) + 1) by lia.
      exact Hcol1.
    + rewrite Htr. f_equal. f_equal. lia.
    + exists d'. cbn [app ISR_run]. rewrite Hrun. cbn [bind].
      split; [exact Hrest|]. split; [exact Hcol'|]. split; congruence.
Qed.

(** The start bit and the eight data bits of [b]. *)
Lemma ISR_run_byte_body d b s0 (dat rest : trace) fb :
  invariant d -> state d = READ_DATA -> bits_read_in_byte_ d = 0 ->
  is_byte b -> current_slot d = Some fb ->
  rx_high s0 = false ->
  map rx_high dat = map (fun n => Z.testbit b (Z.of_nat n)) (seq 0 8) ->
  exists d2,
    ISR_run 9 d (s0 :: dat ++ rest) = Ok (d2, rest)
    /\ invariant d2 /\ at_stop_bit d2
    /\ current_slot d2 = Some fb /\ byte_buffer_ d2 = b
    /\ head_frame_buffer d2 = head_frame_buffer d
    /\ unread d2 = unread d /\ error_flag d2 = error_flag d.
Proof.
  intros Hinv Hst Hbits Hb Hfb Hs0 Hdat.
  assert (Hstart : handle_isr d (s0 :: dat ++ rest)
                   = Ok (set_byte_buffer_bit_mask_ 1
                           (set_byte_buffer_ 0 (set_bits_read_in_byte_ 1 d)),
                         dat ++ rest)).
  { unfold handle_isr. rewrite Hst. apply read_start_bit_low; assumption. }
  destruct (ISR_after_handler d _ _ _ Hinv Hstart)
    as (d1 & Hrun1 & _ & Hsame1 & _).
  pose proof (ISR_invariant _ _ _ _ Hinv Hrun1) as Hinv1.
  destruct (ISR_mid_byte_keeps d s0 (dat ++ rest) d1 (dat ++ rest)
              Hinv Hst) as [Hu1 He1]; [lia | auto | exact Hrun1 |].
  destruct Hsame1 as (Hs1 & Hh1 & Hst1 & _ & _ & Hb1 & Hbb1 & Hm1 & _).
  fields.
  assert (Hcol : collecting (head_frame_buffer d) (rx_frame_buffers d) b
                   (8 - Z.of_nat 8) d1).
  { split; [exact Hinv1|]. do 3 (split; [congruence|]).
    split; [rewrite Hb1; reflexivity|].
    split; [rewrite Hbb1; symmetry; apply Z.mod_1_r|].
    intros _. rewrite Hm1. reflexivity. }
  destruct (ISR_run_data_bits_keeps _ _ b 8 d1 dat rest (le_n 8) Hcol Hdat)
    as (d2 & Hrun2 & (Hinv2 & Hst2 & Hh2 & Hs2 & Hbits2 & Hbuf2 & _) & Hu2 & He2).
  exists d2. split.
  - change (ISR_run 9 d (s0 :: dat ++ rest))
      with (let* (d1, tr1) := ISR d (s0 :: dat ++ rest) in
            ISR_run 8 d1 tr1).
    rewrite Hrun1. cbn [bind]. exact Hrun2.
  - split; [exact Hinv2|]. split; [split; [exact Hst2 | lia]|].
    split; [unfold current_slot in *; rewrite Hs2, Hh2; exact Hfb|].
    split; [rewrite Hbuf2; change (2 ^ 8) with 256;
            apply Z.mod_small; exact Hb|].
    split; [exact Hh2|]. split; congruence.
Qed.

(** A whole byte: ten samples with the levels of [byte_samples b],
    followed by the wait [w] for the next start bit. *)
Lemma ISR_run_byte d b (smp w : trace) r tr' fb :
  invariant d -> state d = READ_DATA -> bits_read_in_byte_ d = 0 ->
  is_byte b -> current_slot d = Some fb ->
  map rx_high smp = byte_samples b ->
  waitForRxLow (kClockTicksPerBit * 4) w = Ok (r, tr') ->
  exists d2 d',
    ISR_run 10 d (smp ++ w) = Ok (d', tr')
    /\ invariant d'
    /\ head_frame_buffer d2 = head_frame_buffer d
    /\ unread d2 = unread d /\ error_flag d2 = error_flag d
    /\ invariant d2
    /\ rx_frame_buffers d' !! Z.to_nat (head_frame_buffer d)
       = Some (frame_with fb [b])
    /\ completed_frame fb d2 = frame_with fb [b]
    /\ stop_bit_outcome r fb d2 d'.
Proof.
  intros Hinv Hst Hbits Hb Hfb Hsmp Hw.
  unfold byte_samples in Hsmp.
  destruct smp as [|s0 smp]; [discriminate|].
  change (map rx_high (s0 :: smp)) with (rx_high s0 :: map rx_high smp) in Hsmp.
  pose proof (f_equal (hd false) Hsmp) as Hs0.
  apply (f_equal tail) in Hsmp. cbn [hd tail] in Hs0, Hsmp.
  apply map_eq_app in Hsmp as (dat & stop & -> & Hdat & Hstop).
  destruct stop as [|s9 [|? ?]]; try discriminate.
  cbn [map] in Hstop. injection Hstop as Hs9.
  destruct (ISR_run_byte_body d b s0 dat (s9 :: w) fb Hinv Hst Hbits Hb Hfb
              Hs0 Hdat)
    as (d2 & Hrun2 & Hinv2 & Hstop2 & Hfb2 & Hbuf2 & Hh2 & Hu2 & He2).
  destruct (ISR_stop_bit_spec d2 s9 w fb r tr' Hinv2 Hstop2 Hs9
              Hfb2 Hw) as (d' & Hrun & Hinv' & Hsl & Hout).
  exists d2, d'. split.
  - change (ISR_run 10) with (ISR_run (9 + 1)).
    rewrite ISR_run_app. cbn [app]. rewrite <- app_assoc. cbn [app].
    rewrite Hrun2. cbn [bind ISR_run]. rewrite Hrun. reflexivity.
  - do 5 (split; [assumption|]).
    destruct (invariant_slot d2 fb Hinv2 Hfb2) as [Hn Hlen].
    destruct (inv_reading d2 Hinv2 (proj1 Hstop2)) as (fb' & Hfb' & Hroom & _).
    rewrite Hfb2 in Hfb'. injection Hfb' as <-.
    assert (Hframe : completed_frame fb d2 = frame_with fb [b]).
    { rewrite <- Hbuf2. apply completed_frame_frame_with; [lia|].
      rewrite Hlen. unfold kMaxBytes in *. lia. }
    split; [|split; [exact Hframe | exact Hout]].
    rewrite <- Hframe, Hsl, <- Hh2. apply list_lookup_insert_eq.
    destruct (inv_wf d2 Hinv2) as [Hslots _ Hhd _]. rewrite Hslots.
    unfold kMaxFrameBuffers in *. lia.
Qed.

Lemma bytes_received_nonempty more bs tr :
  bytes_received more bs tr -> (0 < length bs)%nat.
Proof. destruct 1; cbn [length]; lia. Qed.

(** Bytes received one after the other into a slot with room for
    them: the receiver goes on reading up to the stop bit of the last,
    whose interrupt ([d2] before it, [d'] after it) finds in the slot
    all the bytes but the last ([fb0]) and completes it with the last. *)
Lemma ISR_run_bytes_received more bs body :
  bytes_received more bs body ->
  forall d fb (rest : trace),
    invariant d -> state d = READ_DATA -> bits_read_in_byte_ d = 0 ->
    current_slot d = Some fb ->
    Forall is_byte bs ->
    num_bytes fb + Z.of_nat (length bs) <= kMaxBytes ->
    exists fb0 d2 d',
      ISR_run (10 * length bs) d (body ++ rest) = Ok (d', rest)
      /\ invariant d2
      /\ head_frame_buffer d2 = head_frame_buffer d
      /\ unread d2 = unread d /\ error_flag d2 = error_flag d
      /\ num_bytes fb0 + 1 = num_bytes fb + Z.of_nat (length bs)
      /\ completed_frame fb0 d2 = frame_with fb bs
      /\ stop_bit_outcome more fb0 d2 d'.
Proof.
  induction 1 as [b tr (smp & w & -> & Hsmp & Hw)
                 |b bs tr1 tr (smp & w & -> & Hsmp & Hw) Hrest IH];
    intros d fb rest Hinv Hst Hbits Hfb Hbs Hroom.
  - apply Forall_cons in Hbs as [Hb _].
    apply (wait_for_low_reads_run _ _ rest) in Hw.
    destruct (ISR_run_byte d b smp (w ++ rest) more rest fb
                Hinv Hst Hbits Hb Hfb Hsmp Hw)
      as (d2 & d' & Hrun & _ & Hh2 & Hu2 & He2 & Hinv2 & _ & Hframe & Hout).
    exists fb, d2, d'. rewrite <- app_assoc.
    split; [exact Hrun|]. do 4 (split; [assumption|]).
    split; [cbn [length]; lia|]. split; assumption.
  - apply Forall_cons in Hbs as [Hb Hbs]. cbn [length] in Hroom.
    pose proof (bytes_received_nonempty _ _ _ Hrest) as Hpos.
    destruct (invariant_slot d fb Hinv Hfb) as [Hn Hlen].
    apply (wait_for_low_reads_run _ _ (tr ++ rest)) in Hw.
    destruct (ISR_run_byte d b smp (w ++ tr ++ rest) true (tr ++ rest) fb
                Hinv Hst Hbits Hb Hfb Hsmp Hw)
      as (d2 & d1 & Hrun1 & Hinv1 & Hh2 & Hu2 & He2 & Hinv2 & Hslot & _ & Hout).
    unfold stop_bit_outcome in Hout.
    destruct (Z.leb_spec kMaxBytes (num_bytes fb + 1)); [lia|].
    destruct Hout as (Hst1 & Hb1 & He1 & Hh1 & Hu1).
    assert (Hfb1 : current_slot d1 = Some (frame_with fb [b])).
    { unfold current_slot. rewrite Hh1, Hh2. exact Hslot. }
    destruct (IH d1 (frame_with fb [b]) rest Hinv1 Hst1 Hb1 Hfb1 Hbs)
      as (fb0 & d3 & d' & Hrun & Hinv3 & Hh3 & Hu3 & He3 & Hn0 & Hframe & Hout).
    { cbn [frame_with num_bytes length]. lia. }
    exists fb0, d3, d'. split.
    + replace (10 * length (b :: bs))%nat with (10 + 10 * length bs)%nat
        by (cbn [length]; lia).
      rewrite ISR_run_app, <- !app_assoc, Hrun1. cbn [bind]. exact Hrun.
    + split; [exact Hinv3|]. split; [congruence|]. split; [congruence|].
      split; [congruence|]. split.
      * rewrite Hn0. cbn [frame_with num_bytes length]. lia.
      * split; [|exact Hout].
        rewrite Hframe, frame_with_app; [reflexivity | lia |].
        rewrite Hlen. unfold kMaxBytes in *. cbn [length]. lia.
Qed.

(** A break, whatever its two waits read, and then bytes. *)
Lemma ISR_run_frame_received d c more bs fb (brk body rest : trace) :
  invariant d -> state d = DETECT_BREAK ->
  low_bits_counter_ d = Z.of_nat c -> (c < 10)%nat ->
  current_slot d = Some fb ->
  Forall is_byte bs -> (length bs <= 11)%nat ->
  break_received c brk -> bytes_received more bs body ->
  exists fb0 d2 d',
    ISR_run (10 - c + 10 * length bs) d (brk ++ body ++ rest) = Ok (d', rest)
    /\ invariant d2
    /\ head_frame_buffer d2 = head_frame_buffer d
    /\ unread d2 = unread d /\ error_flag d2 = error_flag d
    /\ num_bytes fb0 + 1 = Z.of_nat (length bs)
    /\ completed_frame fb0 d2
       = mkRxFrameBuffer (Z.of_nat (length bs))
           (bs ++ drop (length bs) (bytes fb))
    /\ stop_bit_outcome more fb0 d2 d'.
Proof.
  intros Hinv Hst Hc Hlt Hfb Hbs Hlen
    (lows & w1 & w2 & r1 & r2 & -> & Hlows & Hlow & Hw1 & Hw2) Hbody.
  destruct lows as [|i lows9 _] using rev_ind; [cbn in Hlows; lia|].
  rewrite length_app in Hlows. cbn [length] in Hlows.
  apply Forall_app in Hlow as [Hlow9 Hi]. apply Forall_cons in Hi as [Hi _].
  apply (wait_for_high_reads_run _ _ (w2 ++ body ++ rest)) in Hw1.
  apply (wait_for_low_reads_run _ _ (body ++ rest)) in Hw2.
  destruct (ISR_run_break d c lows9 (w1 ++ w2 ++ body ++ rest)
              (w2 ++ body ++ rest) (body ++ rest) i r1 r2 Hinv Hst Hc Hlt)
    as (_ & d1 & Hrun1 & Hinv1 & Hst1 & Hb1 & _ & Hslot & Hh1 & Hu1 & He1);
    [lia | exact Hlow9 | exact Hi | exact Hw1 | exact Hw2 |].
  destruct Hslot as (fb1 & fb' & Hfb1 & Hfb' & Hn' & Hbytes').
  rewrite Hfb in Hfb1. injection Hfb1 as <-.
  destruct (invariant_slot d fb Hinv Hfb) as [_ Hl].
  destruct (ISR_run_bytes_received more bs body Hbody d1 fb' rest
              Hinv1 Hst1 Hb1 Hfb' Hbs)
    as (fb0 & d2 & d' & Hrun & Hinv2 & Hh2 & Hu2 & He2 & Hn0 & Hframe & Hout).
  { rewrite Hn'. unfold kMaxBytes. lia. }
  exists fb0, d2, d'. split.
  - rewrite ISR_run_app, <- !app_assoc. cbn [app].
    rewrite Hrun1. cbn [bind]. exact Hrun.
  - split; [exact Hinv2|]. split; [congruence|]. split; [congruence|].
    split; [congruence|]. split; [lia|]. split; [|exact Hout].
    rewrite Hframe. unfold frame_with. rewrite Hn', Hbytes'. reflexivity.
Qed.

(** X8. Round trip: a break followed by the samples of four to eleven
    bytes and by silence hands exactly these bytes over, whatever the
    clock shows and however the waits of the receiver go: the break is
    any run of low samples that brings the counter to ten, each byte is
    any ten samples with its levels, each wait reads any instants that
    end with the start bit of the next byte, or with the timeout after
    the last byte.  With fewer than seven unread frames, the frame
    appended to the unread frames has the bytes in their order and
    their number as its count (the rest of the reused slot is left as
    it was); the error flag is not touched and the receiver is back in
    break detection. *)
Theorem frame_round_trip d c bs fb (brk body rest : trace) :
  invariant d -> state d = DETECT_BREAK ->
  low_bits_counter_ d = Z.of_nat c -> (c < 10)%nat ->
  current_slot d = Some fb ->
  (length (unread d) < 7)%nat ->
  Forall is_byte bs -> (4 <= length bs <= 11)%nat ->
  break_received c brk -> bytes_received false bs body ->
  exists d',
    ISR_run (10 - c + 10 * length bs) d (brk ++ body ++ rest) = Ok (d', rest)
    /\ state d' = DETECT_BREAK /\ low_bits_counter_ d' = 0
    /\ unread d'
       = unread d
         ++ [mkRxFrameBuffer (Z.of_nat (length bs))
               (bs ++ drop (length bs) (bytes fb))]
    /\ error_flag d' = error_flag d
    /\ head_frame_buffer d' = ring_next (head_frame_buffer d).
Proof.
  intros Hinv Hst Hc Hlt Hfb Hunread Hbs Hlen Hbrk Hbody.
  destruct (ISR_run_frame_received d c false bs fb brk body rest
              Hinv Hst Hc Hlt Hfb Hbs)
    as (fb0 & d2 & d' & Hrun & Hinv2 & Hh2 & Hu2 & He2 & Hn0 & Hframe & Hout);
    [lia | exact Hbrk | exact Hbody |].
  unfold stop_bit_outcome in Hout. destruct Hout as (Hst' & Hc' & Hout).
  destruct (Z.ltb_spec (num_bytes fb0 + 1) 4); [lia|].
  destruct Hout as (Hh' & Hout).
  destruct (Z.eqb_spec (tail_frame_buffer d2) (ring_next (head_frame_buffer d2)))
    as [Hfull|_].
  { exfalso. revert Hfull. apply room_of_unread; [exact (inv_wf _ Hinv2)|].
    rewrite Hu2. exact Hunread. }
  destruct Hout as (He' & Hu').
  exists d'. split; [exact Hrun|].
  split; [exact Hst'|]. split; [exact Hc'|].
  split; [rewrite Hu', Hu2, Hframe; reflexivity|].
  split; congruence.
Qed.

Lemma frame_round_trip_witness :
  invariant initial
  /\ Forall is_byte [85; 17; 1; 254]
  /\ break_received 0 long_break_trace
  /\ bytes_received false [85; 17; 1; 254]
       (late_start_byte_trace 85
        ++ late_start_byte_trace 17
        ++ late_start_byte_trace 1
        ++ byte_trace 254 ++ late_timeout_trace)
  /\ exists d',
      ISR_run (10 - 0 + 10 * length [85; 17; 1; 254]) initial
        (long_break_trace
         ++ (late_start_byte_trace 85
             ++ late_start_byte_trace 17
             ++ late_start_byte_trace 1
             ++ byte_trace 254 ++ late_timeout_trace) ++ [])
      = Ok (d', [])
      /\ unread d' = [mkRxFrameBuffer 4 [85; 17; 1; 254; 0; 0; 0; 0; 0; 0; 0]]
      /\ error_flag d' = false.
Proof.
  assert (Hinv : invariant initial) by exact invariant_initial.
  assert (Hbs : Forall is_byte [85; 17; 1; 254])
    by (repeat constructor; unfold is_byte; lia).
  assert (Hbrk : break_received 0 long_break_trace).
  { exists (replicate 10 low_sample), long_break_rise_trace,
      long_break_fall_trace, true, true.
    split; [reflexivity|]. split; [reflexivity|].
    split; [repeat constructor|]. split; eexists _, _; (split; [reflexivity|]).
    - do 2 (apply waited_on; [reflexivity | vm_compute; reflexivity |]).
      apply waited_seen_low. reflexivity.
    - apply waited_on; [reflexivity | vm_compute; reflexivity |].
      apply waited_seen_low. reflexivity. }
  assert (Hlate : forall b, byte_received b true (late_start_byte_trace b)).
  { intros b. eexists _, _. split; [reflexivity|].
    split; [rewrite map_map; cbn [rx_high]; apply map_id|].
    eexists _, _. split; [reflexivity|].
    apply waited_on; [reflexivity | vm_compute; reflexivity |].
    apply waited_seen_low. reflexivity. }
  assert (Hbody : bytes_received false [85; 17; 1; 254]
                    (late_start_byte_trace 85
                     ++ late_start_byte_trace 17
                     ++ late_start_byte_trace 1
                     ++ byte_trace 254 ++ late_timeout_trace)).
  { do 3 (apply received_further; [apply Hlate|]).
    apply received_last. eexists _, _. split; [reflexivity|].
    split; [unfold byte_trace; rewrite map_map; cbn [rx_high]; apply map_id|].
    eexists _, _. split; [reflexivity|].
    apply waited_on; [reflexivity | vm_compute; reflexivity |].
    apply waited_timed_out; [reflexivity | vm_compute; discriminate]. }
  do 4 (split; [assumption|]).
  destruct (frame_round_trip initial 0 [85; 17; 1; 254] zero_frame
              long_break_trace
              (late_start_byte_trace 85
               ++ late_start_byte_trace 17
               ++ late_start_byte_trace 1
               ++ byte_trace 254 ++ late_timeout_trace)
              [] Hinv eq_refl eq_refl)
    as (d' & Hrun & _ & _ & Hu & He & _);
    [lia | reflexivity | vm_compute; lia | exact Hbs | cbn [length]; lia
     | exact Hbrk | exact Hbody |].
  exists d'. split; [exact Hrun|]. split; [exact Hu | exact He].
Defined.

(** X9. A frame of more than eleven bytes is dropped whole, whatever
    the clock shows and however the waits of the receiver go: after any
    break and any eleven bytes, each followed by a start bit seen
    within the wait, the interrupt that sees the start bit of the
    twelfth raises the error flag, sends the receiver back to break
    detection, and leaves [head] and the unread frames as they were
    before the break. *)
Theorem twelfth_byte_discards_frame d c bs fb (brk body rest : trace) :
  invariant d -> state d = DETECT_BREAK ->
  low_bits_counter_ d = Z.of_nat c -> (c < 10)%nat ->
  current_slot d = Some fb ->
  Forall is_byte bs -> length bs = 11%nat ->
  break_received c brk -> bytes_received true bs body ->
  exists d',
    ISR_run (10 - c + 110) d (brk ++ body ++ rest) = Ok (d', rest)
    /\ state d' = DETECT_BREAK /\ low_bits_counter_ d' = 0
    /\ error_flag d' = true
    /\ head_frame_buffer d' = head_frame_buffer d
    /\ unread d' = unread d.
Proof.
  intros Hinv Hst Hc Hlt Hfb Hbs Hlen Hbrk Hbody.
  destruct (ISR_run_frame_received d c true bs fb brk body rest
              Hinv Hst Hc Hlt Hfb Hbs)
    as (fb0 & d2 & d' & Hrun & Hinv2 & Hh2 & Hu2 & He2 & Hn0 & _ & Hout);
    [lia | exact Hbrk | exact Hbody |].
  rewrite Hlen in Hrun, Hn0.
  unfold stop_bit_outcome in Hout.
  destruct (Z.leb_spec kMaxBytes (num_bytes fb0 + 1));
    [|unfold kMaxBytes in *; lia].
  destruct Hout as (Hst' & Hc' & He' & Hh' & Hu').
  exists d'. split; [exact Hrun|].
  split; [exact Hst'|]. split; [exact Hc'|]. split; [exact He'|].
  split; congruence.
Qed.

Lemma twelfth_byte_discards_frame_witness :
  invariant (state_after 50 (frame_trace [1; 2; 3; 4]))
  /\ Forall is_byte [1; 2; 3; 4; 5; 6; 7; 8; 9; 10; 11]
  /\ break_received 0 long_break_trace
  /\ bytes_received true [1; 2; 3; 4; 5; 6; 7; 8; 9; 10; 11]
       (late_start_byte_trace 1 ++ late_start_byte_trace 2
        ++ late_start_byte_trace 3 ++ late_start_byte_trace 4
        ++ late_start_byte_trace 5 ++ late_start_byte_trace 6
        ++ late_start_byte_trace 7 ++ late_start_byte_trace 8
        ++ late_start_byte_trace 9 ++ late_start_byte_trace 10
        ++ late_start_byte_trace 11)
  /\ exists d',
      ISR_run (10 - 0 + 110) (state_after 50 (frame_trace [1; 2; 3; 4]))
        (long_break_trace
         ++ (late_start_byte_trace 1 ++ late_start_byte_trace 2
             ++ late_start_byte_trace 3 ++ late_start_byte_trace 4
             ++ late_start_byte_trace 5 ++ late_start_byte_trace 6
             ++ late_start_byte_trace 7 ++ late_start_byte_trace 8
             ++ late_start_byte_trace 9 ++ late_start_byte_trace 10
             ++ late_start_byte_trace 11) ++ [])
      = Ok (d', [])
      /\ error_flag d' = true
      /\ unread d' = [mkRxFrameBuffer 4 [1; 2; 3; 4; 0; 0; 0; 0; 0; 0; 0]].
Proof.
  assert (Hinv : invariant (state_after 50 (frame_trace [1; 2; 3; 4])))
    by apply reachable_invariant, state_after_reachable.
  assert (Hbs : Forall is_byte [1; 2; 3; 4; 5; 6; 7; 8; 9; 10; 11])
    by (repeat constructor; unfold is_byte; lia).
  assert (Hbrk : break_received 0 long_break_trace).
  { exists (replicate 10 low_sample), long_break_rise_trace,
      long_break_fall_trace, true, true.
    split; [reflexivity|]. split; [reflexivity|].
    split; [repeat constructor|]. split; eexists _, _; (split; [reflexivity|]).
    - do 2 (apply waited_on; [reflexivity | vm_compute; reflexivity |]).
      apply waited_seen_low. reflexivity.
    - apply waited_on; [reflexivity | vm_compute; reflexivity |].
      apply waited_seen_low. reflexivity. }
  assert (Hlate : forall b, byte_received b true (late_start_byte_trace b)).
  { intros b. eexists _, _. split; [reflexivity|].
    split; [rewrite map_map; cbn [rx_high]; apply map_id|].
    eexists _, _. split; [reflexivity|].
    apply waited_on; [reflexivity | vm_compute; reflexivity |].
    apply waited_seen_low. reflexivity. }
  assert (Hbody : bytes_received true [1; 2; 3; 4; 5; 6; 7; 8; 9; 10; 11]
       (late_start_byte_trace 1 ++ late_start_byte_trace 2
        ++ late_start_byte_trace 3 ++ late_start_byte_trace 4
        ++ late_start_byte_trace 5 ++ late_start_byte_trace 6
        ++ late_start_byte_trace 7 ++ late_start_byte_trace 8
        ++ late_start_byte_trace 9 ++ late_start_byte_trace 10
        ++ late_start_byte_trace 11)).
  { do 10 (apply received_further; [apply Hlate|]).
    apply received_last, Hlate. }
  do 4 (split; [assumption|]).
  destruct (twelfth_byte_discards_frame
              (state_after 50 (frame_trace [1; 2; 3; 4])) 0
              [1; 2; 3; 4; 5; 6; 7; 8; 9; 10; 11] zero_frame
              long_break_trace
              (late_start_byte_trace 1 ++ late_start_byte_trace 2
               ++ late_start_byte_trace 3 ++ late_start_byte_trace 4
               ++ late_start_byte_trace 5 ++ late_start_byte_trace 6
               ++ late_start_byte_trace 7 ++ late_start_byte_trace 8
               ++ late_start_byte_trace 9 ++ late_start_byte_trace 10
               ++ late_start_byte_trace 11)
              [] Hinv eq_refl eq_refl)
    as (d' & Hrun & _ & _ & He & _ & Hu);
    [lia | vm_compute; reflexivity | exact Hbs | reflexivity
     | exact Hbrk | exact Hbody |].
  exists d'. split; [exact Hrun|]. split; [exact He|].
  rewrite Hu. vm_compute. reflexivity.
Defined.

(** ** The counters never wrap *)

Lemma counters_kept d d' :
  counters_in_range d ->
  state d' = state d -> low_bits_counter_ d' = low_bits_counter_ d ->
  bits_read_in_byte_ d' = bits_read_in_byte_ d ->
  bytes_read_ d' = bytes_read_ d ->
  counters_in_range d'.
Proof.
  intros [H1 H2 H3 H4] Hs Hc Hb Hr.
  constructor; rewrite ?Hs, ?Hc, ?Hb, ?Hr; assumption.
Qed.

Lemma counters_entered d bits :
  counters_in_range d -> 0 <= bits <= 9 ->
  counters_in_range
    (StateDetectBreak_enter (setErrorFlag (set_bits_read_in_byte_ bits d))).
Proof.
  intros [H1 H2 H3 H4] Hb. constructor; fields; unfold kMaxBytes in *; lia.
Qed.

Lemma handle_isr_counters d tr d1 tr1 :
  invariant d -> counters_in_range d ->
  handle_isr d tr = Ok (d1, tr1) -> counters_in_range d1.
Proof.
  intros Hinv Hcnt Hh. pose proof Hcnt as [Hlow Hdet Hbits Hbytes].
  unfold handle_isr in Hh. destruct (state d) eqn:Hst.
  - specialize (Hdet eq_refl). unfold StateDetectBreak_handle_isr in Hh.
    destruct tr as [|i w]; [discriminate|]. cbn [isRxHigh bind] in Hh.
    destruct (rx_high i).
    { injection Hh as <- <-. constructor; fields; try assumption; lia. }
    fields.
    assert (Hw : wrap8 (low_bits_counter_ d + 1) = low_bits_counter_ d + 1)
      by (apply wrap8_succ_small; lia).
    rewrite Hw in Hh.
    destruct (Z.ltb_spec (low_bits_counter_ d + 1) 10).
    { injection Hh as <- <-. constructor; fields; try assumption; lia. }
    destruct (waitForRxHigh 255 w) as [[r t]| |]; try discriminate.
    cbn [bind] in Hh. unfold StateReadData_enter in Hh. fields.
    destruct (rx_frame_buffers d !! Z.to_nat (head_frame_buffer d));
      try discriminate.
    destruct (waitForRxLow 255 t) as [[r' t']| |]; try discriminate.
    cbn [bind] in Hh. injection Hh as <- <-.
    constructor; fields; unfold kMaxBytes; try lia. discriminate.
  - destruct tr as [|i w]; [discriminate|].
    destruct (Z.eq_dec (bits_read_in_byte_ d) 0) as [Hb0 | Hb0].
    { destruct (rx_high i) eqn:Hi.
      - rewrite read_start_bit_high in Hh by assumption.
        injection Hh as <- <-.
        constructor; fields; try assumption; lia.
      - rewrite read_start_bit_low in Hh by assumption.
        injection Hh as <- <-.
        constructor; fields; try assumption; try lia. try (intros Hdb; first [lia | rewrite Hst in Hdb; discriminate | discriminate]). }
    destruct (Z_le_gt_dec (bits_read_in_byte_ d) 8) as [Hb8 | Hb8].
    { rewrite read_data_bit in Hh by assumption.
      injection Hh as <- <-.
      rewrite wrap8_succ_small by lia.
      constructor; destruct (rx_high i); fields; try assumption; try lia;
        try (intros Hdb; first [lia | rewrite Hst in Hdb; discriminate | discriminate]). }
    destruct (rx_high i) eqn:Hi.
    + destruct (inv_reading d Hinv Hst) as (fb & Hfb & Hroom & Hread).
      destruct (invariant_next_byte d fb Hinv Hst Hfb) as [x Hx].
      destruct (invariant_slot d fb Hinv Hfb) as [Hn _].
      rewrite (read_stop_bit_high d i w fb x) in Hh by (assumption || lia).
      destruct (waitForRxLow (kClockTicksPerBit * 4) w) as [[r t]| |];
        try discriminate.
      cbn [bind] in Hh. injection Hh as <- <-.
      assert (Hbr : wrap8 (bytes_read_ d + 1) = num_bytes fb + 1)
        by (rewrite Hread; apply wrap8_succ_small;
            unfold kMaxBytes in *; lia).
      unfold after_wait, store_byte. fields.
      rewrite incrementHeadFrameBuffer_eq, Hbr.
      unfold kMaxBytes in *.
      repeat case_match; rewrite ?incrementTailFrameBuffer_eq;
        constructor; fields; unfold kMaxBytes; try assumption; try lia; try (intros Hdb; first [lia | rewrite Hst in Hdb; discriminate | discriminate]).
    + rewrite read_stop_bit_low in Hh by (assumption || lia).
      injection Hh as <- <-.
      constructor; fields; try assumption; lia.
Qed.

Lemma reachable_counters d : reachable d -> counters_in_range d.
Proof.
  induction 1 as [|d tr d' tr' Hr IH Hrun|d buffer _ IH|d _ IH].
  - constructor; cbn; unfold kMaxBytes; lia.
  - pose proof (reachable_invariant d Hr) as Hinv.
    unfold ISR in Hrun.
    destruct (handle_isr d tr) as [[d1 t1]| |] eqn:Hh; try discriminate.
    cbn [bind] in Hrun.
    destruct (maybeServiceRxRequest_total d1
                (inv_wf _ (handle_isr_invariant _ _ _ _ Hinv Hh)))
      as (d2 & Hs & Hsame & _).
    rewrite Hs in Hrun. cbn [bind] in Hrun. injection Hrun as <- _.
    destruct Hsame as (_ & _ & Hst & Hc & Hbr & Hb & _).
    exact (counters_kept d1 d2 (handle_isr_counters _ _ _ _ Hinv IH Hh)
             Hst Hc Hb Hbr).
  - unfold readNextFrame. destruct (request_buffer_has_data d); [|exact IH].
    apply (counters_kept d); auto.
  - apply (counters_kept d); auto.
Qed.

(** X10. No counter of the state machine ever wraps around: in every
    reachable state the low sample counter is at most 10 (at most 9
    while detecting), the bit position at most 9 and the byte counter
    at most [kMaxBytes], so that each [++] of the source is an exact
    increment: the next interrupt, whatever it reads, leaves the
    counters in these ranges again. *)
Theorem counters_never_wrap d :
  reachable d ->
  counters_in_range d
  /\ wrap8 (low_bits_counter_ d + 1) = low_bits_counter_ d + 1
  /\ wrap8 (bits_read_in_byte_ d + 1) = bits_read_in_byte_ d + 1
  /\ wrap8 (bytes_read_ d + 1) = bytes_read_ d + 1
  /\ forall tr d' tr', ISR d tr = Ok (d', tr') -> counters_in_range d'.
Proof.
  intros Hr. pose proof (reachable_counters d Hr) as Hcnt.
  pose proof Hcnt as [Hlow _ Hbits Hbytes]. unfold kMaxBytes in Hbytes.
  split; [exact Hcnt|].
  do 3 (split; [apply wrap8_succ_small; lia|]).
  intros tr d' tr' Hrun.
  exact (reachable_counters d' (reachable_ISR _ _ _ _ Hr Hrun)).
Qed.

Lemma counters_never_wrap_witness :
  reachable ninth_frame_pending
  /\ counters_in_range ninth_frame_pending
  /\ bits_read_in_byte_ ninth_frame_pending = 9
  /\ low_bits_counter_ ninth_frame_pending = 10.
Proof.
  assert (Hr : reachable ninth_frame_pending) by apply state_after_reachable.
  split; [exact Hr|].
  split; [exact (proj1 (counters_never_wrap _ Hr))|].
  split; vm_compute; reflexivity.
Defined.

(** ** The queue seen from the main program *)

(** X11. The hand-off attempt never loses, duplicates or reorders a
    frame: the unread frames are the same list before and after it.
    After it, and so after every interrupt, frames wait in the ring
    only while the hand-off slot is taken. *)
Theorem handoff_attempt_keeps_unread_frames d :
  wf d ->
  (forall d', maybeServiceRxRequest d = Ok d' ->
              unread d' = unread d /\ serviced d')
  /\ (forall tr d' tr',
        invariant d -> ISR d tr = Ok (d', tr') -> serviced d').
Proof.
  intros Hwf. split.
  - intros d' Hs. exact (maybeServiceRxRequest_unread d d' Hwf Hs).
  - intros tr d' tr' Hinv Hrun. unfold ISR in Hrun.
    destruct (handle_isr d tr) as [[d1 t1]| |] eqn:Hh; try discriminate.
    cbn [bind] in Hrun.
    destruct (maybeServiceRxRequest d1) as [d2| |] eqn:Hs; try discriminate.
    cbn [bind] in Hrun. injection Hrun as <- _.
    exact (proj2 (maybeServiceRxRequest_unread d1 d2
                    (inv_wf _ (handle_isr_invariant _ _ _ _ Hinv Hh)) Hs)).
Qed.

Lemma handoff_attempt_keeps_unread_frames_witness :
  wf (readNextFrame zero_frame
        (state_after 100 (frame_trace [1; 2; 3; 4] ++ frame_trace [5; 6; 7; 8]))).2
  /\ exists d',
      maybeServiceRxRequest
        (readNextFrame zero_frame
           (state_after 100
              (frame_trace [1; 2; 3; 4] ++ frame_trace [5; 6; 7; 8]))).2
      = Ok d'
      /\ unread d' = [mkRxFrameBuffer 4 [5; 6; 7; 8; 0; 0; 0; 0; 0; 0; 0]]
      /\ serviced d'.
Proof.
  assert (Hwf : wf (readNextFrame zero_frame
        (state_after 100
           (frame_trace [1; 2; 3; 4] ++ frame_trace [5; 6; 7; 8]))).2).
  { apply inv_wf, reachable_invariant, reachable_readNextFrame,
      state_after_reachable. }
  split; [exact Hwf|].
  destruct (maybeServiceRxRequest_total _ Hwf) as (d' & Hs & _).
  exists d'. split; [exact Hs|].
  destruct (proj1 (handoff_attempt_keeps_unread_frames _ Hwf) d' Hs)
    as [Hu Hserv].
  split; [|exact Hserv]. rewrite Hu. vm_compute. reflexivity.
Defined.

(** X12. [readNextFrame] takes the oldest unread frame and nothing
    else: once the hand-off attempt has run it returns false exactly
    when no frame is unread, and otherwise returns the first of the
    unread frames and leaves the others, in their order.  It never
    touches the ring, its indices, the state machine or the error
    flag. *)
Theorem readNextFrame_takes_oldest d buffer :
  serviced d ->
  (unread d = [] -> readNextFrame buffer d = (false, buffer, d))
  /\ (forall f rest,
        unread d = f :: rest ->
        (readNextFrame buffer d).1 = (true, f)
        /\ unread (readNextFrame buffer d).2 = rest)
  /\ same_receiver d (readNextFrame buffer d).2
  /\ tail_frame_buffer (readNextFrame buffer d).2 = tail_frame_buffer d.
Proof.
  intros Hserv. split; [|split].
  - intros Hnil. apply readNextFrame_idle, unread_nil_not_ready, Hnil.
  - intros f rest Hu. unfold readNextFrame, unread in *.
    destruct (request_buffer_has_data d) eqn:Hd.
    + injection Hu as <- <-. split; reflexivity.
    + rewrite (Hserv Hd) in Hu. discriminate.
  - unfold readNextFrame, same_receiver.
    destruct (request_buffer_has_data d); cbn; auto 10.
Qed.

Lemma readNextFrame_takes_oldest_witness :
  serviced (state_after 100
              (frame_trace [1; 2; 3; 4] ++ frame_trace [5; 6; 7; 8]))
  /\ (readNextFrame zero_frame
        (state_after 100
           (frame_trace [1; 2; 3; 4] ++ frame_trace [5; 6; 7; 8]))).1
     = (true, mkRxFrameBuffer 4 [1; 2; 3; 4; 0; 0; 0; 0; 0; 0; 0])
  /\ unread (readNextFrame zero_frame
               (state_after 100
                  (frame_trace [1; 2; 3; 4] ++ frame_trace [5; 6; 7; 8]))).2
     = [mkRxFrameBuffer 4 [5; 6; 7; 8; 0; 0; 0; 0; 0; 0; 0]].
Proof.
  assert (Hserv : serviced
            (state_after 100
               (frame_trace [1; 2; 3; 4] ++ frame_trace [5; 6; 7; 8])))
    by (intros Hd; vm_compute in Hd; discriminate).
  split; [exact Hserv|].
  apply (proj1 (proj2 (readNextFrame_takes_oldest _ zero_frame Hserv))).
  vm_compute. reflexivity.
Defined.



(** ** Starting over *)

Lemma ISR_run_defined n : forall d tr,
  invariant d -> ISR_run n d tr <> Undefined.
Proof.
  induction n as [|n IH]; intros d tr Hinv; [discriminate|].
  cbn [ISR_run]. pose proof (ISR_defined d tr Hinv) as Hd.
  destruct (ISR d tr) as [[d1 t1]| |] eqn:Hrun; cbn [bind];
    [|contradiction | discriminate].
  apply IH. exact (ISR_invariant _ _ _ _ Hinv Hrun).
Qed.

(** X14. [init] may be called on a decoder in any condition, as long
    as the arrays have their sizes and the byte counts of the ring are
    at most [kMaxBytes]: it empties the queue and the hand-off slot,
    clears the error flag and puts the receiver in break detection with
    its counter at zero, the ring storage being left as it is.  From
    there no run of interrupts accesses an array outside its bounds.
    Calling it twice is calling it once. *)
Theorem init_restarts_decoder d :
  length (rx_frame_buffers d) = Z.to_nat kMaxFrameBuffers ->
  Forall (fun fb => length (bytes fb) = Z.to_nat kMaxBytes
                    /\ 0 <= num_bytes fb <= kMaxBytes) (rx_frame_buffers d) ->
  invariant (init d)
  /\ unread (init d) = []
  /\ hasErrors (init d) = false
  /\ state (init d) = DETECT_BREAK /\ low_bits_counter_ (init d) = 0
  /\ rx_frame_buffers (init d) = rx_frame_buffers d
  /\ (forall n tr, ISR_run n (init d) tr <> Undefined)
  /\ init (init d) = init d.
Proof.
  intros Hlen Hslots.
  assert (Hinv : invariant (init d)).
  { constructor; [constructor|..]; cbn; unfold kMaxFrameBuffers, kMaxBytes;
      try lia; try discriminate; try exact Hlen.
    - eapply Forall_impl; [exact Hslots|]. intros fb [H _]. exact H.
    - eapply Forall_impl; [exact Hslots|]. intros fb [_ H]. exact H. }
  split; [exact Hinv|].
  do 5 (split; [reflexivity|]).
  split; [intros n tr; apply ISR_run_defined, Hinv | reflexivity].
Qed.

Lemma init_restarts_decoder_witness :
  length (rx_frame_buffers ninth_frame_pending) = Z.to_nat kMaxFrameBuffers
  /\ unread ninth_frame_pending
     = map example_frame [10; 20; 30; 40; 50; 60; 70; 80]
  /\ unread (init ninth_frame_pending) = []
  /\ state (init ninth_frame_pending) = DETECT_BREAK
  /\ forall n tr, ISR_run n (init ninth_frame_pending) tr <> Undefined.
Proof.
  assert (Hlen : length (rx_frame_buffers ninth_frame_pending)
                 = Z.to_nat kMaxFrameBuffers) by (vm_compute; reflexivity).
  split; [exact Hlen|]. split; [vm_compute; reflexivity|].
  destruct (init_restarts_decoder ninth_frame_pending Hlen)
    as (_ & Hu & _ & Hst & _ & _ & Hsafe & _).
  - vm_compute. repeat constructor; discriminate.
  - auto.
Defined.

(** ** The stop bit, case by case *)

(** X15. The interrupt that samples a high stop bit, case by case.
    It stores the collected byte at the old byte count of the current
    slot and then follows the outcome of its wait for a start bit.
    Start bit seen: with eleven bytes now in the slot it raises the
    error flag and goes back to break detection, otherwise it goes on
    reading at bit position 0.  Timeout: it goes back to break
    detection; with fewer than four bytes it raises the error flag and
    enqueues nothing; otherwise it advances [head] and the frame joins
    the unread frames, the oldest queued frame being dropped with the
    error flag raised when [head] came onto [tail]. *)
Theorem stop_bit_interrupt_cases d i w fb r tr' :
  invariant d -> at_stop_bit d -> rx_high i = true ->
  current_slot d = Some fb ->
  waitForRxLow (kClockTicksPerBit * 4) w = Ok (r, tr') ->
  exists d',
    ISR d (i :: w) = Ok (d', tr')
    /\ rx_frame_buffers d'
       = <[Z.to_nat (head_frame_buffer d) := completed_frame fb d]>
           (rx_frame_buffers d)
    /\ stop_bit_outcome r fb d d'.
Proof.
  intros Hinv Hstop Hi Hfb Hw.
  destruct (ISR_stop_bit_spec d i w fb r tr' Hinv Hstop Hi Hfb Hw)
    as (d' & Hrun & _ & Hsl & Hout).
  exists d'. auto.
Qed.

Lemma stop_bit_interrupt_cases_witness :
  invariant (state_after 19 (break_trace ++ byte_trace 165))
  /\ at_stop_bit (state_after 19 (break_trace ++ byte_trace 165))
  /\ waitForRxLow (kClockTicksPerBit * 4) next_byte_trace = Ok (true, [])
  /\ exists d',
      ISR (state_after 19 (break_trace ++ byte_trace 165))
        (high_sample :: next_byte_trace) = Ok (d', [])
      /\ state d' = READ_DATA /\ bits_read_in_byte_ d' = 0
      /\ current_slot d'
         = Some (mkRxFrameBuffer 1 [165; 0; 0; 0; 0; 0; 0; 0; 0; 0; 0]).
Proof.
  assert (Hinv : invariant (state_after 19 (break_trace ++ byte_trace 165)))
    by apply reachable_invariant, state_after_reachable.
  assert (Hstop : at_stop_bit (state_after 19 (break_trace ++ byte_trace 165)))
    by (split; vm_compute; reflexivity).
  assert (Hw : waitForRxLow (kClockTicksPerBit * 4) next_byte_trace
               = Ok (true, []))
    by (vm_compute; reflexivity).
  repeat (split; [assumption|]).
  destruct (stop_bit_interrupt_cases _ high_sample next_byte_trace zero_frame
              true [] Hinv Hstop eq_refl)
    as (d' & Hrun & Hsl & Hout); [vm_compute; reflexivity | exact Hw |].
  unfold stop_bit_outcome in Hout. cbn in Hout.
  destruct Hout as (Hst & Hb & _ & Hh & _).
  exists d'. split; [exact Hrun|]. split; [exact Hst|]. split; [exact Hb|].
  unfold current_slot. rewrite Hsl, Hh. vm_compute. reflexivity.
Defined.
